(** * github-docs: ignore rules, file tree and document assembly

    A shallow embedding of the module [github/fileUtils] ([matchPattern],
    [shouldIgnore], [buildFileTree], [getFileType]) and of
    [src/lib/markdown/generator.ts] ([generateFileTreeMarkdown],
    [generateFileContentMarkdown], [generateRepositoryMarkdown]), followed by
    the properties of the ignore engine, the tree builder and the assembler.

    JavaScript strings are carried as [string]; a character stands for one
    code unit below 256, so the development speaks of texts within Latin-1.
    The fixed texts of the generator that lie outside Latin-1 are carried as
    their UTF-8 bytes; they are only concatenated.
    Code that may throw is written in the [outcome] monad.  Every run starts
    from the built-in objects as the language defines them: nothing has been
    added to [Object.prototype] or to its functions. *)

From Stdlib Require Import String Ascii List Bool Arith ZArith Lia Permutation.
Import ListNotations.

Local Open Scope list_scope.
Local Open Scope string_scope.

(** ** Outcomes of a JavaScript computation *)

Inductive exn : Type :=
| SyntaxError   (* thrown by [new RegExp] on a malformed source *)
| TypeError     (* thrown by an assignment to a property of a string *)
| FetchError.   (* thrown by [getFileContent] when the download fails *)

(** [Returns v]: normal completion.  [Throws e]: an exception reaches the
    caller.  [Unmodelled]: the run uses a regular-expression feature that
    this development does not interpret, or writes to a built-in object that
    every caller shares; nothing is stated about it. *)
Inductive outcome (A : Type) : Type :=
| Returns (a : A)
| Throws (e : exn)
| Unmodelled.

Arguments Returns {A} a.
Arguments Throws {A} e.
Arguments Unmodelled {A}.

Definition bind {A B : Type} (m : outcome A) (k : A -> outcome B) : outcome B :=
  match m with
  | Returns a => k a
  | Throws e => Throws e
  | Unmodelled => Unmodelled
  end.

(** [try { m } catch (e) { h e }] *)
Definition catch {A : Type} (m : outcome A) (h : exn -> outcome A) : outcome A :=
  match m with
  | Throws e => h e
  | _ => m
  end.

Notation "x <- m ;; k" := (bind m (fun x => k))
  (at level 61, m at next level, right associativity).
Notation "' p <- m ;; k" := (bind m (fun x => match x with p => k end))
  (at level 61, p pattern, m at next level, right associativity).

(** ** String and array primitives of the host language *)

Module JS.

(** [s.split(sep)] for a one-character separator: never empty. *)
Fixpoint split (sep : ascii) (s : string) : list string :=
  match s with
  | EmptyString => [""]
  | String c s' =>
      if Ascii.eqb c sep then "" :: split sep s'
      else match split sep s' with
           | [] => [String c ""]
           | w :: ws => String c w :: ws
           end
  end.

(** [parts.join(sep)]. *)
Fixpoint join (sep : string) (parts : list string) : string :=
  match parts with
  | [] => ""
  | [p] => p
  | p :: ps => p ++ sep ++ join sep ps
  end.

(** [parts.pop() || ''] read without the mutation: the last element. *)
Definition pop_or_empty (parts : list string) : string := last parts "".

(** [parts] after [parts.pop()]. *)
Definition popped (parts : list string) : list string := removelast parts.

Definition startsWith (s p : string) : bool := String.prefix p s.

Fixpoint endsWith (s suf : string) : bool :=
  String.eqb s suf ||
  match s with
  | EmptyString => false
  | String _ s' => endsWith s' suf
  end.

(** [s.substring(1)]. *)
Definition substring1 (s : string) : string :=
  match s with
  | EmptyString => ""
  | String _ s' => s'
  end.

(** White space and line terminators below U+0100: tab, line feed,
    vertical tab, form feed, carriage return, space and no-break space. *)
Definition isWhiteSpace (c : ascii) : bool :=
  let n := nat_of_ascii c in
  ((n =? 9) || (n =? 10) || (n =? 11) || (n =? 12) || (n =? 13)
   || (n =? 32) || (n =? 160))%nat.

Fixpoint trimStart (s : string) : string :=
  match s with
  | EmptyString => ""
  | String c s' => if isWhiteSpace c then trimStart s' else s
  end.

(** [s.trim() === ''] *)
Definition trimIsEmpty (s : string) : bool := String.eqb (trimStart s) "".

(** [s.replace(/c/g, by)] for a single literal character [c]. *)
Fixpoint replaceAll (c : ascii) (by_ : string) (s : string) : string :=
  match s with
  | EmptyString => ""
  | String x s' =>
      if Ascii.eqb x c then by_ ++ replaceAll c by_ s'
      else String x (replaceAll c by_ s')
  end.

(** [s.toLowerCase()] below U+0100: the letters A to Z, and the capital
    letters U+00C0 to U+00DE, the multiplication sign U+00D7 apart. *)
Definition lowerChar (c : ascii) : ascii :=
  let n := nat_of_ascii c in
  if (((65 <=? n) && (n <=? 90))
      || ((192 <=? n) && (n <=? 222) && negb (n =? 215)))%nat
  then ascii_of_nat (n + 32) else c.

Fixpoint toLowerCase (s : string) : string :=
  match s with
  | EmptyString => ""
  | String c s' => String (lowerChar c) (toLowerCase s')
  end.

(** [arr.some(f)] with a callback that may throw: stops at the first
    [true], and at the first exception. *)
Fixpoint some {A : Type} (f : A -> outcome bool) (l : list A) : outcome bool :=
  match l with
  | [] => Returns false
  | x :: l' => b <- f x ;; if b then Returns true else some f l'
  end.

(** [arr.filter(f)] with a callback that may throw. *)
Fixpoint filter {A : Type} (f : A -> outcome bool) (l : list A)
  : outcome (list A) :=
  match l with
  | [] => Returns []
  | x :: l' =>
      b <- f x ;;
      r <- filter f l' ;;
      Returns (if b then x :: r else r)
  end.

(** [arr.forEach(f)] with a callback that updates a state and may throw. *)
Fixpoint forEach {S A : Type} (f : S -> A -> outcome S) (l : list A) (s : S)
  : outcome S :=
  match l with
  | [] => Returns s
  | x :: l' => s' <- f s x ;; forEach f l' s'
  end.

End JS.

(** ** The regular expressions built by [matchPattern]

    [new RegExp(src)] without flags.  The interpreted fragment: pattern
    characters, [.], identity escapes of non-alphanumeric characters, the
    assertions [^] and [$], the quantifiers [*] and [+], capturing groups and
    alternation.  Character classes that are closed, braces, [?] and
    alphanumeric escapes are [Unmodelled]. *)

Module RegExp.

Inductive regex : Type :=
| Eps
| Chr (c : ascii)
| Dot
| Bol
| Eol
| Cat (r1 r2 : regex)
| Alt (r1 r2 : regex)
| Star (r : regex).

Definition isAlnum (c : ascii) : bool :=
  let n := nat_of_ascii c in
  (((48 <=? n) && (n <=? 57)) || ((65 <=? n) && (n <=? 90))
   || ((97 <=? n) && (n <=? 122)))%nat.

Fixpoint mentions (c : ascii) (s : string) : bool :=
  match s with
  | EmptyString => false
  | String x s' => Ascii.eqb x c || mentions c s'
  end.

(** A quantifier after an atom [r]; [+] is one mandatory round and then [*]. *)
Definition quantified (r : regex) (s : string) : outcome (regex * string) :=
  match s with
  | String "*" s' => Returns (Star r, s')
  | String "+" s' => Returns (Cat r (Star r), s')
  | String "?" _ => Unmodelled
  | String "{" _ => Unmodelled
  | _ => Returns (r, s)
  end.

(** An assertion cannot be repeated. *)
Definition asserted (r : regex) (s : string) : outcome (regex * string) :=
  match s with
  | String "*" _ => Throws SyntaxError
  | String "+" _ => Throws SyntaxError
  | String "?" _ => Throws SyntaxError
  | String "{" _ => Unmodelled
  | _ => Returns (r, s)
  end.

(** Recursive descent over the source; each function returns what it read
    and the unread rest.  The fuel bounds the call depth. *)
Fixpoint parseDisjunction (n : nat) (s : string) : outcome (regex * string) :=
  match n with
  | 0 => Unmodelled
  | S n' =>
      '(a, s1) <- parseAlternative n' s ;;
      match s1 with
      | String "|" s2 =>
          '(d, s3) <- parseDisjunction n' s2 ;; Returns (Alt a d, s3)
      | _ => Returns (a, s1)
      end
  end
with parseAlternative (n : nat) (s : string) : outcome (regex * string) :=
  match n with
  | 0 => Unmodelled
  | S n' =>
      match s with
      | EmptyString => Returns (Eps, s)
      | String "|" _ => Returns (Eps, s)
      | String ")" _ => Returns (Eps, s)
      | _ =>
          '(t, s1) <- parseTerm n' s ;;
          '(a, s2) <- parseAlternative n' s1 ;;
          Returns (Cat t a, s2)
      end
  end
with parseTerm (n : nat) (s : string) : outcome (regex * string) :=
  match n with
  | 0 => Unmodelled
  | S n' =>
      match s with
      | EmptyString => Unmodelled
      | String "^" s' => asserted Bol s'
      | String "$" s' => asserted Eol s'
      | String "*" _ => Throws SyntaxError
      | String "+" _ => Throws SyntaxError
      | String "?" _ => Throws SyntaxError
      | String "{" _ => Unmodelled
      | String "." s' => quantified Dot s'
      | String "\" EmptyString => Throws SyntaxError
      | String "\" (String c s') =>
          if isAlnum c then Unmodelled else quantified (Chr c) s'
      | String "[" s' =>
          if mentions "]" s' then Unmodelled else Throws SyntaxError
      | String "(" (String "?" _) => Unmodelled
      | String "(" s' =>
          '(d, s1) <- parseDisjunction n' s' ;;
          match s1 with
          | String ")" s2 => quantified d s2
          | _ => Throws SyntaxError
          end
      | String c s' => quantified (Chr c) s'
      end
  end.

(** [new RegExp(src)]: a [)] left unread has no opening parenthesis. *)
Definition create (src : string) : outcome regex :=
  '(r, rest) <- parseDisjunction (3 * String.length src + 3) src ;;
  match rest with
  | EmptyString => Returns r
  | _ => Throws SyntaxError
  end.

(** Without the [s] flag [.] rejects line terminators. *)
Definition isLineTerminator (c : ascii) : bool :=
  let n := nat_of_ascii c in ((n =? 10) || (n =? 13))%nat.

(** Backtracking matcher in continuation style: [run r i s k] matches [r] at
    index [i], where [s] is the input from [i] on, and hands the end
    position to [k].  A round of [Star] that consumes nothing is rejected. *)
Fixpoint run (r : regex) (i : nat) (s : string)
  (k : nat -> string -> bool) {struct r} : bool :=
  match r with
  | Eps => k i s
  | Chr c =>
      match s with
      | String x s' => if Ascii.eqb x c then k (S i) s' else false
      | EmptyString => false
      end
  | Dot =>
      match s with
      | String x s' => if isLineTerminator x then false else k (S i) s'
      | EmptyString => false
      end
  | Bol => if (i =? 0)%nat then k i s else false
  | Eol => match s with EmptyString => k i s | _ => false end
  | Cat r1 r2 => run r1 i s (fun j t => run r2 j t k)
  | Alt r1 r2 => run r1 i s k || run r2 i s k
  | Star r1 =>
      (fix rounds (n : nat) (i : nat) (s : string) {struct n} : bool :=
         match n with
         | 0 => k i s
         | S n' =>
             run r1 i s (fun j t => if (j =? i)%nat then false else rounds n' j t)
             || k i s
         end) (S (String.length s)) i s
  end.

Fixpoint testFrom (r : regex) (i : nat) (s : string) : bool :=
  run r i s (fun _ _ => true) ||
  match s with
  | EmptyString => false
  | String _ s' => testFrom r (S i) s'
  end.

(** [regex.test(s)] for a regex without the [g] or [y] flag. *)
Definition test (r : regex) (s : string) : bool := testFrom r 0 s.

End RegExp.

(** ** fileUtils.ts: [matchPattern] and [shouldIgnore] *)

(** [filePath.split('/').pop() || ''] *)
Definition fileNameOf (filePath : string) : string :=
  JS.pop_or_empty (JS.split "/" filePath).

(** The three [replace] calls that turn wildcards into a regex source. *)
Definition regexPatternOf (pattern : string) : string :=
  JS.replaceAll "?" "."
    (JS.replaceAll "*" ".*"
       (JS.replaceAll "." "\." pattern)).

Definition matchPattern (pattern filePath : string) : outcome bool :=
  if String.eqb pattern "" then Returns false
  else if String.eqb pattern filePath then Returns true
  else
    let fileName := fileNameOf filePath in
    if String.eqb pattern fileName then Returns true
    else
      let regexPattern := regexPatternOf pattern in
      regex <- RegExp.create ("^" ++ regexPattern ++ "$") ;;
      Returns (RegExp.test regex filePath || RegExp.test regex fileName).

Definition lockFile : string := "package-lock.json".

(** The callback handed to [some] in [shouldIgnore]. *)
Definition ruleFires (filePath pattern : string) : outcome bool :=
  if JS.startsWith pattern "#" || JS.trimIsEmpty pattern then Returns false
  else if JS.startsWith pattern "!" then
    b <- matchPattern (JS.substring1 pattern) filePath ;; Returns (negb b)
  else matchPattern pattern filePath.

Definition shouldIgnore (filePath : string) (ignorePatterns : list string)
  : outcome bool :=
  if String.eqb filePath lockFile || JS.endsWith filePath ("/" ++ lockFile)
  then Returns true
  else if (length ignorePatterns =? 0)%nat then Returns false
  else JS.some (ruleFires filePath) ignorePatterns.

(** ** A plain object used as a dictionary

    Own string-keyed properties in creation order.  Enumeration
    ([Object.values]) lists the array-index keys first, in ascending numeric
    order, then the other keys in creation order.  A read [m[k]] of a key
    that is not an own key goes on to the prototype of [m], which is
    [Object.prototype] with the members listed in [prototypeMembers]. *)

Module Obj.

Definition t (V : Type) : Type := list (string * V).

(** The properties of [Object.prototype]: the accessor [__proto__] and
    eleven functions. *)
Definition prototypeMembers : list string :=
  ["__proto__"; "constructor"; "hasOwnProperty"; "isPrototypeOf";
   "propertyIsEnumerable"; "toLocaleString"; "toString"; "valueOf";
   "__defineGetter__"; "__defineSetter__"; "__lookupGetter__";
   "__lookupSetter__"].

Definition isPrototypeMember (k : string) : bool :=
  existsb (String.eqb k) prototypeMembers.

Fixpoint get {V : Type} (m : t V) (k : string) : option V :=
  match m with
  | [] => None
  | (k', v) :: m' => if String.eqb k' k then Some v else get m' k
  end.

(** [m[k] = v]: an existing property keeps its place. *)
Fixpoint set {V : Type} (m : t V) (k : string) (v : V) : t V :=
  match m with
  | [] => [(k, v)]
  | (k', v') :: m' =>
      if String.eqb k' k then (k, v) :: m' else (k', v') :: set m' k v
  end.

Definition isDigit (c : ascii) : bool :=
  let n := nat_of_ascii c in ((48 <=? n) && (n <=? 57))%nat.

Fixpoint digitsValue (acc : N) (s : string) : option N :=
  match s with
  | EmptyString => Some acc
  | String c s' =>
      if isDigit c
      then digitsValue (acc * 10 + (N_of_ascii c - 48))%N s'
      else None
  end.

(** A canonical numeric string below 2^32 - 1. *)
Definition arrayIndex (k : string) : option N :=
  if String.eqb k ""
     || (JS.startsWith k "0" && negb (String.eqb k "0"))
  then None
  else
    match digitsValue 0 k with
    | Some n => if (n <? 4294967295)%N then Some n else None
    | None => None
    end.

Definition isArrayIndex (k : string) : bool :=
  match arrayIndex k with Some _ => true | None => false end.

Fixpoint insertByIndex (x : N * string) (l : list (N * string))
  : list (N * string) :=
  match l with
  | [] => [x]
  | y :: l' => if (fst x <=? fst y)%N then x :: l else y :: insertByIndex x l'
  end.

Definition indexKeys {V : Type} (m : t V) : list string :=
  map snd
    (fold_right insertByIndex []
       (flat_map (fun kv => match arrayIndex (fst kv) with
                            | Some n => [(n, fst kv)]
                            | None => []
                            end) m)).

Definition nameKeys {V : Type} (m : t V) : list string :=
  List.filter (fun k => negb (isArrayIndex k)) (map fst m).

(** [Object.keys(m)]. *)
Definition keys {V : Type} (m : t V) : list string :=
  indexKeys m ++ nameKeys m.

End Obj.

(** ** fileUtils.ts: [buildFileTree] *)

(** [TreeItem]: the fields the builder reads. *)
Record TreeItem : Type := { path : string; type : string }.

Inductive NodeType : Type := file | dir.

(** [FileTree]: a directory node owns a [children] array, a file node has
    no such property. *)
#[warnings="-register-all"]
Inductive FileTree : Type :=
| Node (nodePath : string) (nodeType : NodeType)
       (children : option (list FileTree)).

(** While the tree is wired, nodes are shared between the dictionary, the
    root array and the children arrays.  A directory node is identified by
    its key in the dictionary, a file node is a leaf that is never updated. *)
Inductive ref : Type :=
| RDir (p : string)
| RFile (p : string).

(** The builder's state: [map], holding for each directory node its
    [children] array, and [root]. *)
Record heap : Type := { dirs : Obj.t (list ref); root : list ref }.

Definition depthOf (p : string) : Z := Z.of_nat (length (JS.split "/" p)).

(** [maxDepth !== -1 && depth > maxDepth] *)
Definition tooDeep (maxDepth : Z) (p : string) : bool :=
  negb (maxDepth =? -1)%Z && (depthOf p >? maxDepth)%Z.

(** [parts.pop(); parts.join('/')] *)
Definition parentPath (p : string) : string :=
  JS.join "/" (JS.popped (JS.split "/" p)).

Definition notIgnored (ignorePatterns : list string) (item : TreeItem)
  : outcome bool :=
  b <- shouldIgnore (path item) ignorePatterns ;; Returns (negb b).

(** [items.filter(type === t).filter(!shouldIgnore)] *)
Definition selected (t : string) (items : list TreeItem)
  (ignorePatterns : list string) : outcome (list TreeItem) :=
  JS.filter (notIgnored ignorePatterns)
    (List.filter (fun item => String.eqb (type item) t) items).

(** First loop: one fresh directory node per surviving [tree] item.  The
    assignment [map[item.path] = node] creates an own key, except for the
    path [__proto__]: there it runs the setter that [map] inherits from
    [Object.prototype], which makes the node the prototype of [map] and
    creates no key.  The state of the loop is the own keys of [map] and
    whether a node has been installed as its prototype. *)
Definition createDir (maxDepth : Z) (st : Obj.t (list ref) * bool)
  (item : TreeItem) : Obj.t (list ref) * bool :=
  if tooDeep maxDepth (path item) then st
  else if String.eqb (path item) "__proto__" then (fst st, true)
  else (Obj.set (fst st) (path item) [], snd st).

(** What [map[parentPath]] finds when [parentPath] is no own key of [map]
    and the prototype chain has it. *)
Inductive inheritedValue : Type :=
| Aside     (* the node installed as prototype, or its [children] array:
               an object that no array of the forest holds *)
| Text      (* the [path] or the [type] of the node installed as
               prototype: a string *)
| Builtin.  (* [Object.prototype] or one of its functions *)

(** The chain is the installed node, if any, and then [Object.prototype];
    with a node installed, the accessor [__proto__] answers that node. *)
Definition inherited (installed : bool) (k : string) : option inheritedValue :=
  if installed && (String.eqb k "path" || String.eqb k "type") then Some Text
  else if installed && (String.eqb k "children" || String.eqb k "__proto__")
  then Some Aside
  else if Obj.isPrototypeMember k then Some Builtin
  else None.

(** The wiring shared by the second and the third loop: push [node] on
    [root], or on the [children] of what [map[parentPath]] finds, or
    nowhere.  An own key is a directory node of the forest.  An inherited
    object that is no part of the forest takes the push, and the forest
    does not change.  A string cannot be given a [children] property: the
    assignment throws.  A push on [Object.prototype] or on one of its
    functions changes an object that every caller shares. *)
Definition attach (installed : bool) (h : heap) (p : string) (node : ref)
  : outcome heap :=
  let parent := parentPath p in
  if String.eqb parent "" then
    Returns {| dirs := dirs h; root := root h ++ [node] |}
  else
    match Obj.get (dirs h) parent with
    | Some kids =>
        Returns {| dirs := Obj.set (dirs h) parent (kids ++ [node])%list;
                   root := root h |}
    | None =>
        match inherited installed parent with
        | None => Returns h
        | Some Aside => Returns h
        | Some Text => Throws TypeError
        | Some Builtin => Unmodelled
        end
    end.

(** Second loop, over [Object.values(map)]. *)
Definition wireDir (installed : bool) (h : heap) (key : string)
  : outcome heap :=
  attach installed h key (RDir key).

(** Third loop, over the surviving [blob] items. *)
Definition addFile (maxDepth : Z) (installed : bool) (h : heap)
  (item : TreeItem) : outcome heap :=
  if tooDeep maxDepth (path item) then Returns h
  else attach installed h (path item) (RFile (path item)).

Definition buildHeap (items : list TreeItem) (ignorePatterns : list string)
  (maxDepth : Z) : outcome heap :=
  treeItems <- selected "tree" items ignorePatterns ;;
  let (map, installed) :=
    fold_left (createDir maxDepth) treeItems ([], false) in
  h <- JS.forEach (wireDir installed) (Obj.keys map)
         {| dirs := map; root := [] |} ;;
  blobItems <- selected "blob" items ignorePatterns ;;
  JS.forEach (addFile maxDepth installed) blobItems h.

(** Reading the returned [root] as a tree follows the references. *)
Fixpoint traverse {A B : Type} (f : A -> option B) (l : list A)
  : option (list B) :=
  match l with
  | [] => Some []
  | x :: l' =>
      match f x, traverse f l' with
      | Some y, Some ys => Some (y :: ys)
      | _, _ => None
      end
  end.

Fixpoint reify (n : nat) (map : Obj.t (list ref)) (r : ref)
  : option FileTree :=
  match r with
  | RFile p => Some (Node p file None)
  | RDir p =>
      match n with
      | 0 => None
      | S n' =>
          match Obj.get map p with
          | None => None
          | Some kids =>
              match traverse (reify n' map) kids with
              | Some ts => Some (Node p dir (Some ts))
              | None => None
              end
          end
      end
  end.

(** A child's path is longer than its parent's, so the longest key bounds
    the nesting. *)
Definition nesting (map : Obj.t (list ref)) : nat :=
  S (fold_right Nat.max 0 (List.map (fun kv => String.length (fst kv)) map)).

Definition forestOf (h : heap) : option (list FileTree) :=
  traverse (reify (nesting (dirs h)) (dirs h)) (root h).

Definition buildFileTree (items : list TreeItem) (ignorePatterns : list string)
  (maxDepth : Z) : outcome (list FileTree) :=
  h <- buildHeap items ignorePatterns maxDepth ;;
  match forestOf h with
  | Some forest => Returns forest
  | None => Unmodelled
  end.

Definition pathOf (t : FileTree) : string :=
  match t with Node p _ _ => p end.

Definition typeOf (t : FileTree) : NodeType :=
  match t with Node _ ty _ => ty end.

Definition isFile (t : FileTree) : bool :=
  match typeOf t with file => true | dir => false end.

(** ** fileUtils.ts: [getFileType] *)

Definition codeExtensions : list (string * string) :=
  [("js", "javascript"); ("jsx", "javascript"); ("ts", "typescript");
   ("tsx", "typescript"); ("py", "python"); ("rb", "ruby"); ("java", "java");
   ("c", "c"); ("cpp", "cpp"); ("cs", "csharp"); ("go", "go");
   ("rs", "rust"); ("php", "php"); ("swift", "swift"); ("kt", "kotlin");
   ("scala", "scala"); ("dart", "dart"); ("sh", "bash"); ("bat", "batch");
   ("ps1", "powershell"); ("sql", "sql"); ("r", "r"); ("m", "matlab");
   ("pl", "perl"); ("lua", "lua"); ("ex", "elixir"); ("exs", "elixir");
   ("erl", "erlang"); ("clj", "clojure"); ("hs", "haskell");
   ("fs", "fsharp"); ("ml", "ocaml"); ("groovy", "groovy"); ("jl", "julia")].

Definition markupExtensions : list (string * string) :=
  [("html", "html"); ("htm", "html"); ("xml", "xml"); ("css", "css");
   ("scss", "scss"); ("sass", "sass"); ("less", "less"); ("svg", "svg");
   ("md", "markdown"); ("markdown", "markdown"); ("json", "json");
   ("yaml", "yaml"); ("yml", "yaml"); ("toml", "toml")].

Definition docExtensions : list (string * string) :=
  [("txt", "text"); ("pdf", "pdf"); ("doc", "word"); ("docx", "word");
   ("xls", "excel"); ("xlsx", "excel"); ("ppt", "powerpoint");
   ("pptx", "powerpoint"); ("odt", "openoffice"); ("ods", "openoffice");
   ("odp", "openoffice")].

Definition imageExtensions : list (string * string) :=
  [("jpg", "image"); ("jpeg", "image"); ("png", "image"); ("gif", "image");
   ("bmp", "image"); ("tiff", "image"); ("webp", "image"); ("ico", "image")].

Definition otherExtensions : list (string * string) :=
  [("zip", "archive"); ("rar", "archive"); ("tar", "archive");
   ("gz", "archive"); ("7z", "archive"); ("exe", "executable");
   ("dll", "binary"); ("so", "binary"); ("a", "binary"); ("o", "binary");
   ("class", "binary"); ("jar", "binary"); ("war", "binary");
   ("ear", "binary")].

Definition configExtensions : list (string * string) :=
  [("ini", "config"); ("conf", "config"); ("cfg", "config");
   ("config", "config"); ("env", "config")].

Fixpoint lookup (table : list (string * string)) (k : string) : option string :=
  match table with
  | [] => None
  | (k', v) :: table' => if String.eqb k' k then Some v else lookup table' k
  end.

Definition specialNames : list (string * string) :=
  [("package.json", "package-json"); ("tsconfig.json", "tsconfig");
   (".gitignore", "gitignore"); (".GithubDocsignore", "githubdocsignore");
   ("Dockerfile", "dockerfile"); ("docker-compose.yml", "docker-compose");
   ("docker-compose.yaml", "docker-compose"); ("Makefile", "makefile");
   ("README.md", "readme"); ("LICENSE", "license")].

Fixpoint bySuffix (names : list (string * string)) (filePath : string)
  : option string :=
  match names with
  | [] => None
  | (suffix, ty) :: names' =>
      if JS.endsWith filePath suffix then Some ty else bySuffix names' filePath
  end.

(** What [getFileType] returns: a type name, or, for an extension that
    every table inherits from [Object.prototype], the inherited member,
    which is a function or an object and no string. *)
Inductive fileType : Type :=
| TypeName (name : string)
| Member (key : string).

(** [table[k]]: an own key first, then the prototype. *)
Definition property (table : list (string * string)) (k : string)
  : option fileType :=
  match lookup table k with
  | Some ty => Some (TypeName ty)
  | None => if Obj.isPrototypeMember k then Some (Member k) else None
  end.

Definition getFileType (filePath : string) : fileType :=
  let extension := JS.toLowerCase (JS.pop_or_empty (JS.split "." filePath)) in
  match bySuffix specialNames filePath with
  | Some ty => TypeName ty
  | None =>
      match property (codeExtensions ++ markupExtensions ++ docExtensions
                      ++ imageExtensions ++ otherExtensions
                      ++ configExtensions)%list
                     extension with
      | Some ty => ty
      | None => TypeName "unknown"
      end
  end.

(** ** generator.ts *)

Definition LF : string := String "010"%char "".

Definition dirIcon : string := "📁".
Definition fileIcon : string := "📄".

Fixpoint generateFileTreeMarkdown (indent : string) (item : FileTree) : string :=
  match item with
  | Node p ty kids =>
      let name := fileNameOf p in
      let icon := match ty with dir => dirIcon | file => fileIcon end in
      indent ++ icon ++ " " ++ name ++ LF ++
      match kids with
      | Some l =>
          (fix each (l : list FileTree) : string :=
             match l with
             | [] => ""
             | c :: l' => generateFileTreeMarkdown (indent ++ "  ") c ++ each l'
             end) l
      | None => ""
      end
  end.

Definition concatAll (parts : list string) : string :=
  fold_right String.append "" parts.

Definition generateForestMarkdown (tree : list FileTree) : string :=
  concatAll (List.map (generateFileTreeMarkdown "") tree).

(** The [switch] on the file type; a value that is no string meets no
    [case]. *)
Definition languageOf (ty : fileType) : string :=
  match ty with
  | TypeName name =>
      if existsb (String.eqb name)
           ["javascript"; "typescript"; "python"; "html"; "css"; "json";
            "markdown"; "yaml"]
      then name else ""
  | Member _ => ""
  end.

Definition keepLine (sourceIgnorePatterns : list string) (line : string)
  : outcome bool :=
  b <- shouldIgnore line sourceIgnorePatterns ;; Returns (negb b).

(** [lines.filter(line => !shouldIgnore(line, sourceIgnorePatterns))] *)
Definition filteredLines (sourceIgnorePatterns : list string)
  (lines : list string) : outcome (list string) :=
  JS.filter (keepLine sourceIgnorePatterns) lines.

(** [filteredContent], lines 154 to 159. *)
Definition filteredContent (content : string)
  (sourceIgnorePatterns : list string) : outcome string :=
  if (0 <? length sourceIgnorePatterns)%nat then
    kept <- filteredLines sourceIgnorePatterns (JS.split "010" content) ;;
    Returns (JS.join LF kept)
  else Returns content.

Definition heading (filePath : string) : string :=
  "### " ++ filePath ++ LF ++ LF.

(** The section written when a file's content could not be produced. *)
Definition failureSection (filePath : string) : string :=
  heading filePath ++ "> ファイル内容の取得に失敗しました。" ++ LF ++ LF.

Definition codeSection (filePath language body : string) : string :=
  heading filePath ++ "```" ++ language ++ LF ++ body ++ LF ++ "```" ++ LF ++ LF.

(** [flattenTree]: parent first, then its children in array order. *)
Fixpoint flattenNode (t : FileTree) : list FileTree :=
  match t with
  | Node _ _ kids =>
      t :: match kids with
           | Some l =>
               (fix each (l : list FileTree) : list FileTree :=
                  match l with
                  | [] => []
                  | c :: l' => (flattenNode c ++ each l')%list
                  end) l
           | None => []
           end
  end.

Definition flattenTree (tree : list FileTree) : list FileTree :=
  flat_map flattenNode tree.

Section Assembler.

(** The content-fetch collaborator: [getFileContent] for the repository and
    branch at hand; [None] when it throws. *)
Variable fetch : string -> option string.

Definition getFileContent (filePath : string) : outcome string :=
  match fetch filePath with
  | Some content => Returns content
  | None => Throws FetchError
  end.

Definition generateFileContentMarkdown (filePath : string)
  (ignorePatterns sourceIgnorePatterns : list string) : outcome string :=
  catch
    (ignored <- shouldIgnore filePath ignorePatterns ;;
     if ignored then Returns ""
     else
       let fileType := getFileType filePath in
       content <- getFileContent filePath ;;
       body <- filteredContent content sourceIgnorePatterns ;;
       Returns (codeSection filePath (languageOf fileType) body))
    (fun _ => Returns (failureSection filePath)).

(** The [for] loop over [flatFiles], appending to [markdown]. *)
Fixpoint fileSections (ignorePatterns sourceIgnorePatterns : list string)
  (flatFiles : list FileTree) (markdown : string) : outcome string :=
  match flatFiles with
  | [] => Returns markdown
  | f :: rest =>
      ignored <- shouldIgnore (pathOf f) ignorePatterns ;;
      if ignored then
        fileSections ignorePatterns sourceIgnorePatterns rest markdown
      else
        fileMarkdown <-
          catch (generateFileContentMarkdown (pathOf f) ignorePatterns
                   sourceIgnorePatterns)
                (fun _ => Returns (failureSection (pathOf f))) ;;
        fileSections ignorePatterns sourceIgnorePatterns rest
          (markdown ++ fileMarkdown)
  end.

(** [repoInfoMarkdown] and [contributorsMarkdown] stand for the results of
    [generateRepoInfoMarkdown] and [generateContributorsMarkdown]. *)
Definition generateRepositoryMarkdown (repoInfoMarkdown : string)
  (contributorsMarkdown : string) (fileTree : list FileTree)
  (ignorePatterns sourceIgnorePatterns : list string) : outcome string :=
  let markdown :=
    repoInfoMarkdown ++ contributorsMarkdown
    ++ "## ファイル構造" ++ LF ++ LF
    ++ generateForestMarkdown fileTree ++ LF
    ++ "## ファイル内容" ++ LF ++ LF in
  let flatFiles := List.filter isFile (flattenTree fileTree) in
  fileSections ignorePatterns sourceIgnorePatterns flatFiles markdown.

End Assembler.

(** * Vocabulary of the properties *)

(** [subseq l1 l2]: [l1] is [l2] with some elements left out, the others in
    their order. *)
Inductive subseq {A : Type} : list A -> list A -> Prop :=
| subseq_nil : subseq [] []
| subseq_skip (x : A) (l1 l2 : list A) : subseq l1 l2 -> subseq l1 (x :: l2)
| subseq_take (x : A) (l1 l2 : list A) :
    subseq l1 l2 -> subseq (x :: l1) (x :: l2).

#[local] Hint Constructors subseq : core.

(** The test [arr.filter] applies, read as a boolean: [true] only when the
    callback returns [true]. *)
Definition holds {A : Type} (f : A -> outcome bool) (x : A) : bool :=
  match f x with Returns true => true | _ => false end.

(** The paths of [l] that are pushed on [root]. *)
Definition rootsIn (l : list string) : list string :=
  List.filter (fun p => String.eqb (parentPath p) "") l.

(** The paths of [l] that are pushed on the children of the node at [k]. *)
Definition childrenIn (k : string) (l : list string) : list string :=
  List.filter
    (fun p => negb (String.eqb (parentPath p) "") && String.eqb (parentPath p) k)
    l.

(** The heap after a push that returns: [node] is on [root], or on the
    children of the directory node at its parent path, or nowhere. *)
Definition pushed (h : heap) (p : string) (node : ref) : heap :=
  let parent := parentPath p in
  if String.eqb parent "" then
    {| dirs := dirs h; root := root h ++ [node] |}
  else
    match Obj.get (dirs h) parent with
    | Some kids =>
        {| dirs := Obj.set (dirs h) parent (kids ++ [node])%list; root := root h |}
    | None => h
    end.

(** A wiring loop that returns, over the paths [l], [mk] making the node of
    each. *)
Definition attachAll (mk : string -> ref) (h : heap) (l : list string) : heap :=
  fold_left (fun h p => pushed h p (mk p)) l h.

(** The items that pass the depth gate. *)
Definition withinDepth (maxDepth : Z) (i : TreeItem) : bool :=
  negb (tooDeep maxDepth (path i)).

(** The own keys after the first loop has visited [item]. *)
Definition declared (maxDepth : Z) (m : Obj.t (list ref)) (item : TreeItem)
  : Obj.t (list ref) :=
  if tooDeep maxDepth (path item) || String.eqb (path item) "__proto__" then m
  else Obj.set m (path item) [].

(** The [tree] items that create a key. *)
Definition keyed (maxDepth : Z) (i : TreeItem) : bool :=
  negb (tooDeep maxDepth (path i) || String.eqb (path i) "__proto__").

(** The [tree] items that install their node as the prototype. *)
Definition installs (maxDepth : Z) (i : TreeItem) : bool :=
  withinDepth maxDepth i && String.eqb (path i) "__proto__".

(** A parent path that [map] finds on its prototype chain whatever the
    input: a member of [Object.prototype], or a field of a directory
    node. *)
Definition reserved (k : string) : bool :=
  Obj.isPrototypeMember k
  || existsb (String.eqb k) ["path"; "type"; "children"].

(** [rooted K p]: every path above [p] satisfies [K]. *)
Inductive rooted (K : string -> Prop) : string -> Prop :=
| rooted_top (p : string) : parentPath p = "" -> rooted K p
| rooted_below (p : string) :
    K (parentPath p) -> rooted K (parentPath p) -> rooted K p.

(** The [type] of the entries that become nodes of type [ty]. *)
Definition kindOf (ty : NodeType) : string :=
  match ty with dir => "tree" | file => "blob" end.

(** An entry of the right kind at [p] that passes the filter and the depth
    gate and, for a directory, gets a key. *)
Definition surviving (items : list TreeItem) (ignorePatterns : list string)
  (maxDepth : Z) (p : string) (ty : NodeType) : Prop :=
  exists i, In i items /\ type i = kindOf ty /\ path i = p
            /\ shouldIgnore p ignorePatterns = Returns false
            /\ tooDeep maxDepth p = false
            /\ (ty = dir -> p <> "__proto__").

(** Every entry below a directory comes with an entry for that directory,
    as in a recursive listing. *)
Definition complete (items : list TreeItem) : Prop :=
  forall i, In i items ->
            parentPath (path i) = ""
            \/ exists j, In j items /\ type j = "tree"
                         /\ path j = parentPath (path i).

(** The heap after the three loops, where [index] is the dictionary after
    the first loop and [files] are the paths the third loop attaches. *)
Record wired (index : Obj.t (list ref)) (files : list string) (h : heap)
  : Prop := {
  wired_keys : map fst (dirs h) = map fst index;
  wired_root :
    root h = (map RDir (rootsIn (Obj.keys index))
              ++ map RFile (rootsIn files))%list;
  wired_kids : forall k,
    In k (map fst index) ->
    Obj.get (dirs h) k
    = Some (map RDir (childrenIn k (Obj.nameKeys index))
            ++ map RFile (childrenIn k files))%list
}.

(** [item.children] *)
Definition childrenOf (t : FileTree) : option (list FileTree) :=
  match t with Node _ _ kids => kids end.

(** What identifies a node in an array: its path and its type. *)
Definition shapeOf (t : FileTree) : string * NodeType := (pathOf t, typeOf t).

Definition shapeOfRef (r : ref) : string * NodeType :=
  match r with
  | RDir p => (p, dir)
  | RFile p => (p, file)
  end.

(** [inTree node t]: [node] is [t] or lies below it. *)
Inductive inTree (node : FileTree) : FileTree -> Prop :=
| inTree_here : inTree node node
| inTree_below (p : string) (ty : NodeType) (kids : list FileTree)
    (c : FileTree) :
    In c kids -> inTree node c -> inTree node (Node p ty (Some kids)).

(** [inForest node forest]: [node] occurs in [forest], at any depth. *)
Definition inForest (node : FileTree) (forest : list FileTree) : Prop :=
  exists t, In t forest /\ inTree node t.

(** No file node precedes a directory node. *)
Definition dirsBeforeFiles (kids : list FileTree) : Prop :=
  exists ds fs,
    kids = (ds ++ fs)%list
    /\ Forall (fun t => typeOf t = dir) ds
    /\ Forall (fun t => typeOf t = file) fs.

(** An input that interleaves directory and file entries, and the forest
    built from it without rules and without a depth bound. *)
Definition interleaved : list TreeItem :=
  [ {| path := "src"; type := "tree" |};
    {| path := "src/index.ts"; type := "blob" |};
    {| path := "src/lib"; type := "tree" |};
    {| path := "README.md"; type := "blob" |};
    {| path := "docs"; type := "tree" |} ].

Definition interleavedForest : list FileTree :=
  [ Node "src" dir
      (Some [Node "src/lib" dir (Some []); Node "src/index.ts" file None]);
    Node "docs" dir (Some []);
    Node "README.md" file None ].

(** [item.type === t] *)
Definition hasType (t : string) (i : TreeItem) : bool := String.eqb (type i) t.

(** The entries of the input by kind: the directory entries in input order,
    then the file entries in input order. *)
Definition dirsThenFiles (items : list TreeItem) : list (string * NodeType) :=
  (map (fun i => (path i, dir)) (List.filter (hasType "tree") items)
   ++ map (fun i => (path i, file)) (List.filter (hasType "blob") items))%list.

(** [r] was pushed on [root] or on the children of a directory node. *)
Definition attached (h : heap) (r : ref) : Prop :=
  In r (root h) \/ exists k cs, Obj.get (dirs h) k = Some cs /\ In r cs.

(** The section the assembler owes to one file: a code block when the
    content was fetched and filtered, the failure notice otherwise. *)
Definition sectionOf (fetch : string -> option string)
  (sourceIgnorePatterns : list string) (filePath : string) : string :=
  match fetch filePath with
  | Some content =>
      match filteredContent content sourceIgnorePatterns with
      | Returns body =>
          codeSection filePath (languageOf (getFileType filePath)) body
      | _ => failureSection filePath
      end
  | None => failureSection filePath
  end.

(** The text that precedes the per-file sections. *)
Definition preamble (repoInfoMarkdown contributorsMarkdown : string)
  (fileTree : list FileTree) : string :=
  repoInfoMarkdown ++ contributorsMarkdown
  ++ "## ファイル構造" ++ LF ++ LF
  ++ generateForestMarkdown fileTree ++ LF
  ++ "## ファイル内容" ++ LF ++ LF.

(** [flatFiles]: the file nodes of the forest in pre-order. *)
Definition filesOf (fileTree : list FileTree) : list FileTree :=
  List.filter isFile (flattenTree fileTree).

(** A file the assembler can render: its path is not ignored, and filtering
    its content stays within the modelled patterns. *)
Definition renderable (fetch : string -> option string)
  (ignorePatterns sourceIgnorePatterns : list string) (f : FileTree) : Prop :=
  shouldIgnore (pathOf f) ignorePatterns = Returns false
  /\ forall content,
      fetch (pathOf f) = Some content ->
      filteredContent content sourceIgnorePatterns <> Unmodelled.

(** Three files, and a collaborator that fails on the second. *)
Definition sample : list FileTree :=
  [ Node "src" dir
      (Some [Node "src/a.ts" file None; Node "src/b.ts" file None]);
    Node "README.md" file None ].

Definition sampleFetch (filePath : string) : option string :=
  if String.eqb filePath "src/b.ts" then None
  else Some ("let x = 1;" ++ LF ++ "// secret" ++ LF ++ "done").

(** The characters that the wildcard translation passes on to [new RegExp]
    with a meaning of their own. *)
Definition isMeta (c : ascii) : bool :=
  existsb (Ascii.eqb c) ["^"; "$"; "\"; "+"; "("; ")"; "["; "{"; "|"]%char.

(** Literal characters and the wildcards [.], [*] and [?] only. *)
Fixpoint metaFree (s : string) : bool :=
  match s with
  | EmptyString => true
  | String c s' => negb (isMeta c) && metaFree s'
  end.

(** [s] does not start with a character that would quantify what precedes. *)
Definition noQuantifierAhead (s : string) : bool :=
  match s with
  | String "*" _ => false
  | String "+" _ => false
  | String "?" _ => false
  | String "{" _ => false
  | _ => true
  end.

(** What one pattern character becomes. *)
Definition translated (c : ascii) : string :=
  if Ascii.eqb c "." then "\."
  else if Ascii.eqb c "*" then ".*"
  else if Ascii.eqb c "?" then "."
  else String c "".

(** A character that stands for itself in a rule: no metacharacter and no
    wildcard. *)
Definition isLiteral (c : ascii) : bool :=
  negb (isMeta c || existsb (Ascii.eqb c) ["."; "*"; "?"]%char).

Fixpoint literal (s : string) : bool :=
  match s with
  | EmptyString => true
  | String c s' => isLiteral c && literal s'
  end.

(** The regex that spells [s] and then asserts the end of the input. *)
Fixpoint spelled (s : string) : RegExp.regex :=
  match s with
  | EmptyString => RegExp.Cat RegExp.Eol RegExp.Eps
  | String c s' => RegExp.Cat (RegExp.Chr c) (spelled s')
  end.

Ltac each_ascii c := destruct c as [[] [] [] [] [] [] [] []].

(** ** Wildcards, read directly

    What a rule without regex metacharacters means: [*] stands for any run of
    characters other than line terminators, [?] for one such character, and
    every other character, the dot included, for itself; the whole candidate
    must be consumed. *)

Fixpoint glob (p s : string) : bool :=
  match p with
  | EmptyString => match s with EmptyString => true | _ => false end
  | String c p' =>
      if Ascii.eqb c "*" then
        (fix anyRun (s : string) : bool :=
           glob p' s ||
           match s with
           | String x s' => negb (RegExp.isLineTerminator x) && anyRun s'
           | EmptyString => false
           end) s
      else
        match s with
        | String x s' =>
            (if Ascii.eqb c "?" then negb (RegExp.isLineTerminator x)
             else Ascii.eqb x c)
            && glob p' s'
        | EmptyString => false
        end
  end.

(** The term that [new RegExp] reads from one translated character. *)
Definition termOf (c : ascii) : RegExp.regex :=
  if Ascii.eqb c "." then RegExp.Chr "."
  else if Ascii.eqb c "*" then RegExp.Star RegExp.Dot
  else if Ascii.eqb c "?" then RegExp.Dot
  else RegExp.Chr c.

(** The regex read from a translated pattern followed by [$]. *)
Fixpoint compiled (p : string) : RegExp.regex :=
  match p with
  | EmptyString => RegExp.Cat RegExp.Eol RegExp.Eps
  | String c p' => RegExp.Cat (termOf c) (compiled p')
  end.

(** The rounds of [Star r] in [RegExp.run], with their fuel. *)
Definition starRounds (r : RegExp.regex) (k : nat -> string -> bool)
  : nat -> nat -> string -> bool :=
  fix rounds (n : nat) (i : nat) (s : string) {struct n} : bool :=
    match n with
    | 0 => k i s
    | S n' =>
        RegExp.run r i s (fun j t => if (j =? i)%nat then false else rounds n' j t)
        || k i s
    end.

(** [k] tried at the current position and after each further character that
    is no line terminator. *)
Fixpoint anyRun (k : nat -> string -> bool) (i : nat) (s : string) : bool :=
  k i s ||
  match s with
  | String x s' => negb (RegExp.isLineTerminator x) && anyRun k (S i) s'
  | EmptyString => false
  end.

(** ** app/page.tsx and components/IgnorePatterns.tsx: reading rule text *)

(** [text.split('\n').filter(line => line.trim() !== '' &&
    !line.startsWith('#'))], as [loadIgnorePatterns] reads an ignore file. *)
Definition loadPatterns (text : string) : list string :=
  List.filter
    (fun line => negb (JS.trimIsEmpty line) && negb (JS.startsWith line "#"))
    (JS.split "010" text).

(** [newText.split('\n').filter(line => line.trim() !== '')], as the editor
    reads its text area. *)
Definition editedPatterns (newText : string) : list string :=
  List.filter (fun line => negb (JS.trimIsEmpty line)) (JS.split "010" newText).

(** ** The lines of the structure section *)

(** The line that [generateFileTreeMarkdown] writes for one node. *)
Definition lineOf (entry : string * FileTree) : string :=
  let (indent, item) := entry in
  indent
  ++ match typeOf item with dir => dirIcon | file => fileIcon end
  ++ " " ++ fileNameOf (pathOf item) ++ LF.

(** The nodes below [item] in pre-order, each with its indentation: two more
    spaces per level. *)
Fixpoint indented (indent : string) (item : FileTree)
  : list (string * FileTree) :=
  match item with
  | Node _ _ kids =>
      (indent, item)
      :: match kids with
         | Some l =>
             (fix each (l : list FileTree) : list (string * FileTree) :=
                match l with
                | [] => []
                | c :: l' => (indented (indent ++ "  ") c ++ each l')%list
                end) l
         | None => []
         end
  end.

(** ** api.ts: [parseRepoUrl] *)

(** [RepoInfo] as [parseRepoUrl] fills it; [branch] is left undefined. *)
Record RepoInfo : Type := { owner : string; repo : string }.

(** [s] without the prefix [p], when it has that prefix. *)
Fixpoint stripPrefix (p s : string) : option string :=
  match p with
  | EmptyString => Some s
  | String c p' =>
      match s with
      | String x s' => if Ascii.eqb x c then stripPrefix p' s' else None
      | EmptyString => None
      end
  end.

(** The longest run matched by [[^/]+] or by nothing, and what follows. *)
Fixpoint untilSlash (s : string) : string * string :=
  match s with
  | EmptyString => ("", "")
  | String c s' =>
      if Ascii.eqb c "/" then ("", s)
      else let (run, rest) := untilSlash s' in (String c run, rest)
  end.

(** A match of [github\.com\/([^/]+)\/([^/]+)] that starts where [s] starts:
    both groups are greedy, and the first one must stop at a slash. *)
Definition repoAt (s : string) : option (string * string) :=
  match stripPrefix "github.com/" s with
  | Some rest =>
      match untilSlash rest with
      | (String c o, String _ rest') =>
          match untilSlash rest' with
          | (String d r, _) => Some (String c o, String d r)
          | (EmptyString, _) => None
          end
      | _ => None
      end
  | None => None
  end.

(** [url.match(...)]: the leftmost match, with its two groups. *)
Fixpoint matchRepo (url : string) : option (string * string) :=
  match repoAt url with
  | Some groups => Some groups
  | None =>
      match url with
      | EmptyString => None
      | String _ url' => matchRepo url'
      end
  end.

(** [s.replace(pat, by)] with a string pattern: the first occurrence only. *)
Fixpoint replaceFirst (pat by_ s : string) : string :=
  match stripPrefix pat s with
  | Some rest => by_ ++ rest
  | None =>
      match s with
      | EmptyString => ""
      | String c s' => String c (replaceFirst pat by_ s')
      end
  end.

Definition parseRepoUrl (url : string) : option RepoInfo :=
  match matchRepo url with
  | Some (o, r) => Some {| owner := o; repo := replaceFirst ".git" "" r |}
  | None => None
  end.

(** ** FileTree.tsx: [filterTree] *)

(** [hay.includes(needle)]. *)
Fixpoint includes (needle hay : string) : bool :=
  match stripPrefix needle hay with
  | Some _ => true
  | None =>
      match hay with
      | EmptyString => false
      | String _ hay' => includes needle hay'
      end
  end.

(** [arr.map(f).filter(x => x !== null)]. *)
Definition keepSome {A B : Type} (f : A -> option B) : list A -> list B :=
  fix go (l : list A) : list B :=
    match l with
    | [] => []
    | x :: l' =>
        match f x with
        | Some y => y :: go l'
        | None => go l'
        end
    end.

(** The callback of [filterTree] for a term that is not empty. *)
Fixpoint filterNode (term : string) (item : FileTree) : option FileTree :=
  match item with
  | Node p ty kids =>
      if includes (JS.toLowerCase term) (JS.toLowerCase p) then Some item
      else
        match kids with
        | Some ((_ :: _) as children) =>
            match keepSome (filterNode term) children with
            | [] => None
            | filteredChildren => Some (Node p ty (Some filteredChildren))
            end
        | _ => None
        end
  end.

Definition filterTree (items : list FileTree) (term : string) : list FileTree :=
  if String.eqb term "" then items else keepSome (filterNode term) items.

(** The test [filterTree] applies to a node. *)
Definition found (term : string) (node : FileTree) : bool :=
  includes (JS.toLowerCase term) (JS.toLowerCase (pathOf node)).

(** A rule that only a path ending in a slash could match. *)
Definition directoryRule (r : string) : bool :=
  metaFree r && JS.endsWith r "/" && negb (JS.startsWith r "!").

(** * Properties *)

(** ** Paths and their segments *)

Lemma split_not_nil (sep : ascii) (s : string) : JS.split sep s <> [].
Proof.
  destruct s as [|c s]; simpl; [discriminate|].
  destruct (Ascii.eqb c sep); [discriminate|].
  destruct (JS.split sep s); discriminate.
Qed.

Lemma split_without_sep (sep : ascii) (s : string) :
  RegExp.mentions sep s = false -> JS.split sep s = [s].
Proof.
  induction s as [|c s IH]; simpl; intros H; [reflexivity|].
  apply orb_false_iff in H as [Hc Hs].
  rewrite Hc, (IH Hs). reflexivity.
Qed.

Lemma split_app_sep (sep : ascii) (x y : string) :
  JS.split sep (x ++ String sep y) = (JS.split sep x ++ JS.split sep y)%list.
Proof.
  induction x as [|c x IH]; simpl.
  - rewrite Ascii.eqb_refl. reflexivity.
  - rewrite IH. destruct (Ascii.eqb c sep); [reflexivity|].
    pose proof (split_not_nil sep x) as Hx.
    destruct (JS.split sep x); [contradiction|reflexivity].
Qed.

Lemma join_split (sep : ascii) (s : string) :
  JS.join (String sep "") (JS.split sep s) = s.
Proof.
  induction s as [|c s IH]; simpl; [reflexivity|].
  pose proof (split_not_nil sep s) as Hs.
  destruct (Ascii.eqb c sep) eqn:E.
  - apply Ascii.eqb_eq in E. subst c.
    destruct (JS.split sep s) as [|w ws]; [contradiction|].
    simpl in *. rewrite IH. reflexivity.
  - destruct (JS.split sep s) as [|w ws]; [contradiction|].
    destruct ws as [|w' ws]; simpl in *; rewrite <- IH; reflexivity.
Qed.

Lemma append_assoc (a b c : string) : (a ++ b) ++ c = a ++ (b ++ c).
Proof. induction a; simpl; congruence. Qed.

Lemma join_removelast (sep : string) (l : list string) (a b : string) :
  JS.join sep (a :: b :: l)
  = JS.join sep (removelast (a :: b :: l)) ++ sep ++ last (a :: b :: l) "".
Proof.
  revert a b. induction l as [|c l IH]; intros a b.
  - reflexivity.
  - specialize (IH b c).
    change (JS.join sep (a :: b :: c :: l))
      with (a ++ sep ++ JS.join sep (b :: c :: l)).
    rewrite IH.
    change (removelast (a :: b :: c :: l))
      with (a :: removelast (b :: c :: l)).
    change (last (a :: b :: c :: l) "") with (last (b :: c :: l) "").
    destruct (removelast (b :: c :: l)) as [|r rs] eqn:E.
    + destruct l; discriminate.
    + change (JS.join sep (a :: r :: rs)) with (a ++ sep ++ JS.join sep (r :: rs)).
      rewrite !append_assoc. reflexivity.
Qed.

(** A path is its parent, a slash and its last segment, unless it has a
    single segment, whose parent is empty. *)
Lemma path_decomposition (p : string) :
  (parentPath p = "" /\ JS.split "/" p = [p])
  \/ p = parentPath p ++ "/" ++ fileNameOf p.
Proof.
  unfold parentPath, fileNameOf, JS.pop_or_empty, JS.popped.
  pose proof (join_split "/" p) as J.
  destruct (JS.split "/" p) as [|a [|b l]] eqn:E.
  - exfalso. exact (split_not_nil _ _ E).
  - left. simpl in J. subst a. split; reflexivity.
  - right. rewrite <- J at 1. apply join_removelast.
Qed.

Lemma append_length (a b : string) :
  String.length (a ++ b) = String.length a + String.length b.
Proof. induction a; simpl; congruence. Qed.

Lemma parent_shorter (p : string) :
  parentPath p <> "" -> String.length (parentPath p) < String.length p.
Proof.
  intros H. destruct (path_decomposition p) as [[E _]|E]; [contradiction|].
  rewrite E at 2. rewrite !append_length. simpl. lia.
Qed.

Lemma split_segments_without_sep (sep : ascii) (s : string) :
  Forall (fun l => RegExp.mentions sep l = false) (JS.split sep s).
Proof.
  induction s as [|c s IH]; simpl.
  - repeat constructor.
  - destruct (Ascii.eqb c sep) eqn:E.
    + constructor; [reflexivity|exact IH].
    + pose proof (split_not_nil sep s) as Hs.
      destruct (JS.split sep s) as [|w ws]; [contradiction|].
      inversion IH; subst. constructor; [|assumption].
      simpl. rewrite E. assumption.
Qed.

Lemma split_join (sep : ascii) (lines : list string) :
  lines <> [] ->
  Forall (fun l => RegExp.mentions sep l = false) lines ->
  JS.split sep (JS.join (String sep "") lines) = lines.
Proof.
  induction lines as [|l lines IH]; intros Hne Hall; [contradiction|].
  inversion Hall as [|? ? Hl Hrest]; subst.
  destruct lines as [|l' lines].
  - simpl. apply split_without_sep, Hl.
  - change (JS.join (String sep "") (l :: l' :: lines))
      with (l ++ String sep (JS.join (String sep "") (l' :: lines))).
    rewrite split_app_sep, IH by (discriminate || assumption).
    rewrite (split_without_sep _ _ Hl). reflexivity.
Qed.

Lemma last_app_right {A : Type} (l1 l2 : list A) (d : A) :
  l2 <> [] -> last (l1 ++ l2) d = last l2 d.
Proof.
  intros H. induction l1 as [|a l1 IH]; [reflexivity|].
  simpl. rewrite IH. destruct (l1 ++ l2)%list eqn:E; [|reflexivity].
  apply app_eq_nil in E as [_ E]. contradiction.
Qed.

Lemma basename_app (x y : string) :
  fileNameOf (x ++ "/" ++ y) = fileNameOf y.
Proof.
  unfold fileNameOf, JS.pop_or_empty. simpl. rewrite split_app_sep.
  apply last_app_right, split_not_nil.
Qed.

Lemma endsWith_spec (s suf : string) :
  JS.endsWith s suf = true <-> exists x, s = x ++ suf.
Proof.
  split.
  - induction s as [|c s IH]; cbn [JS.endsWith]; intros H.
    + apply orb_true_iff in H as [H|H]; [|discriminate].
      apply String.eqb_eq in H. exists "". exact H.
    + apply orb_true_iff in H as [H|H].
      * apply String.eqb_eq in H. exists "". exact H.
      * destruct (IH H) as [x Hx]. exists (String c x). simpl. congruence.
  - intros [x Hx]. subst s. induction x as [|c x IH].
    + change ("" ++ suf) with suf.
      destruct suf; cbn [JS.endsWith]; rewrite String.eqb_refl; reflexivity.
    + change (String c x ++ suf) with (String c (x ++ suf)).
      cbn [JS.endsWith]. rewrite IH. apply orb_true_r.
Qed.

(** The test that opens [shouldIgnore] holds exactly for the paths whose last
    segment is the lock file's name. *)
Lemma lock_test_basename (filePath : string) :
  String.eqb filePath lockFile || JS.endsWith filePath ("/" ++ lockFile)
  = String.eqb (fileNameOf filePath) lockFile.
Proof.
  apply eq_true_iff_eq. rewrite orb_true_iff, !String.eqb_eq, endsWith_spec.
  split.
  - intros [H|[x H]]; subst filePath.
    + reflexivity.
    + change (x ++ "/" ++ lockFile) with (x ++ "/" ++ lockFile).
      rewrite (basename_app x lockFile). reflexivity.
  - intros H. destruct (path_decomposition filePath) as [[_ E]|E].
    + left. unfold fileNameOf in H. rewrite E in H. exact H.
    + right. exists (parentPath filePath). rewrite H in E. exact E.
Qed.

(** ** Patterns without regex metacharacters *)

Lemma regexPatternOf_cons (c : ascii) (s : string) :
  regexPatternOf (String c s) = translated c ++ regexPatternOf s.
Proof.
  unfold regexPatternOf, translated. cbn [JS.replaceAll].
  destruct (Ascii.eqb c ".") eqn:E1.
  - reflexivity.
  - cbn [JS.replaceAll]. destruct (Ascii.eqb c "*") eqn:E2.
    + reflexivity.
    + cbn [JS.replaceAll]. destruct (Ascii.eqb c "?"); reflexivity.
Qed.

Lemma regexPatternOf_length (s : string) :
  String.length s <= String.length (regexPatternOf s).
Proof.
  induction s as [|c s IH]; [apply Nat.le_refl|].
  rewrite regexPatternOf_cons, append_length. unfold translated.
  destruct (Ascii.eqb c "."); [simpl; lia|].
  destruct (Ascii.eqb c "*"); [simpl; lia|].
  destruct (Ascii.eqb c "?"); simpl; lia.
Qed.

Lemma quantified_plain (r : RegExp.regex) (s : string) :
  noQuantifierAhead s = true -> RegExp.quantified r s = Returns (r, s).
Proof.
  destruct s as [|c s]; [reflexivity|].
  each_ascii c; intros H; try discriminate H; reflexivity.
Qed.

Lemma asserted_plain (r : RegExp.regex) (s : string) :
  noQuantifierAhead s = true -> RegExp.asserted r s = Returns (r, s).
Proof.
  destruct s as [|c s]; [reflexivity|].
  each_ascii c; intros H; try discriminate H; reflexivity.
Qed.

Lemma translated_head (c : ascii) (s : string) :
  isMeta c = false -> noQuantifierAhead (translated c ++ s) = true.
Proof. each_ascii c; intros H; try discriminate H; reflexivity. Qed.

(** One translated character is one term. *)
Lemma parseTerm_translated (n : nat) (c : ascii) (s : string) :
  isMeta c = false -> noQuantifierAhead s = true ->
  exists t, RegExp.parseTerm (S n) (translated c ++ s) = Returns (t, s).
Proof.
  intros Hc Hs.
  each_ascii c; try discriminate Hc;
    cbn [translated Ascii.eqb Bool.eqb append RegExp.parseTerm];
    first [ rewrite (quantified_plain _ _ Hs); eexists; reflexivity
          | eexists; reflexivity ].
Qed.

Lemma parseAlternative_translated (n : nat) (c : ascii) (s : string) :
  isMeta c = false ->
  RegExp.parseAlternative (S n) (translated c ++ s)
  = ('(t, s1) <- RegExp.parseTerm n (translated c ++ s) ;;
     '(a, s2) <- RegExp.parseAlternative n s1 ;;
     Returns (RegExp.Cat t a, s2)).
Proof. each_ascii c; intros Hc; try discriminate Hc; reflexivity. Qed.

Lemma parseAlternative_metaFree (pattern : string) :
  metaFree pattern = true ->
  noQuantifierAhead (regexPatternOf pattern ++ "$") = true
  /\ forall n,
      2 * String.length pattern + 2 <= n ->
      exists a,
        RegExp.parseAlternative n (regexPatternOf pattern ++ "$")
        = Returns (a, "").
Proof.
  induction pattern as [|c pattern IH]; intros H.
  - split; [reflexivity|]. intros n Hn.
    destruct n as [|[|n]]; [lia|lia|]. eexists. reflexivity.
  - cbn [metaFree] in H. apply andb_true_iff in H as [Hc H].
    apply negb_true_iff in Hc. destruct (IH H) as [Hq Hparse]. clear IH.
    rewrite regexPatternOf_cons, append_assoc. split.
    + apply translated_head, Hc.
    + intros n Hn. cbn [String.length] in Hn.
      destruct n as [|[|n]]; [lia|lia|].
      rewrite (parseAlternative_translated _ _ _ Hc).
      destruct (parseTerm_translated n c _ Hc Hq) as [t ->].
      destruct (Hparse (S n)) as [a Ha]; [lia|].
      cbn [bind]. rewrite Ha. eexists. reflexivity.
Qed.

Lemma parseAlternative_caret (n : nat) (s : string) :
  noQuantifierAhead s = true ->
  RegExp.parseAlternative (S (S n)) (String "^" s)
  = ('(a, s2) <- RegExp.parseAlternative (S n) s ;;
     Returns (RegExp.Cat RegExp.Bol a, s2)).
Proof. intros H. simpl. rewrite (asserted_plain _ _ H). reflexivity. Qed.

Lemma parseDisjunction_whole (n : nat) (s : string) (a : RegExp.regex) :
  RegExp.parseAlternative n s = Returns (a, "") ->
  RegExp.parseDisjunction (S n) s = Returns (a, "").
Proof. intros H. simpl. rewrite H. reflexivity. Qed.

Lemma create_metaFree (pattern : string) :
  metaFree pattern = true ->
  exists r, RegExp.create ("^" ++ regexPatternOf pattern ++ "$") = Returns r.
Proof.
  intros H. destruct (parseAlternative_metaFree _ H) as [Hq Hparse].
  unfold RegExp.create.
  set (src := "^" ++ regexPatternOf pattern ++ "$").
  assert (Hlen : String.length pattern + 2 <= String.length src).
  { unfold src. cbn [append String.length]. rewrite append_length.
    pose proof (regexPatternOf_length pattern). simpl. lia. }
  set (m := 3 * String.length src).
  destruct (Hparse (S m)) as [a Ha]; [unfold m; lia|].
  replace (m + 3) with (S (S (S m))) by lia.
  rewrite (parseDisjunction_whole (S (S m)) src (RegExp.Cat RegExp.Bol a)).
  - cbn [bind]. eauto.
  - unfold src. change ("^" ++ regexPatternOf pattern ++ "$")
      with (String "^" (regexPatternOf pattern ++ "$")).
    rewrite (parseAlternative_caret _ _ Hq), Ha. reflexivity.
Qed.

(** On patterns made of literal characters and the wildcards [.], [*] and
    [?], matching is total. *)
Lemma matchPattern_total_without_meta (pattern filePath : string) :
  metaFree pattern = true ->
  exists b, matchPattern pattern filePath = Returns b.
Proof.
  intros H. unfold matchPattern.
  destruct (String.eqb pattern ""); [eauto|].
  destruct (String.eqb pattern filePath); [eauto|].
  destruct (String.eqb pattern (fileNameOf filePath)); [eauto|].
  destruct (create_metaFree _ H) as [r ->]. cbn [bind]. eauto.
Qed.

(** *** Literal patterns *)

Lemma literal_noQuantifierAhead (s : string) :
  literal s = true -> noQuantifierAhead (s ++ "$") = true.
Proof.
  destruct s as [|c s]; [reflexivity|]. cbn [literal append].
  intros H. apply andb_true_iff in H as [H _].
  each_ascii c; try discriminate H; reflexivity.
Qed.

Lemma parseAlternative_literal_char (n : nat) (c : ascii) (s : string) :
  isLiteral c = true -> noQuantifierAhead s = true ->
  RegExp.parseAlternative (S (S n)) (String c s)
  = ('(a, s2) <- RegExp.parseAlternative (S n) s ;;
     Returns (RegExp.Cat (RegExp.Chr c) a, s2)).
Proof.
  intros Hc Hs. each_ascii c; try discriminate Hc;
    simpl; rewrite (quantified_plain _ _ Hs); reflexivity.
Qed.

Lemma parseAlternative_literal (s : string) :
  literal s = true ->
  forall n,
    2 * String.length s + 2 <= n ->
    RegExp.parseAlternative n (s ++ "$") = Returns (spelled s, "").
Proof.
  induction s as [|c s IH]; intros H n Hn.
  - destruct n as [|[|n]]; [lia|lia|]. reflexivity.
  - cbn [literal] in H. apply andb_true_iff in H as [Hc H].
    cbn [String.length] in Hn. destruct n as [|[|n]]; [lia|lia|].
    cbn [append].
    rewrite (parseAlternative_literal_char _ _ _ Hc
               (literal_noQuantifierAhead _ H)).
    rewrite (IH H (S n)) by lia. reflexivity.
Qed.

Lemma regexPatternOf_literal (s : string) :
  literal s = true -> regexPatternOf s = s.
Proof.
  induction s as [|c s IH]; intros H; [reflexivity|].
  cbn [literal] in H. apply andb_true_iff in H as [Hc H].
  rewrite regexPatternOf_cons, (IH H).
  each_ascii c; try discriminate Hc; reflexivity.
Qed.

Lemma create_literal (s : string) :
  literal s = true ->
  RegExp.create ("^" ++ s ++ "$")
  = Returns (RegExp.Cat RegExp.Bol (spelled s)).
Proof.
  intros H. unfold RegExp.create.
  set (src := "^" ++ s ++ "$").
  assert (Hlen : String.length s + 2 <= String.length src).
  { unfold src. cbn [append String.length]. rewrite append_length. simpl. lia. }
  set (m := 3 * String.length src).
  replace (m + 3) with (S (S (S m))) by lia.
  rewrite (parseDisjunction_whole (S (S m)) src
             (RegExp.Cat RegExp.Bol (spelled s))); [reflexivity|].
  unfold src. change ("^" ++ s ++ "$") with (String "^" (s ++ "$")).
  rewrite (parseAlternative_caret _ _ (literal_noQuantifierAhead _ H)).
  rewrite (parseAlternative_literal _ H (S m)) by (unfold m; lia).
  reflexivity.
Qed.

Lemma run_spelled (p : string) :
  forall i s, RegExp.run (spelled p) i s (fun _ _ => true) = String.eqb s p.
Proof.
  induction p as [|c p IH]; intros i s.
  - destruct s; reflexivity.
  - destruct s as [|x s]; [reflexivity|]. cbn [spelled RegExp.run String.eqb].
    destruct (Ascii.eqb x c); [apply IH|reflexivity].
Qed.

Lemma testFrom_anchored (r : RegExp.regex) (s : string) :
  forall i, RegExp.testFrom (RegExp.Cat RegExp.Bol r) (S i) s = false.
Proof. induction s as [|x s IH]; intros i; simpl; [reflexivity|apply IH]. Qed.

Lemma test_spelled (p s : string) :
  RegExp.test (RegExp.Cat RegExp.Bol (spelled p)) s = String.eqb s p.
Proof.
  unfold RegExp.test. destruct s as [|x s].
  - cbn [RegExp.testFrom RegExp.run Nat.eqb]. rewrite run_spelled.
    apply orb_false_r.
  - cbn [RegExp.testFrom]. rewrite testFrom_anchored.
    cbn [RegExp.run Nat.eqb]. rewrite run_spelled. apply orb_false_r.
Qed.

(** A literal pattern matches the candidates it equals and those whose last
    segment it equals, and no other. *)
Lemma matchPattern_literal (pattern filePath : string) :
  literal pattern = true -> pattern <> "" ->
  matchPattern pattern filePath
  = Returns (String.eqb pattern filePath
             || String.eqb pattern (fileNameOf filePath)).
Proof.
  intros H Hne. unfold matchPattern.
  apply String.eqb_neq in Hne. rewrite Hne.
  destruct (String.eqb pattern filePath) eqn:E1; [reflexivity|].
  destruct (String.eqb pattern (fileNameOf filePath)) eqn:E2; [reflexivity|].
  rewrite (regexPatternOf_literal _ H), (create_literal _ H). cbn [bind].
  rewrite !test_spelled.
  rewrite (String.eqb_sym filePath), (String.eqb_sym (fileNameOf filePath)).
  rewrite E1, E2. reflexivity.
Qed.


(** ** The ignore decision *)

Lemma some_fires {A : Type} (f : A -> outcome bool) (l1 l2 : list A) (x : A) :
  Forall (fun y => f y = Returns false) l1 ->
  f x = Returns true ->
  JS.some f (l1 ++ x :: l2) = Returns true.
Proof.
  induction 1 as [|y l1 Hy _ IH]; intros Hx; simpl.
  - rewrite Hx. reflexivity.
  - rewrite Hy. simpl. exact (IH Hx).
Qed.

Lemma some_false {A : Type} (f : A -> outcome bool) (l : list A) :
  JS.some f l = Returns false -> Forall (fun y => f y = Returns false) l.
Proof.
  induction l as [|x l IH]; simpl; intros H; [constructor|].
  destruct (f x) as [[|]| |] eqn:E; simpl in H; try discriminate.
  constructor; [exact E|exact (IH H)].
Qed.

Lemma some_true {A : Type} (f : A -> outcome bool) (l : list A) :
  JS.some f l = Returns true ->
  exists l1 x l2, l = (l1 ++ x :: l2)%list
    /\ Forall (fun y => f y = Returns false) l1 /\ f x = Returns true.
Proof.
  induction l as [|x l IH]; simpl; intros H; [discriminate|].
  destruct (f x) as [[|]| |] eqn:E; simpl in H; try discriminate.
  - exists [], x, l. repeat split; [constructor|exact E].
  - destruct (IH H) as (l1 & y & l2 & -> & Hl1 & Hy).
    exists (x :: l1), y, l2. repeat split; [constructor; assumption|exact Hy].
Qed.

Lemma shouldIgnore_rules (filePath : string) (rules : list string) :
  String.eqb (fileNameOf filePath) lockFile = false ->
  shouldIgnore filePath rules = JS.some (ruleFires filePath) rules.
Proof.
  intros H. unfold shouldIgnore. rewrite lock_test_basename, H.
  destruct rules; reflexivity.
Qed.

(** What [shouldIgnore] hands to [some] for a rule that starts with [!]. *)
Lemma ruleFires_negated (filePath pattern : string) :
  ruleFires filePath (String "!" pattern)
  = (b <- matchPattern pattern filePath ;; Returns (negb b)).
Proof. unfold ruleFires. destruct pattern; reflexivity. Qed.

(** C1, as the code has it: the verdict is a disjunction over the rules,
    taken in order and settled by the first rule that fires; whatever
    follows that rule is not consulted, so no later rule, negated or not,
    takes the verdict back.  A candidate is not ignored only if no rule
    fires.  With the rules [*.log] and [!keep.log] both [keep.log] and
    [other.log] are ignored. *)
Theorem shouldIgnore_first_rule_that_fires :
  (forall filePath before rule after,
      Forall (fun r => ruleFires filePath r = Returns false) before ->
      ruleFires filePath rule = Returns true ->
      shouldIgnore filePath (before ++ rule :: after) = Returns true)
  /\ (forall filePath rules,
      shouldIgnore filePath rules = Returns false ->
      Forall (fun r => ruleFires filePath r = Returns false) rules)
  /\ (forall filePath rules,
      shouldIgnore filePath rules = Returns true ->
      fileNameOf filePath = lockFile
      \/ exists before rule after,
           rules = (before ++ rule :: after)%list
           /\ Forall (fun r => ruleFires filePath r = Returns false) before
           /\ ruleFires filePath rule = Returns true)
  /\ ruleFires "keep.log" "*.log" = Returns true
  /\ shouldIgnore "keep.log" ["*.log"; "!keep.log"] = Returns true
  /\ shouldIgnore "other.log" ["*.log"; "!keep.log"] = Returns true.
Proof.
  split; [|split; [|split; [|split; [|split]]]].
  - intros filePath before rule after Hb Hr.
    destruct (String.eqb (fileNameOf filePath) lockFile) eqn:E.
    + unfold shouldIgnore. rewrite lock_test_basename, E. reflexivity.
    + rewrite (shouldIgnore_rules _ _ E). apply some_fires; assumption.
  - intros filePath rules H.
    destruct (String.eqb (fileNameOf filePath) lockFile) eqn:E.
    + unfold shouldIgnore in H. rewrite lock_test_basename, E in H.
      discriminate.
    + rewrite (shouldIgnore_rules _ _ E) in H. apply some_false, H.
  - intros filePath rules H.
    destruct (String.eqb (fileNameOf filePath) lockFile) eqn:E.
    + left. apply String.eqb_eq, E.
    + right. rewrite (shouldIgnore_rules _ _ E) in H. apply some_true, H.
  - vm_compute. reflexivity.
  - vm_compute. reflexivity.
  - vm_compute. reflexivity.
Qed.

Lemma shouldIgnore_first_rule_witness :
  shouldIgnore "keep.log" (["src"] ++ "*.log" :: ["!keep.log"]) = Returns true.
Proof.
  apply (proj1 shouldIgnore_first_rule_that_fires).
  - repeat constructor.
  - vm_compute. reflexivity.
Defined.

(** C1 as stated fails: with the rules [*.log] and [!keep.log] the verdict
    for [keep.log] is "ignored", the negated rule notwithstanding. *)
Lemma negation_does_not_override :
  shouldIgnore "keep.log" ["*.log"; "!keep.log"] = Returns true
  /\ shouldIgnore "keep.log" ["*.log"; "!keep.log"] <> Returns false.
Proof. split; vm_compute; [reflexivity|discriminate]. Qed.

(** C2: a pattern with an unclosed bracket makes [new RegExp] throw, unless
    the pattern equals the candidate or its last segment; so do [(] and [+],
    and the exception leaves [shouldIgnore].  Only the patterns without a
    regex metacharacter are sure to be matched: on those [matchPattern]
    returns a boolean. *)
Theorem matchPattern_throws_on_bracket :
  (forall filePath,
      filePath <> "[" -> fileNameOf filePath <> "[" ->
      matchPattern "[" filePath = Throws SyntaxError)
  /\ matchPattern "[" "a" = Throws SyntaxError
  /\ matchPattern "(" "a" = Throws SyntaxError
  /\ matchPattern "+" "a" = Throws SyntaxError
  /\ shouldIgnore "a" ["["] = Throws SyntaxError
  /\ (forall pattern filePath,
      metaFree pattern = true ->
      exists b, matchPattern pattern filePath = Returns b).
Proof.
  split; [|repeat split; try (vm_compute; reflexivity);
           exact matchPattern_total_without_meta].
  intros filePath H1 H2. unfold matchPattern.
  change (String.eqb "[" "") with false. cbv iota.
  apply not_eq_sym, String.eqb_neq in H1. rewrite H1.
  apply not_eq_sym, String.eqb_neq in H2. rewrite H2.
  reflexivity.
Qed.

Lemma matchPattern_throws_witness :
  matchPattern "[" "src/a.ts" = Throws SyntaxError.
Proof.
  apply (proj1 matchPattern_throws_on_bracket).
  - discriminate.
  - vm_compute. discriminate.
Defined.

(** C4: whatever the rule list, a candidate whose last segment is
    [package-lock.json] is ignored, and the rules are not evaluated for it;
    with an empty rule list these are the only candidates ignored. *)
Theorem lock_file_always_ignored :
  (forall candidate rules,
      fileNameOf candidate = lockFile ->
      shouldIgnore candidate rules = Returns true)
  /\ (forall candidate,
      fileNameOf candidate <> lockFile ->
      shouldIgnore candidate [] = Returns false)
  /\ shouldIgnore "package-lock.json" [] = Returns true
  /\ (forall rules, shouldIgnore "a/package-lock.json" rules = Returns true)
  /\ shouldIgnore "package-lock.json" ["!package-lock.json"] = Returns true.
Proof.
  assert (L : forall candidate rules,
             fileNameOf candidate = lockFile ->
             shouldIgnore candidate rules = Returns true).
  { intros candidate rules H. unfold shouldIgnore.
    rewrite lock_test_basename. apply String.eqb_eq in H. rewrite H.
    reflexivity. }
  split; [exact L|]. split; [|split; [|split]].
  - intros candidate H. unfold shouldIgnore.
    rewrite lock_test_basename. apply String.eqb_neq in H. rewrite H.
    reflexivity.
  - reflexivity.
  - intros rules. apply L. reflexivity.
  - reflexivity.
Qed.

Lemma lock_file_witness :
  shouldIgnore "web/package-lock.json" ["!package-lock.json"; "["]
  = Returns true.
Proof.
  apply (proj1 lock_file_always_ignored). vm_compute. reflexivity.
Defined.

(** C8: a non-empty pattern equal to the candidate's last segment matches,
    so a bare file name matches below any directory; a pattern of literal
    characters matches exactly the candidates it equals or whose last segment
    it equals; the rule [LICENSE] ignores [LICENSE] and [docs/LICENSE] and
    leaves [LICENSE2] alone. *)
Theorem bare_name_matches_basename :
  (forall pattern candidate,
      pattern <> "" -> fileNameOf candidate = pattern ->
      matchPattern pattern candidate = Returns true)
  /\ (forall pattern directory,
      pattern <> "" -> RegExp.mentions "/" pattern = false ->
      matchPattern pattern (directory ++ "/" ++ pattern) = Returns true)
  /\ (forall pattern candidate,
      literal pattern = true -> pattern <> "" ->
      matchPattern pattern candidate
      = Returns (String.eqb pattern candidate
                 || String.eqb pattern (fileNameOf candidate)))
  /\ shouldIgnore "LICENSE" ["LICENSE"] = Returns true
  /\ shouldIgnore "docs/LICENSE" ["LICENSE"] = Returns true
  /\ shouldIgnore "LICENSE2" ["LICENSE"] = Returns false.
Proof.
  assert (L : forall pattern candidate,
             pattern <> "" -> fileNameOf candidate = pattern ->
             matchPattern pattern candidate = Returns true).
  { intros pattern candidate H1 H2. unfold matchPattern.
    apply String.eqb_neq in H1. rewrite H1.
    destruct (String.eqb pattern candidate); [reflexivity|].
    rewrite H2, String.eqb_refl. reflexivity. }
  split; [exact L|]. split; [|split; [exact matchPattern_literal|]].
  - intros pattern directory H1 H2. apply L; [exact H1|].
    rewrite basename_app. unfold fileNameOf.
    rewrite (split_without_sep _ _ H2). reflexivity.
  - repeat split; vm_compute; reflexivity.
Qed.

Lemma bare_name_witness :
  matchPattern "Makefile" ("tools/build" ++ "/" ++ "Makefile") = Returns true.
Proof.
  apply (proj1 (proj2 bare_name_matches_basename)).
  - discriminate.
  - reflexivity.
Defined.

(** ** Subsequences *)

Lemma subseq_refl {A : Type} (l : list A) : subseq l l.
Proof. induction l; auto. Qed.

Lemma subseq_nil_l {A : Type} (l : list A) : subseq [] l.
Proof. induction l; auto. Qed.

Lemma subseq_trans {A : Type} (l1 l2 l3 : list A) :
  subseq l1 l2 -> subseq l2 l3 -> subseq l1 l3.
Proof.
  intros H12 H23. revert l1 H12.
  induction H23 as [|x l2 l3 _ IH|x l2 l3 _ IH]; intros l1 H12.
  - exact H12.
  - auto.
  - inversion H12; subst; auto.
Qed.

Lemma subseq_app {A : Type} (l1 l2 k1 k2 : list A) :
  subseq l1 k1 -> subseq l2 k2 -> subseq (l1 ++ l2) (k1 ++ k2).
Proof. induction 1; simpl; auto. Qed.

Lemma subseq_map {A B : Type} (f : A -> B) (l1 l2 : list A) :
  subseq l1 l2 -> subseq (map f l1) (map f l2).
Proof. induction 1; simpl; auto. Qed.

Lemma subseq_filter {A : Type} (f : A -> bool) (l : list A) :
  subseq (List.filter f l) l.
Proof. induction l as [|x l IH]; simpl; [auto|destruct (f x); auto]. Qed.

Lemma subseq_In {A : Type} (l1 l2 : list A) (x : A) :
  subseq l1 l2 -> In x l1 -> In x l2.
Proof. induction 1; simpl; intuition. Qed.

Lemma filter_returns {A : Type} (f : A -> outcome bool) (l r : list A) :
  JS.filter f l = Returns r ->
  r = List.filter (holds f) l
  /\ Forall (fun x => exists b, f x = Returns b) l.
Proof.
  revert r. induction l as [|x l IH]; simpl; intros r H.
  - inversion H. split; [reflexivity|constructor].
  - unfold holds at 1. destruct (f x) as [b| |] eqn:E; simpl in H; try discriminate.
    destruct (JS.filter f l) as [r'| |]; simpl in H; try discriminate.
    destruct (IH r' eq_refl) as [-> Hall]. inversion H.
    split; [destruct b; reflexivity|].
    constructor; [exists b; exact E|exact Hall].
Qed.

Lemma filter_returns_again {A : Type} (f : A -> outcome bool) (l r : list A) :
  JS.filter f l = Returns r -> JS.filter f r = Returns r.
Proof.
  intros H. apply filter_returns in H as [-> _].
  induction l as [|x l IH]; simpl; [reflexivity|].
  destruct (holds f x) eqn:Hx; [|exact IH].
  unfold holds in Hx. destruct (f x) as [[|]| |] eqn:E; try discriminate.
  simpl. rewrite E. simpl. rewrite IH. reflexivity.
Qed.

(** ** The dictionary *)

Lemma get_set_same {V : Type} (m : Obj.t V) (k : string) (v : V) :
  Obj.get (Obj.set m k v) k = Some v.
Proof.
  induction m as [|[k' v'] m IH]; simpl.
  - rewrite String.eqb_refl. reflexivity.
  - destruct (String.eqb k' k) eqn:E; simpl.
    + rewrite String.eqb_refl. reflexivity.
    + rewrite E. exact IH.
Qed.

Lemma get_set_other {V : Type} (m : Obj.t V) (k k' : string) (v : V) :
  k' <> k -> Obj.get (Obj.set m k v) k' = Obj.get m k'.
Proof.
  intros H. induction m as [|[k0 v0] m IH]; simpl.
  - apply not_eq_sym, String.eqb_neq in H. rewrite H. reflexivity.
  - destruct (String.eqb k0 k) eqn:E; simpl.
    + apply String.eqb_eq in E. subst k0.
      apply not_eq_sym, String.eqb_neq in H. rewrite H. reflexivity.
    + destruct (String.eqb k0 k'); [reflexivity|exact IH].
Qed.

Lemma get_In {V : Type} (m : Obj.t V) (k : string) :
  In k (map fst m) <-> exists v, Obj.get m k = Some v.
Proof.
  induction m as [|[k' v'] m IH]; simpl.
  - split; [contradiction|intros [v H]; discriminate].
  - destruct (String.eqb k' k) eqn:E.
    + apply String.eqb_eq in E. split; [eauto|auto].
    + apply String.eqb_neq in E. rewrite <- IH. intuition.
Qed.

Lemma keys_set_present {V : Type} (m : Obj.t V) (k : string) (v : V) :
  In k (map fst m) -> map fst (Obj.set m k v) = map fst m.
Proof.
  induction m as [|[k' v'] m IH]; simpl; [contradiction|].
  intros H. destruct (String.eqb k' k) eqn:E; simpl.
  - apply String.eqb_eq in E. congruence.
  - apply String.eqb_neq in E. f_equal. apply IH. intuition.
Qed.

Lemma keys_set_absent {V : Type} (m : Obj.t V) (k : string) (v : V) :
  ~ In k (map fst m) -> map fst (Obj.set m k v) = (map fst m ++ [k])%list.
Proof.
  induction m as [|[k' v'] m IH]; simpl; [reflexivity|].
  intros H. destruct (String.eqb k' k) eqn:E; simpl.
  - apply String.eqb_eq in E. intuition.
  - f_equal. apply IH. intuition.
Qed.

(** ** The wiring loops as a function of the paths they visit *)

Lemma attachAll_spec (mk : string -> ref) (l : list string) :
  forall h,
    map fst (dirs (attachAll mk h l)) = map fst (dirs h)
    /\ root (attachAll mk h l) = (root h ++ map mk (rootsIn l))%list
    /\ forall k kids,
        Obj.get (dirs h) k = Some kids ->
        Obj.get (dirs (attachAll mk h l)) k
        = Some (kids ++ map mk (childrenIn k l))%list.
Proof.
  induction l as [|p l IH]; intros h.
  - simpl. rewrite app_nil_r. repeat split.
    intros k kids H. rewrite app_nil_r. exact H.
  - change (attachAll mk h (p :: l)) with (attachAll mk (pushed h p (mk p)) l).
    destruct (IH (pushed h p (mk p))) as (Hk & Hr & Hc). clear IH.
    unfold rootsIn, childrenIn. cbn [List.filter].
    fold (rootsIn l). unfold pushed in *.
    destruct (String.eqb (parentPath p) "") eqn:Eroot.
    + cbn [dirs root negb andb] in *. split; [exact Hk|]. split.
      * rewrite Hr, <- app_assoc. reflexivity.
      * intros k kids H. exact (Hc k kids H).
    + cbn [negb andb]. destruct (Obj.get (dirs h) (parentPath p)) as [ks|] eqn:Eg.
      * cbn [dirs root] in *. split; [|split; [exact Hr|]].
        -- rewrite Hk. apply keys_set_present, get_In. eauto.
        -- intros k kids H. destruct (String.eqb (parentPath p) k) eqn:Ek.
           ++ apply String.eqb_eq in Ek. subst k.
              rewrite Eg in H. inversion H. subst ks.
              rewrite (Hc _ _ (get_set_same _ _ _)), <- app_assoc. reflexivity.
           ++ apply String.eqb_neq in Ek. apply Hc.
              rewrite get_set_other by congruence. exact H.
      * split; [exact Hk|]. split; [exact Hr|].
        intros k kids H. destruct (String.eqb (parentPath p) k) eqn:Ek.
        -- apply String.eqb_eq in Ek. subst k. congruence.
        -- apply Hc, H.
Qed.

(** A step that returns has pushed among own keys, or nowhere. *)
Lemma attach_returns (installed : bool) (h h' : heap) (p : string)
  (node : ref) :
  attach installed h p node = Returns h' -> h' = pushed h p node.
Proof.
  unfold attach, pushed.
  destruct (String.eqb (parentPath p) ""); [intros H; inversion H; reflexivity|].
  destruct (Obj.get (dirs h) (parentPath p));
    [intros H; inversion H; reflexivity|].
  destruct (inherited installed (parentPath p)) as [[| |]|];
    intros H; inversion H; reflexivity.
Qed.

Lemma forEach_returns {S A : Type} (f : S -> A -> outcome S)
  (g : S -> A -> S) (l : list A) :
  (forall s x s', f s x = Returns s' -> s' = g s x) ->
  forall s s', JS.forEach f l s = Returns s' -> s' = fold_left g l s.
Proof.
  intros Hf. induction l as [|x l IH]; intros s s' H; cbn [JS.forEach] in H.
  - inversion H. reflexivity.
  - destruct (f s x) as [s1| |] eqn:E; cbn [bind] in H; try discriminate.
    rewrite (IH _ _ H), (Hf _ _ _ E). reflexivity.
Qed.

Lemma forEach_total {S A : Type} (f : S -> A -> outcome S) (l : list A) :
  (forall s x, In x l -> exists s', f s x = Returns s') ->
  forall s, exists s', JS.forEach f l s = Returns s'.
Proof.
  induction l as [|x l IH]; intros Hf s; cbn [JS.forEach]; [eauto|].
  destruct (Hf s x (or_introl eq_refl)) as [s1 ->]. cbn [bind].
  apply IH. intros s2 y Hy. apply Hf. right. exact Hy.
Qed.

Lemma wireDir_fold (installed : bool) (keys : list string) (h h' : heap) :
  JS.forEach (wireDir installed) keys h = Returns h' ->
  h' = attachAll RDir h keys.
Proof.
  apply (forEach_returns (wireDir installed) (fun h p => pushed h p (RDir p))).
  intros s x s'. apply attach_returns.
Qed.

Lemma pushFile_fold (maxDepth : Z) (items : list TreeItem) :
  forall h,
    fold_left (fun h i => if tooDeep maxDepth (path i) then h
                          else pushed h (path i) (RFile (path i))) items h
    = attachAll RFile h
        (map path (List.filter (fun i => negb (tooDeep maxDepth (path i))) items)).
Proof.
  induction items as [|i items IH]; intros h; [reflexivity|].
  simpl. rewrite IH.
  destruct (tooDeep maxDepth (path i)); reflexivity.
Qed.

Lemma addFile_fold (maxDepth : Z) (installed : bool) (items : list TreeItem)
  (h h' : heap) :
  JS.forEach (addFile maxDepth installed) items h = Returns h' ->
  h' = attachAll RFile h
         (map path (List.filter (fun i => negb (tooDeep maxDepth (path i)))
                                items)).
Proof.
  intros H. rewrite <- pushFile_fold. revert H.
  apply (forEach_returns (addFile maxDepth installed)).
  intros s x s'. unfold addFile.
  destruct (tooDeep maxDepth (path x)).
  - intros E. inversion E. reflexivity.
  - apply attach_returns.
Qed.

(** The first loop, read as its two components. *)
Lemma createDir_declared (maxDepth : Z) (items : list TreeItem) :
  forall m b,
    fold_left (createDir maxDepth) items (m, b)
    = (fold_left (declared maxDepth) items m,
       b || existsb (installs maxDepth) items).
Proof.
  induction items as [|i items IH]; intros m b; cbn [fold_left existsb].
  - rewrite orb_false_r. reflexivity.
  - unfold createDir at 2, declared at 2, installs at 1, withinDepth.
    cbn [fst snd].
    destruct (tooDeep maxDepth (path i)); cbn [negb andb orb]; [apply IH|].
    destruct (String.eqb (path i) "__proto__"); rewrite IH.
    + rewrite orb_true_r. reflexivity.
    + reflexivity.
Qed.

(** The first loop creates empty nodes, in the order of first appearance. *)
Lemma createDir_fold (maxDepth : Z) (items : list TreeItem) :
  forall m,
    (forall k kids, Obj.get m k = Some kids -> kids = []) ->
    let m' := fold_left (declared maxDepth) items m in
    (forall k kids, Obj.get m' k = Some kids -> kids = [])
    /\ (forall k, In k (map fst m') <->
                  In k (map fst m)
                  \/ In k (map path (List.filter (keyed maxDepth) items)))
    /\ exists added,
        map fst m' = (map fst m ++ added)%list
        /\ subseq added (map path items).
Proof.
  induction items as [|i items IH]; intros m Hm.
  - simpl. split; [exact Hm|]. split; [intuition|].
    exists []. rewrite app_nil_r. auto using subseq_nil.
  - cbn [fold_left]. cbv zeta in *. unfold declared at 2 4 6.
    cbn [List.filter map]. unfold keyed at 1.
    destruct (tooDeep maxDepth (path i) || String.eqb (path i) "__proto__")
      eqn:Ed; cbn [negb].
    + destruct (IH m Hm) as (H1 & H2 & added & H3 & H4).
      split; [exact H1|]. split; [exact H2|].
      exists added. split; [exact H3|]. apply subseq_skip, H4.
    + assert (Hm' : forall k kids,
                 Obj.get (Obj.set m (path i) []) k = Some kids -> kids = []).
      { intros k kids H. destruct (string_dec k (path i)) as [->|Hne].
        - rewrite get_set_same in H. congruence.
        - rewrite get_set_other in H by exact Hne. eapply Hm, H. }
      destruct (IH _ Hm') as (H1 & H2 & added & H3 & H4).
      split; [exact H1|].
      destruct (in_dec string_dec (path i) (map fst m)) as [Hin|Hout].
      * rewrite (keys_set_present _ _ _ Hin) in H2, H3. split.
        -- intros k. rewrite H2. cbn [In map]. split; [tauto|].
           intros [H|[H|H]]; [tauto|subst k; tauto|tauto].
        -- exists added. split; [exact H3|]. apply subseq_skip, H4.
      * rewrite (keys_set_absent _ _ _ Hout) in H2, H3. split.
        -- intros k. rewrite H2, in_app_iff. cbn [In map]. tauto.
        -- exists (path i :: added). rewrite <- app_assoc in H3.
           split; [exact H3|]. apply subseq_take, H4.
Qed.

(** ** Enumeration order of the dictionary *)

Example keys_of_numbered_directories :
  Obj.keys [("b", 0); ("10", 1); ("9", 2); ("007", 3); ("a", 4)]
  = ["9"; "10"; "b"; "007"; "a"].
Proof. reflexivity. Qed.

Lemma In_insertByIndex (x y : N * string) (l : list (N * string)) :
  In y (Obj.insertByIndex x l) <-> y = x \/ In y l.
Proof.
  induction l as [|z l IH]; simpl.
  - intuition.
  - destruct (fst x <=? fst z)%N; simpl; [intuition|].
    rewrite IH. intuition.
Qed.

Lemma In_sorted (y : N * string) (l : list (N * string)) :
  In y (fold_right Obj.insertByIndex [] l) <-> In y l.
Proof.
  induction l as [|z l IH]; simpl; [reflexivity|].
  rewrite In_insertByIndex, IH. intuition.
Qed.

Lemma In_indexKeys {V : Type} (m : Obj.t V) (k : string) :
  In k (Obj.indexKeys m) <-> In k (map fst m) /\ Obj.isArrayIndex k = true.
Proof.
  unfold Obj.indexKeys, Obj.isArrayIndex. rewrite in_map_iff. split.
  - intros [[n k'] [E H]]. simpl in E. subst k'.
    apply In_sorted, in_flat_map in H as [kv [Hkv H]].
    destruct (Obj.arrayIndex (fst kv)) eqn:Ea; simpl in H; [|contradiction].
    destruct H as [H|[]]. inversion H. subst.
    rewrite Ea. split; [apply in_map, Hkv|reflexivity].
  - intros [Hin Ha]. destruct (Obj.arrayIndex k) as [n|] eqn:Ea; [|discriminate].
    exists (n, k). split; [reflexivity|].
    apply In_sorted, in_flat_map.
    apply in_map_iff in Hin as [kv [E Hkv]]. subst k.
    exists kv. split; [exact Hkv|]. rewrite Ea. left. reflexivity.
Qed.

Lemma In_keys {V : Type} (m : Obj.t V) (k : string) :
  In k (Obj.keys m) <-> In k (map fst m).
Proof.
  unfold Obj.keys, Obj.nameKeys.
  rewrite in_app_iff, In_indexKeys, filter_In.
  destruct (Obj.isArrayIndex k); simpl; intuition discriminate.
Qed.

Lemma digit_not_slash (c : ascii) :
  Obj.isDigit c = true -> Ascii.eqb c "/" = false.
Proof.
  intros H. destruct (Ascii.eqb_spec c "/") as [->|]; [|reflexivity].
  discriminate H.
Qed.

Lemma digits_without_slash (s : string) :
  forall acc n, Obj.digitsValue acc s = Some n ->
                RegExp.mentions "/" s = false.
Proof.
  induction s as [|c s IH]; intros acc n H; [reflexivity|].
  simpl in *. destruct (Obj.isDigit c) eqn:Ec; [|discriminate].
  rewrite (digit_not_slash _ Ec). exact (IH _ _ H).
Qed.

Lemma parent_without_slash (p : string) :
  RegExp.mentions "/" p = false -> parentPath p = "".
Proof.
  intros H. unfold parentPath. rewrite (split_without_sep _ _ H). reflexivity.
Qed.

(** An array-index key names a top-level directory. *)
Lemma arrayIndex_top_level (k : string) :
  Obj.isArrayIndex k = true -> parentPath k = "".
Proof.
  unfold Obj.isArrayIndex, Obj.arrayIndex. intros H.
  apply parent_without_slash.
  destruct (String.eqb k "" || _); [discriminate|].
  destruct (Obj.digitsValue 0 k) eqn:E; [|discriminate].
  exact (digits_without_slash _ _ _ E).
Qed.

(** Below a directory, enumeration order is creation order. *)
Lemma childrenIn_keys {V : Type} (m : Obj.t V) (k : string) :
  childrenIn k (Obj.keys m) = childrenIn k (Obj.nameKeys m).
Proof.
  unfold Obj.keys, childrenIn. rewrite filter_app.
  replace (List.filter _ (Obj.indexKeys m)) with (@nil string); [reflexivity|].
  symmetry.
  assert (H : forall p, In p (Obj.indexKeys m) -> parentPath p = "").
  { intros p Hp. apply In_indexKeys in Hp as [_ Hp].
    apply arrayIndex_top_level, Hp. }
  induction (Obj.indexKeys m) as [|p l IH]; [reflexivity|].
  simpl. rewrite (H p (or_introl eq_refl)). simpl.
  apply IH. intros q Hq. apply H. right. exact Hq.
Qed.

Lemma childrenIn_spec (k p : string) (l : list string) :
  In p (childrenIn k l) <-> In p l /\ parentPath p = k /\ k <> "".
Proof.
  unfold childrenIn. rewrite filter_In, andb_true_iff, negb_true_iff.
  rewrite String.eqb_eq, String.eqb_neq. intuition congruence.
Qed.

Lemma rootsIn_spec (p : string) (l : list string) :
  In p (rootsIn l) <-> In p l /\ parentPath p = "".
Proof. unfold rootsIn. rewrite filter_In, String.eqb_eq. reflexivity. Qed.

(** ** The heap that [buildFileTree] leaves *)

Lemma buildHeap_wired (items : list TreeItem) (ignorePatterns : list string)
  (maxDepth : Z) (h : heap) :
  buildHeap items ignorePatterns maxDepth = Returns h ->
  exists treeItems blobItems,
    selected "tree" items ignorePatterns = Returns treeItems
    /\ selected "blob" items ignorePatterns = Returns blobItems
    /\ wired (fold_left (declared maxDepth) treeItems [])
             (map path (List.filter (withinDepth maxDepth) blobItems)) h.
Proof.
  unfold buildHeap. intros H.
  destruct (selected "tree" items ignorePatterns) as [treeItems| |];
    cbn [bind] in H; try discriminate.
  rewrite createDir_declared in H. cbn [orb] in H.
  set (index := fold_left (declared maxDepth) treeItems []) in *.
  set (installed := existsb (installs maxDepth) treeItems) in *.
  set (h0 := {| dirs := index; root := [] |}) in *.
  destruct (JS.forEach (wireDir installed) (Obj.keys index) h0)
    as [h1| |] eqn:E1; cbn [bind] in H; try discriminate.
  destruct (selected "blob" items ignorePatterns) as [blobItems| |];
    cbn [bind] in H; try discriminate.
  apply wireDir_fold in E1. apply addFile_fold in H. subst h1.
  exists treeItems, blobItems. split; [reflexivity|]. split; [reflexivity|].
  fold index. fold (withinDepth maxDepth) in H.
  set (files := map path (List.filter (withinDepth maxDepth) blobItems)) in *.
  destruct (attachAll_spec RDir (Obj.keys index) h0) as (K1 & R1 & C1).
  destruct (attachAll_spec RFile files (attachAll RDir h0 (Obj.keys index)))
    as (K2 & R2 & C2).
  subst h. constructor.
  - rewrite K2, K1. reflexivity.
  - rewrite R2, R1. reflexivity.
  - intros k Hk.
    assert (E : Obj.get index k = Some []).
    { apply get_In in Hk as [kids Hk]. rewrite Hk. f_equal.
      refine (proj1 (createDir_fold maxDepth treeItems [] _) k kids Hk).
      intros ? ? Hn. discriminate Hn. }
    rewrite (C2 _ _ (C1 _ _ E)), childrenIn_keys. reflexivity.
Qed.

(** ** Reading the forest off the heap *)

Lemma traverse_Forall2 {A B : Type} (f : A -> option B) (l : list A) :
  forall ts, traverse f l = Some ts -> Forall2 (fun x t => f x = Some t) l ts.
Proof.
  induction l as [|x l IH]; simpl; intros ts H.
  - inversion H. constructor.
  - destruct (f x) as [y|] eqn:E; [|discriminate].
    destruct (traverse f l) as [ys|]; [|discriminate].
    inversion H. constructor; [exact E|apply IH; reflexivity].
Qed.

Lemma traverse_total {A B : Type} (f : A -> option B) (l : list A) :
  (forall x, In x l -> exists y, f x = Some y) ->
  exists ts, traverse f l = Some ts.
Proof.
  induction l as [|x l IH]; simpl; intros H; [eauto|].
  destruct (H x (or_introl eq_refl)) as [y ->].
  destruct IH as [ts ->]; [intros; apply H; auto|]. eauto.
Qed.

Lemma reify_shape (n : nat) (m : Obj.t (list ref)) (r : ref) (t : FileTree) :
  reify n m r = Some t -> shapeOf t = shapeOfRef r.
Proof.
  destruct r as [p|p]; simpl.
  - destruct n; [discriminate|]. simpl.
    destruct (Obj.get m p); [|discriminate].
    destruct (traverse _ _); [|discriminate].
    intros H. inversion H. reflexivity.
  - destruct n; intros H; inversion H; reflexivity.
Qed.

Lemma reified_shapes (n : nat) (m : Obj.t (list ref)) (rs : list ref)
  (ts : list FileTree) :
  Forall2 (fun r t => reify n m r = Some t) rs ts ->
  map shapeOf ts = map shapeOfRef rs.
Proof.
  induction 1 as [|r t rs ts H _ IH]; simpl; [reflexivity|].
  rewrite (reify_shape _ _ _ _ H), IH. reflexivity.
Qed.

Lemma Forall2_In_r {A B : Type} (R : A -> B -> Prop) (l : list A)
  (l' : list B) (y : B) :
  Forall2 R l l' -> In y l' -> exists x, In x l /\ R x y.
Proof.
  induction 1 as [|a b l l' Hab _ IH]; simpl; [contradiction|].
  intros [<-|H]; [eauto|]. destruct (IH H) as [x [Hx Hr]]. eauto.
Qed.

Lemma reify_file_inv (n : nat) (m : Obj.t (list ref)) (p : string)
  (t : FileTree) :
  reify n m (RFile p) = Some t -> t = Node p file None.
Proof. destruct n; simpl; intros H; inversion H; reflexivity. Qed.

Lemma reify_dir_inv (n : nat) (m : Obj.t (list ref)) (p : string)
  (t : FileTree) :
  reify n m (RDir p) = Some t ->
  exists n' cs ts,
    n = S n' /\ Obj.get m p = Some cs
    /\ Forall2 (fun r c => reify n' m r = Some c) cs ts
    /\ t = Node p dir (Some ts).
Proof.
  destruct n as [|n']; simpl; [discriminate|].
  destruct (Obj.get m p) as [cs|]; [|discriminate].
  destruct (traverse (reify n' m) cs) as [ts|] eqn:E; [|discriminate].
  intros H. inversion H. exists n', cs, ts.
  repeat split. apply traverse_Forall2, E.
Qed.

(** Every children array of a reified tree is a stored array. *)
Lemma reify_array (m : Obj.t (list ref)) (node : FileTree)
  (kids : list FileTree) :
  childrenOf node = Some kids ->
  forall n r t,
    reify n m r = Some t -> inTree node t ->
    exists cs, Obj.get m (pathOf node) = Some cs
               /\ map shapeOf kids = map shapeOfRef cs.
Proof.
  intros Hkids. induction n as [|n IH]; intros r t Hr Hin.
  - destruct r as [p|p]; [discriminate|].
    inversion Hr. subst t. inversion Hin; subst. discriminate.
  - destruct r as [p|p].
    + apply reify_dir_inv in Hr as (n' & cs & ts & En & Hg & Hts & ->).
      inversion En. subst n'. clear En.
      inversion Hin as [E|p' ty' kids' c Hc Hbelow E]; subst.
      * simpl in Hkids. inversion Hkids. subst kids.
        exists cs. split; [exact Hg|]. eapply reified_shapes, Hts.
      * destruct (Forall2_In_r _ _ _ _ Hts Hc) as [r' [_ Hr']].
        exact (IH _ _ Hr' Hbelow).
    + apply reify_file_inv in Hr. subst t.
      inversion Hin; subst. discriminate.
Qed.

(** Every node of a reified tree is the reference it was read from, or a
    member of a stored array. *)
Lemma reify_node (m : Obj.t (list ref)) (node : FileTree) :
  forall n r t,
    reify n m r = Some t -> inTree node t ->
    shapeOf node = shapeOfRef r
    \/ exists k cs r', Obj.get m k = Some cs /\ In r' cs
                       /\ shapeOf node = shapeOfRef r'.
Proof.
  induction n as [|n IH]; intros r t Hr Hin.
  - destruct r as [p|p]; [discriminate|].
    inversion Hr. subst t. inversion Hin; subst. left. reflexivity.
  - destruct r as [p|p].
    + apply reify_dir_inv in Hr as (n' & cs & ts & En & Hg & Hts & ->).
      inversion En. subst n'. clear En.
      inversion Hin as [E|p' ty' kids' c Hc Hbelow E]; subst.
      * left. reflexivity.
      * right. destruct (Forall2_In_r _ _ _ _ Hts Hc) as [r' [Hr'in Hr']].
        destruct (IH _ _ Hr' Hbelow) as [E|E]; [|exact E].
        exists p, cs, r'. auto.
    + apply reify_file_inv in Hr. subst t.
      inversion Hin; subst. left. reflexivity.
Qed.

Lemma buildFileTree_inv (items : list TreeItem) (ignorePatterns : list string)
  (maxDepth : Z) (forest : list FileTree) :
  buildFileTree items ignorePatterns maxDepth = Returns forest ->
  exists h,
    buildHeap items ignorePatterns maxDepth = Returns h
    /\ Forall2 (fun r t => reify (nesting (dirs h)) (dirs h) r = Some t)
               (root h) forest.
Proof.
  unfold buildFileTree, forestOf. intros H.
  destruct (buildHeap items ignorePatterns maxDepth) as [h| |];
    simpl in H; try discriminate.
  destruct (traverse _ _) as [ts|] eqn:E; [|discriminate].
  inversion H. subst ts. exists h. split; [reflexivity|].
  apply traverse_Forall2, E.
Qed.

(** ** The tree builder *)

Lemma built_forest (items : list TreeItem) (ignorePatterns : list string)
  (maxDepth : Z) (forest : list FileTree) :
  buildFileTree items ignorePatterns maxDepth = Returns forest ->
  exists h treeItems blobItems,
    buildHeap items ignorePatterns maxDepth = Returns h
    /\ selected "tree" items ignorePatterns = Returns treeItems
    /\ selected "blob" items ignorePatterns = Returns blobItems
    /\ wired (fold_left (declared maxDepth) treeItems [])
             (map path (List.filter (withinDepth maxDepth) blobItems)) h
    /\ Forall2 (fun r t => reify (nesting (dirs h)) (dirs h) r = Some t)
               (root h) forest.
Proof.
  intros H. apply buildFileTree_inv in H as (h & Hh & Hf).
  destruct (buildHeap_wired _ _ _ _ Hh) as (treeItems & blobItems & A & B & C).
  exists h, treeItems, blobItems. auto.
Qed.

(** The stored array behind a children array of the returned forest. *)
Lemma built_children (index : Obj.t (list ref)) (files : list string)
  (h : heap) (forest : list FileTree) (node : FileTree) (kids : list FileTree) :
  wired index files h ->
  Forall2 (fun r t => reify (nesting (dirs h)) (dirs h) r = Some t)
          (root h) forest ->
  inForest node forest -> childrenOf node = Some kids ->
  In (pathOf node) (map fst index)
  /\ map shapeOf kids
     = map shapeOfRef
         (map RDir (childrenIn (pathOf node) (Obj.nameKeys index))
          ++ map RFile (childrenIn (pathOf node) files))%list.
Proof.
  intros W Hf (t & Ht & Hin) Hkids.
  destruct (Forall2_In_r _ _ _ _ Hf Ht) as (r & _ & Hr).
  destruct (reify_array _ _ _ Hkids _ _ _ Hr Hin) as (cs & Hg & Hs).
  assert (Hk : In (pathOf node) (map fst index)).
  { rewrite <- (wired_keys _ _ _ W). apply get_In. eauto. }
  split; [exact Hk|].
  rewrite (wired_kids _ _ _ W _ Hk) in Hg. inversion Hg. subst cs. exact Hs.
Qed.

Lemma shapes_of_kind (mk : string -> ref) (ty : NodeType) :
  (forall p, snd (shapeOfRef (mk p)) = ty) ->
  forall (l : list FileTree) (ps : list string),
    map shapeOf l = map shapeOfRef (map mk ps) ->
    Forall (fun t => typeOf t = ty) l.
Proof.
  intros Hmk. induction l as [|t l IH]; intros [|p ps] H; try discriminate;
    constructor; cbn [map] in H; injection H as Hhd Htl.
  - rewrite <- (Hmk p), <- Hhd. reflexivity.
  - eapply IH, Htl.
Qed.

Lemma shapes_dirs_then_files (kids : list FileTree) (ds fs : list string) :
  map shapeOf kids = map shapeOfRef (map RDir ds ++ map RFile fs)%list ->
  dirsBeforeFiles kids.
Proof.
  rewrite map_app. intros H.
  apply map_eq_app in H as (l1 & l2 & -> & H1 & H2).
  exists l1, l2. split; [reflexivity|]. split.
  - eapply (shapes_of_kind RDir); [reflexivity|exact H1].
  - eapply (shapes_of_kind RFile); [reflexivity|exact H2].
Qed.

(** C10: in the root array and in every children array of a returned
    forest, the directory nodes come before the file nodes. *)
Theorem directories_precede_files (items : list TreeItem)
  (ignorePatterns : list string) (maxDepth : Z) (forest : list FileTree) :
  buildFileTree items ignorePatterns maxDepth = Returns forest ->
  dirsBeforeFiles forest
  /\ forall node kids,
      inForest node forest -> childrenOf node = Some kids ->
      dirsBeforeFiles kids.
Proof.
  intros H.
  apply built_forest in H as (h & treeItems & blobItems & _ & _ & _ & W & Hf).
  split.
  - apply reified_shapes in Hf. rewrite (wired_root _ _ _ W) in Hf.
    eapply shapes_dirs_then_files, Hf.
  - intros node kids Hin Hkids.
    destruct (built_children _ _ _ _ _ _ W Hf Hin Hkids) as [_ Hs].
    eapply shapes_dirs_then_files, Hs.
Qed.

Lemma directories_precede_files_witness :
  dirsBeforeFiles interleavedForest
  /\ forall node kids,
      inForest node interleavedForest -> childrenOf node = Some kids ->
      dirsBeforeFiles kids.
Proof.
  apply (directories_precede_files interleaved [] (-1)).
  vm_compute. reflexivity.
Defined.

Lemma selected_subseq (t : string) (items : list TreeItem)
  (ignorePatterns : list string) (chosen : list TreeItem) :
  selected t items ignorePatterns = Returns chosen ->
  subseq chosen (List.filter (hasType t) items).
Proof.
  unfold selected. intros H. apply filter_returns in H as [-> _].
  apply subseq_filter.
Qed.

Lemma index_subseq (maxDepth : Z) (treeItems : list TreeItem) :
  subseq (map fst (fold_left (declared maxDepth) treeItems []))
         (map path treeItems).
Proof.
  destruct (createDir_fold maxDepth treeItems []) as (_ & _ & added & E & H).
  - intros k kids Hk. discriminate Hk.
  - cbv zeta in E. rewrite E. exact H.
Qed.

Lemma shapes_subseq (ty : NodeType) (mk : string -> ref)
  (ps : list string) (chosen : list TreeItem) (t : string)
  (items : list TreeItem) :
  (forall p, shapeOfRef (mk p) = (p, ty)) ->
  subseq ps (map path chosen) ->
  subseq chosen (List.filter (hasType t) items) ->
  subseq (map shapeOfRef (map mk ps))
         (map (fun i => (path i, ty)) (List.filter (hasType t) items)).
Proof.
  intros Hmk H1 H2. rewrite map_map.
  rewrite (map_ext _ (fun p => (p, ty)) Hmk).
  rewrite <- (map_map path (fun p => (p, ty))).
  apply subseq_map. eapply subseq_trans; [exact H1|].
  apply subseq_map, H2.
Qed.

(** C3, as the code has it: every children array lists its directory
    children first, in the order of their entries in the input, and then its
    file children, in the order of their entries in the input.  The root
    array does so as well when no entry is named by an array index. *)
Theorem children_follow_input_order_by_kind (items : list TreeItem)
  (ignorePatterns : list string) (maxDepth : Z) (forest : list FileTree) :
  buildFileTree items ignorePatterns maxDepth = Returns forest ->
  (forall node kids,
      inForest node forest -> childrenOf node = Some kids ->
      subseq (map shapeOf kids) (dirsThenFiles items))
  /\ (Forall (fun i => Obj.isArrayIndex (path i) = false) items ->
      subseq (map shapeOf forest) (dirsThenFiles items)).
Proof.
  intros H.
  apply built_forest in H as (h & treeItems & blobItems & _ & HT & HB & W & Hf).
  set (index := fold_left (declared maxDepth) treeItems []) in *.
  assert (Hnames : subseq (Obj.nameKeys index) (map path treeItems)).
  { eapply subseq_trans; [apply subseq_filter|apply index_subseq]. }
  assert (Hfiles : subseq (map path (List.filter (withinDepth maxDepth) blobItems))
                          (map path blobItems)).
  { apply subseq_map, subseq_filter. }
  apply selected_subseq in HT, HB.
  split.
  - intros node kids Hin Hkids.
    destruct (built_children _ _ _ _ _ _ W Hf Hin Hkids) as [_ ->].
    rewrite map_app. apply subseq_app.
    + eapply (shapes_subseq dir RDir); [reflexivity| |exact HT].
      eapply subseq_trans; [apply subseq_filter|exact Hnames].
    + eapply (shapes_subseq file RFile); [reflexivity| |exact HB].
      eapply subseq_trans; [apply subseq_filter|exact Hfiles].
  - intros Hnum. apply reified_shapes in Hf. rewrite Hf, (wired_root _ _ _ W).
    assert (E : Obj.indexKeys index = []).
    { destruct (Obj.indexKeys index) as [|k l] eqn:E; [reflexivity|].
      assert (Hk : In k (Obj.indexKeys index)) by (rewrite E; left; reflexivity).
      apply In_indexKeys in Hk as [Hk Ha].
      apply (subseq_In _ _ _ (index_subseq maxDepth treeItems)) in Hk.
      apply in_map_iff in Hk as (i & <- & Hi).
      apply (subseq_In _ _ _ HT), filter_In in Hi as [Hi _].
      rewrite Forall_forall in Hnum. rewrite (Hnum i Hi) in Ha. discriminate. }
    unfold Obj.keys. rewrite E. cbn [app].
    rewrite map_app. apply subseq_app.
    + eapply (shapes_subseq dir RDir); [reflexivity| |exact HT].
      eapply subseq_trans; [apply subseq_filter|exact Hnames].
    + eapply (shapes_subseq file RFile); [reflexivity| |exact HB].
      eapply subseq_trans; [apply subseq_filter|exact Hfiles].
Qed.

Lemma children_follow_input_order_witness :
  (forall node kids,
      inForest node interleavedForest -> childrenOf node = Some kids ->
      subseq (map shapeOf kids) (dirsThenFiles interleaved))
  /\ (Forall (fun i => Obj.isArrayIndex (path i) = false) interleaved ->
      subseq (map shapeOf interleavedForest) (dirsThenFiles interleaved)).
Proof.
  apply (children_follow_input_order_by_kind interleaved [] (-1)).
  vm_compute. reflexivity.
Defined.

(** C3 as stated fails: [src/index.ts] is listed before its sibling
    [src/lib] in the input and after it in the children array of [src]. *)
Lemma file_before_directory_is_reordered :
  buildFileTree interleaved [] (-1) = Returns interleavedForest
  /\ ~ subseq [("src/lib", dir); ("src/index.ts", file)]
              (map (fun i => (path i, if hasType "tree" i then dir else file))
                   interleaved).
Proof.
  split; [vm_compute; reflexivity|].
  unfold interleaved. cbn. intros H.
  repeat match goal with
         | H : subseq _ _ |- _ => inversion H; clear H; subst
         end.
Qed.

(** *** The forest is always read off in full *)

Lemma key_below_nesting (m : Obj.t (list ref)) (k : string) :
  In k (map fst m) -> String.length k < nesting m.
Proof.
  unfold nesting. induction m as [|[k' v] m IH]; simpl; [contradiction|].
  intros [->|H]; [lia|]. specialize (IH H). lia.
Qed.

Lemma reify_total (index : Obj.t (list ref)) (files : list string) (h : heap) :
  wired index files h ->
  forall n k,
    In k (map fst index) ->
    nesting (dirs h) <= n + String.length k ->
    exists t, reify n (dirs h) (RDir k) = Some t.
Proof.
  intros W. induction n as [|n IH]; intros k Hk Hn.
  - rewrite <- (wired_keys _ _ _ W) in Hk.
    apply key_below_nesting in Hk. lia.
  - cbn [reify]. rewrite (wired_kids _ _ _ W _ Hk).
    destruct (traverse_total (reify n (dirs h))
                (map RDir (childrenIn k (Obj.nameKeys index))
                 ++ map RFile (childrenIn k files))%list) as [ts ->]; [|eauto].
    intros r Hr. apply in_app_iff in Hr as [Hr|Hr];
      apply in_map_iff in Hr as (p & <- & Hp).
    + apply childrenIn_spec in Hp as (Hp & Hparent & Hne).
      apply IH.
      * apply filter_In in Hp as [Hp _]. exact Hp.
      * assert (String.length (parentPath p) < String.length p)
          by (apply parent_shorter; congruence).
        rewrite Hparent in *. lia.
    + destruct n; simpl; eauto.
Qed.

Lemma forestOf_total (index : Obj.t (list ref)) (files : list string)
  (h : heap) :
  wired index files h -> exists forest, forestOf h = Some forest.
Proof.
  intros W. unfold forestOf. apply traverse_total.
  intros r Hr. rewrite (wired_root _ _ _ W) in Hr.
  apply in_app_iff in Hr as [Hr|Hr]; apply in_map_iff in Hr as (p & <- & Hp).
  - apply (reify_total _ _ _ W); [|lia].
    apply rootsIn_spec in Hp as [Hp _]. apply In_keys, Hp.
  - simpl. eauto.
Qed.

(** The builder returns a forest whenever its two filters return. *)
Lemma buildFileTree_returns (items : list TreeItem)
  (ignorePatterns : list string) (maxDepth : Z) (h : heap) :
  buildHeap items ignorePatterns maxDepth = Returns h ->
  exists forest, buildFileTree items ignorePatterns maxDepth = Returns forest.
Proof.
  intros H. unfold buildFileTree. rewrite H. simpl.
  destruct (buildHeap_wired _ _ _ _ H) as (? & ? & _ & _ & W).
  destruct (forestOf_total _ _ _ W) as [forest ->]. eauto.
Qed.

(** *** Where a node of the forest can come from *)

Lemma forest_node_attached (h : heap) (forest : list FileTree)
  (node : FileTree) :
  Forall2 (fun r t => reify (nesting (dirs h)) (dirs h) r = Some t)
          (root h) forest ->
  inForest node forest ->
  exists r, attached h r /\ shapeOf node = shapeOfRef r.
Proof.
  intros Hf (t & Ht & Hin).
  destruct (Forall2_In_r _ _ _ _ Hf Ht) as (r & Hr & Hreify).
  destruct (reify_node _ _ _ _ _ Hreify Hin) as [E|(k & cs & r' & Hg & Hr' & E)].
  - exists r. split; [left; exact Hr|exact E].
  - exists r'. split; [right; eauto|exact E].
Qed.

Lemma In_map_other (mk mk' : string -> ref) (p : string) (l : list string) :
  (forall q, mk' q <> mk p) -> ~ In (mk p) (map mk' l).
Proof. intros H Hin. apply in_map_iff in Hin as (q & E & _). exact (H q E). Qed.

Lemma attached_dir (index : Obj.t (list ref)) (files : list string)
  (h : heap) (p : string) :
  wired index files h ->
  attached h (RDir p) <->
  In p (map fst index)
  /\ (parentPath p = "" \/ In (parentPath p) (map fst index)).
Proof.
  intros W. unfold attached. rewrite (wired_root _ _ _ W). split.
  - intros [H|(k & cs & Hg & H)].
    + apply in_app_iff in H as [H|H].
      * apply in_map_iff in H as (q & E & H). inversion E. subst q.
        apply rootsIn_spec in H as [H Hp]. apply In_keys in H. auto.
      * exfalso. revert H. apply In_map_other. discriminate.
    + assert (Hk : In k (map fst index)).
      { rewrite <- (wired_keys _ _ _ W). apply get_In. eauto. }
      rewrite (wired_kids _ _ _ W _ Hk) in Hg. inversion Hg. subst cs.
      apply in_app_iff in H as [H|H].
      * apply in_map_iff in H as (q & E & H). inversion E. subst q.
        apply childrenIn_spec in H as (H & Hp & _).
        apply filter_In in H as [H _]. subst k. auto.
      * exfalso. revert H. apply In_map_other. discriminate.
  - intros [Hp [Hparent|Hparent]].
    + left. apply in_app_iff. left. apply in_map, rootsIn_spec.
      split; [apply In_keys, Hp|exact Hparent].
    + destruct (String.eqb (parentPath p) "") eqn:E.
      * apply String.eqb_eq in E. left. apply in_app_iff. left.
        apply in_map, rootsIn_spec. split; [apply In_keys, Hp|exact E].
      * apply String.eqb_neq in E. right.
        eexists _, _. split; [apply (wired_kids _ _ _ W _ Hparent)|].
        apply in_app_iff. left. apply in_map, childrenIn_spec.
        split; [|auto]. apply filter_In. split; [exact Hp|].
        destruct (Obj.isArrayIndex p) eqn:Ea; [|reflexivity].
        apply arrayIndex_top_level in Ea. contradiction.
Qed.

Lemma attached_file (index : Obj.t (list ref)) (files : list string)
  (h : heap) (p : string) :
  wired index files h ->
  attached h (RFile p) <->
  In p files
  /\ (parentPath p = "" \/ In (parentPath p) (map fst index)).
Proof.
  intros W. unfold attached. rewrite (wired_root _ _ _ W). split.
  - intros [H|(k & cs & Hg & H)].
    + apply in_app_iff in H as [H|H].
      * exfalso. revert H. apply In_map_other. discriminate.
      * apply in_map_iff in H as (q & E & H). inversion E. subst q.
        apply rootsIn_spec in H as [H Hp]. auto.
    + assert (Hk : In k (map fst index)).
      { rewrite <- (wired_keys _ _ _ W). apply get_In. eauto. }
      rewrite (wired_kids _ _ _ W _ Hk) in Hg. inversion Hg. subst cs.
      apply in_app_iff in H as [H|H].
      * exfalso. revert H. apply In_map_other. discriminate.
      * apply in_map_iff in H as (q & E & H). inversion E. subst q.
        apply childrenIn_spec in H as (H & Hp & _). subst k. auto.
  - intros [Hp [Hparent|Hparent]].
    + left. apply in_app_iff. right. apply in_map, rootsIn_spec. auto.
    + destruct (String.eqb (parentPath p) "") eqn:E.
      * apply String.eqb_eq in E. left. apply in_app_iff. right.
        apply in_map, rootsIn_spec. auto.
      * apply String.eqb_neq in E. right.
        eexists _, _. split; [apply (wired_kids _ _ _ W _ Hparent)|].
        apply in_app_iff. right. apply in_map, childrenIn_spec. auto.
Qed.

Lemma selected_In (t : string) (items : list TreeItem)
  (ignorePatterns : list string) (chosen : list TreeItem) (i : TreeItem) :
  selected t items ignorePatterns = Returns chosen ->
  In i chosen <->
  In i items /\ type i = t
  /\ shouldIgnore (path i) ignorePatterns = Returns false.
Proof.
  unfold selected. intros H. apply filter_returns in H as [-> _].
  rewrite !filter_In. unfold hasType, holds, notIgnored.
  rewrite String.eqb_eq.
  destruct (shouldIgnore (path i) ignorePatterns) as [[|]| |]; simpl;
    intuition discriminate.
Qed.

Lemma index_In (maxDepth : Z) (treeItems : list TreeItem) (p : string) :
  In p (map fst (fold_left (declared maxDepth) treeItems [])) <->
  exists i, In i treeItems /\ path i = p /\ tooDeep maxDepth p = false
            /\ p <> "__proto__".
Proof.
  destruct (createDir_fold maxDepth treeItems []) as (_ & H & _).
  - intros k kids Hk. discriminate Hk.
  - cbv zeta in H. rewrite H. cbn [map In fst]. rewrite in_map_iff.
    unfold keyed. split.
    + intros [[]|(i & E & Hi)]. apply filter_In in Hi as [Hi Hd].
      apply negb_true_iff, orb_false_iff in Hd as [Hd Hn].
      apply String.eqb_neq in Hn. subst p. eauto.
    + intros (i & Hi & E & Hd & Hn). right. exists i. split; [exact E|].
      apply filter_In. subst p. apply String.eqb_neq in Hn.
      rewrite Hd, Hn. auto.
Qed.

Lemma files_In (maxDepth : Z) (blobItems : list TreeItem) (p : string) :
  In p (map path (List.filter (withinDepth maxDepth) blobItems)) <->
  exists i, In i blobItems /\ path i = p /\ tooDeep maxDepth p = false.
Proof.
  rewrite in_map_iff. unfold withinDepth. split.
  - intros (i & E & Hi). apply filter_In in Hi as [Hi Hd].
    apply negb_true_iff in Hd. subst p. eauto.
  - intros (i & Hi & E & Hd). exists i. split; [exact E|].
    apply filter_In. subst p. rewrite Hd. auto.
Qed.

Lemma In_shapes (forest : list FileTree) (rs : list ref) (t : FileTree) :
  map shapeOf forest = map shapeOfRef rs -> In t forest ->
  exists r, In r rs /\ shapeOf t = shapeOfRef r.
Proof.
  intros E Ht. apply (in_map shapeOf) in Ht. rewrite E in Ht.
  apply in_map_iff in Ht as (r & Hr & Hin). eauto.
Qed.

Lemma reify_wellformed (m : Obj.t (list ref)) (node : FileTree) :
  forall n r t,
    reify n m r = Some t -> inTree node t ->
    (typeOf node = file /\ childrenOf node = None)
    \/ (typeOf node = dir /\ exists kids, childrenOf node = Some kids).
Proof.
  induction n as [|n IH]; intros r t Hr Hin.
  - destruct r as [p|p]; [discriminate|].
    inversion Hr. subst t. inversion Hin; subst. left. split; reflexivity.
  - destruct r as [p|p].
    + apply reify_dir_inv in Hr as (n' & cs & ts & En & Hg & Hts & ->).
      inversion En. subst n'. clear En.
      inversion Hin as [E|p' ty' kids' c Hc Hbelow E]; subst.
      * right. split; [reflexivity|]. simpl. eauto.
      * destruct (Forall2_In_r _ _ _ _ Hts Hc) as [r' [_ Hr']].
        exact (IH _ _ Hr' Hbelow).
    + apply reify_file_inv in Hr. subst t.
      inversion Hin; subst. left. split; reflexivity.
Qed.

Lemma js_filter_returns {A : Type} (f : A -> outcome bool) (l : list A) :
  Forall (fun x => exists b, f x = Returns b) l ->
  exists r, JS.filter f l = Returns r.
Proof.
  induction 1 as [|x l [b Hx] _ [r IH]]; simpl; [eauto|].
  rewrite Hx, IH. simpl. eauto.
Qed.

Lemma selected_without_rules (t : string) (items : list TreeItem) :
  exists chosen, selected t items [] = Returns chosen.
Proof.
  unfold selected. apply js_filter_returns.
  rewrite Forall_forall. intros i _. unfold notIgnored, shouldIgnore.
  destruct (String.eqb (path i) lockFile
            || JS.endsWith (path i) ("/" ++ lockFile)); simpl; eauto.
Qed.

(** *** Parents and children in the forest *)

Lemma inTree_trans (a b c : FileTree) : inTree a b -> inTree b c -> inTree a c.
Proof.
  intros Hab Hbc. induction Hbc as [|p ty kids c0 Hc _ IH]; [exact Hab|].
  exact (inTree_below a p ty kids c0 Hc IH).
Qed.

Lemma inTree_parent (node t : FileTree) :
  inTree node t ->
  node = t
  \/ exists parent kids,
       inTree parent t /\ childrenOf parent = Some kids /\ In node kids.
Proof.
  induction 1 as [|p ty kids c Hc Hin IH]; [left; reflexivity|right].
  destruct IH as [->|(parent & ks & Hp & Hk & Hn)].
  - exists (Node p ty (Some kids)), kids.
    split; [apply inTree_here|]. split; [reflexivity|exact Hc].
  - exists parent, ks. split; [exact (inTree_below parent p ty kids c Hc Hp)|].
    split; assumption.
Qed.

Lemma inForest_child (forest : list FileTree) (node c : FileTree)
  (kids : list FileTree) :
  inForest node forest -> childrenOf node = Some kids -> In c kids ->
  inForest c forest.
Proof.
  intros (t & Ht & Hin) Hk Hc. exists t. split; [exact Ht|].
  apply (inTree_trans c node t); [|exact Hin].
  destruct node as [p ty ks]. cbn [childrenOf] in Hk. subst ks.
  exact (inTree_below c p ty kids c Hc (inTree_here c)).
Qed.

Lemma Forall2_In_l {A B : Type} (R : A -> B -> Prop) (l : list A)
  (l' : list B) (x : A) :
  Forall2 R l l' -> In x l -> exists y, In y l' /\ R x y.
Proof.
  induction 1 as [|a b l l' Hab _ IH]; simpl; [contradiction|].
  intros [<-|H]; [eauto|]. destruct (IH H) as [y [Hy Hr]]. eauto.
Qed.

Lemma rooted_impl (K K' : string -> Prop) (p : string) :
  (forall k, K k -> K' k) -> rooted K p -> rooted K' p.
Proof.
  intros H. induction 1 as [p Hp|p Hk _ IH].
  - apply rooted_top, Hp.
  - apply rooted_below; [apply H, Hk|exact IH].
Qed.

Section Built.

Variables (index : Obj.t (list ref)) (files : list string) (h : heap)
          (forest : list FileTree).
Hypothesis W : wired index files h.
Hypothesis Hf :
  Forall2 (fun r t => reify (nesting (dirs h)) (dirs h) r = Some t)
          (root h) forest.

Lemma forest_root_top (t : FileTree) :
  In t forest -> parentPath (pathOf t) = "".
Proof.
  intros Ht. pose proof (reified_shapes _ _ _ _ Hf) as E.
  destruct (In_shapes _ _ _ E Ht) as (r & Hr & Es).
  rewrite (wired_root _ _ _ W) in Hr.
  apply in_app_iff in Hr as [Hr|Hr];
    apply in_map_iff in Hr as (p & <- & Hp);
    apply rootsIn_spec in Hp as [_ Hp]; inversion Es as [[Ep Et]];
    rewrite Ep; exact Hp.
Qed.

Lemma forest_child (node c : FileTree) (kids : list FileTree) :
  inForest node forest -> childrenOf node = Some kids -> In c kids ->
  In (pathOf node) (map fst index)
  /\ parentPath (pathOf c) = pathOf node
  /\ pathOf node <> "".
Proof.
  intros Hin Hk Hc.
  destruct (built_children _ _ _ _ _ _ W Hf Hin Hk) as [Hkey Es].
  split; [exact Hkey|].
  destruct (In_shapes _ _ _ Es Hc) as (r' & Hr' & Ec).
  apply in_app_iff in Hr' as [Hr'|Hr'];
    apply in_map_iff in Hr' as (p & <- & Hp);
    apply childrenIn_spec in Hp as (_ & Hp & Hne);
    inversion Ec as [[Ep Et]]; rewrite Ep; auto.
Qed.

(** Every directory above a node of the forest has a key. *)
Lemma forest_rooted (node : FileTree) :
  inForest node forest ->
  rooted (fun k => In k (map fst index)) (pathOf node).
Proof.
  intros (t & Ht & Hin).
  assert (Ht' : inForest t forest)
    by (exists t; split; [exact Ht|apply inTree_here]).
  assert (Hr : rooted (fun k => In k (map fst index)) (pathOf t))
    by (apply rooted_top, forest_root_top, Ht).
  clear Ht. induction Hin as [|p ty kids c Hc Hin IH]; [exact Hr|].
  assert (Hc' : inForest c forest)
    by exact (inForest_child _ _ _ _ Ht' eq_refl Hc).
  apply IH; [exact Hc'|].
  destruct (forest_child _ _ _ Ht' eq_refl Hc) as (Hk & Hp & _).
  cbn [pathOf] in Hk, Hp. apply rooted_below; rewrite Hp; assumption.
Qed.

(** A reference that the loops pushed below keyed directories only is read
    into the forest. *)
Lemma rooted_in_forest (p : string) :
  rooted (fun k => In k (map fst index)) p ->
  forall r,
    (r = RDir p /\ In p (map fst index)) \/ (r = RFile p /\ In p files) ->
    exists node, inForest node forest /\ shapeOf node = shapeOfRef r.
Proof.
  assert (Top : forall p r,
             parentPath p = "" ->
             (r = RDir p /\ In p (map fst index))
             \/ (r = RFile p /\ In p files) ->
             exists node, inForest node forest /\ shapeOf node = shapeOfRef r).
  { clear p. intros p r Hp Hr.
    assert (Hroot : In r (root h)).
    { rewrite (wired_root _ _ _ W). apply in_app_iff.
      destruct Hr as [[-> Hk]|[-> Hk]]; [left|right];
        apply in_map, rootsIn_spec; (split; [|exact Hp]);
        [apply In_keys, Hk|exact Hk]. }
    destruct (Forall2_In_l _ _ _ _ Hf Hroot) as (t & Ht & Hrt).
    exists t. split; [exists t; split; [exact Ht|apply inTree_here]|].
    exact (reify_shape _ _ _ _ Hrt). }
  induction 1 as [p Hp|p Hk _ IH]; intros r Hr; [exact (Top p r Hp Hr)|].
  destruct (String.eqb (parentPath p) "") eqn:E;
    [apply String.eqb_eq in E; exact (Top p r E Hr)|].
  apply String.eqb_neq in E.
  destruct (IH (RDir (parentPath p)) (or_introl (conj eq_refl Hk)))
    as (parent & Hin & Es).
  pose proof Hin as (t & Ht & Hbelow).
  destruct (Forall2_In_r _ _ _ _ Hf Ht) as (r0 & _ & Hr0).
  inversion Es as [[Ep Et]].
  destruct (reify_wellformed _ _ _ _ _ Hr0 Hbelow) as [[F _]|[_ [kids Hkids]]];
    [rewrite Et in F; discriminate|].
  destruct (built_children _ _ _ _ _ _ W Hf Hin Hkids) as [_ Ek].
  rewrite Ep in Ek.
  assert (Hstored :
            In r (map RDir (childrenIn (parentPath p) (Obj.nameKeys index))
                  ++ map RFile (childrenIn (parentPath p) files))%list).
  { apply in_app_iff. destruct Hr as [[-> Hp]|[-> Hp]]; [left|right];
      apply in_map.
    - rewrite <- childrenIn_keys. apply childrenIn_spec.
      split; [apply In_keys, Hp|auto].
    - apply childrenIn_spec. auto. }
  apply (in_map shapeOfRef) in Hstored. rewrite <- Ek in Hstored.
  apply in_map_iff in Hstored as (c & Ec & Hc).
  exists c. split; [|exact Ec].
  exact (inForest_child _ _ _ _ Hin Hkids Hc).
Qed.

End Built.

(** The nodes of a returned forest: the surviving entries below surviving
    directories only. *)
Lemma forest_nodes (items : list TreeItem) (ignorePatterns : list string)
  (maxDepth : Z) (forest : list FileTree) (p : string) (ty : NodeType) :
  buildFileTree items ignorePatterns maxDepth = Returns forest ->
  (exists node, inForest node forest /\ shapeOf node = (p, ty)) <->
  surviving items ignorePatterns maxDepth p ty
  /\ rooted (fun k => surviving items ignorePatterns maxDepth k dir) p.
Proof.
  intros H.
  apply built_forest in H as (h & treeItems & blobItems & _ & HT & HB & W & Hf).
  set (index := fold_left (declared maxDepth) treeItems []) in *.
  set (files := map path (List.filter (withinDepth maxDepth) blobItems)) in *.
  assert (Keys : forall k, In k (map fst index) <->
                           surviving items ignorePatterns maxDepth k dir).
  { intros k. unfold index. rewrite index_In. unfold surviving. split.
    - intros (i & Hi & E & Hd & Hn).
      apply (selected_In _ _ _ _ i HT) in Hi as (Hi & Ht & Hs).
      exists i. subst k. auto 8.
    - intros (i & Hi & Ht & E & Hs & Hd & Hn). exists i.
      split; [|auto]. apply (selected_In _ _ _ _ i HT). subst k. auto. }
  assert (Files : forall k, In k files <->
                            surviving items ignorePatterns maxDepth k file).
  { intros k. unfold files. rewrite files_In. unfold surviving. split.
    - intros (i & Hi & E & Hd).
      apply (selected_In _ _ _ _ i HB) in Hi as (Hi & Ht & Hs).
      exists i. subst k. repeat split; auto. discriminate.
    - intros (i & Hi & Ht & E & Hs & Hd & _). exists i.
      split; [|auto]. apply (selected_In _ _ _ _ i HB). subst k. auto. }
  split.
  - intros (node & Hin & Es). split.
    + destruct (forest_node_attached _ _ _ Hf Hin) as (r & Hr & E).
      rewrite Es in E. destruct r as [q|q]; inversion E; subst q ty.
      * apply Keys. apply (attached_dir _ _ _ _ W) in Hr as [Hr _]. exact Hr.
      * apply Files. apply (attached_file _ _ _ _ W) in Hr as [Hr _]. exact Hr.
    + apply (rooted_impl (fun k => In k (map fst index))).
      * intros k. apply Keys.
      * replace p with (pathOf node) by (inversion Es; reflexivity).
        exact (forest_rooted _ _ _ _ W Hf node Hin).
  - intros [Hs Hr].
    apply (rooted_impl _ (fun k => In k (map fst index))) in Hr;
      [|intros k; apply Keys].
    destruct ty.
    + destruct (rooted_in_forest _ _ _ _ W Hf p Hr (RFile p)) as (node & Hn & E);
        [right; split; [reflexivity|apply Files, Hs]|eauto].
    + destruct (rooted_in_forest _ _ _ _ W Hf p Hr (RDir p)) as (node & Hn & E);
        [left; split; [reflexivity|apply Keys, Hs]|eauto].
Qed.

(** *** When the builder returns *)

Lemma inherited_reserved (installed : bool) (k : string) :
  reserved k = false -> inherited installed k = None.
Proof.
  unfold reserved, inherited. intros H.
  apply orb_false_iff in H as [Hm Hf]. cbn [existsb] in Hf.
  repeat (apply orb_false_iff in Hf as [? Hf]).
  assert (Hp : String.eqb k "__proto__" = false).
  { unfold Obj.isPrototypeMember, Obj.prototypeMembers in Hm.
    cbn [existsb] in Hm. apply orb_false_iff in Hm as [Hm _]. exact Hm. }
  rewrite Hm, Hp.
  repeat match goal with E : String.eqb k _ = false |- _ => rewrite E; clear E end.
  rewrite !andb_false_r. reflexivity.
Qed.

Lemma attach_total (installed : bool) (h : heap) (p : string) (node : ref) :
  reserved (parentPath p) = false ->
  exists h', attach installed h p node = Returns h'.
Proof.
  intros H. unfold attach.
  destruct (String.eqb (parentPath p) ""); [eauto|].
  destruct (Obj.get (dirs h) (parentPath p)); [eauto|].
  rewrite (inherited_reserved installed _ H). eauto.
Qed.

(** The builder returns when its two filters return and no entry lies
    directly below a reserved name. *)
Lemma buildHeap_total (items : list TreeItem) (ignorePatterns : list string)
  (maxDepth : Z) (treeItems blobItems : list TreeItem) :
  selected "tree" items ignorePatterns = Returns treeItems ->
  selected "blob" items ignorePatterns = Returns blobItems ->
  Forall (fun i => reserved (parentPath (path i)) = false) items ->
  exists h, buildHeap items ignorePatterns maxDepth = Returns h.
Proof.
  intros HT HB Hsafe. rewrite Forall_forall in Hsafe.
  unfold buildHeap. rewrite HT. cbn [bind].
  rewrite createDir_declared. cbn [orb].
  set (index := fold_left (declared maxDepth) treeItems []).
  set (installed := existsb (installs maxDepth) treeItems).
  destruct (forEach_total (wireDir installed) (Obj.keys index)) with
    (s := {| dirs := index; root := [] |}) as [h1 ->].
  { intros s k Hk. apply attach_total.
    apply In_keys, index_In in Hk as (i & Hi & <- & _).
    apply (selected_In _ _ _ _ i HT) in Hi as (Hi & _). exact (Hsafe i Hi). }
  cbn [bind]. rewrite HB. cbn [bind].
  apply forEach_total. intros s i Hi. unfold addFile.
  destruct (tooDeep maxDepth (path i)); [eauto|].
  apply attach_total.
  apply (selected_In _ _ _ _ i HB) in Hi as (Hi & _). exact (Hsafe i Hi).
Qed.

(** C5: a file whose parent directory has no entry leaves the forest empty.
    A node whose parent path is non-empty, is no key of the dictionary and
    is not found on its prototype chain is pushed nowhere, and no node of a
    returned forest lacks its parent: it is a root with an empty parent
    path, or a member of the children array of the directory node at its
    parent path.  Without rules the builder returns when no entry lies
    directly below a reserved name.  It throws on a file below [type] when a
    directory [__proto__] has been listed: the dictionary then inherits the
    string [dir] under that name. *)
Theorem orphans_are_dropped :
  buildFileTree [ {| path := "a/b.txt"; type := "blob" |} ] [] (-1)
  = Returns []
  /\ (forall installed h p node,
      parentPath p <> "" -> Obj.get (dirs h) (parentPath p) = None ->
      inherited installed (parentPath p) = None ->
      attach installed h p node = Returns h)
  /\ (forall items ignorePatterns maxDepth forest,
      buildFileTree items ignorePatterns maxDepth = Returns forest ->
      forall node,
        inForest node forest ->
        (In node forest /\ parentPath (pathOf node) = "")
        \/ exists parent kids,
             inForest parent forest
             /\ childrenOf parent = Some kids /\ In node kids
             /\ pathOf parent = parentPath (pathOf node)
             /\ parentPath (pathOf node) <> "")
  /\ (forall items maxDepth,
      Forall (fun i => reserved (parentPath (path i)) = false) items ->
      exists forest, buildFileTree items [] maxDepth = Returns forest)
  /\ buildFileTree [ {| path := "__proto__"; type := "tree" |};
                     {| path := "type/x"; type := "blob" |} ] [] (-1)
     = Throws TypeError.
Proof.
  split; [vm_compute; reflexivity|]. split; [|split; [|split]].
  - intros installed h p node Hne Hg Hi. unfold attach.
    apply String.eqb_neq in Hne. rewrite Hne, Hg, Hi. reflexivity.
  - intros items ignorePatterns maxDepth forest H node Hin.
    apply built_forest in H as (h & ? & ? & _ & _ & _ & W & Hf).
    destruct Hin as (t & Ht & Hin).
    destruct (inTree_parent _ _ Hin) as [->|(parent & kids & Hp & Hk & Hn)].
    + left. split; [exact Ht|]. exact (forest_root_top _ _ _ _ W Hf t Ht).
    + right. exists parent, kids.
      assert (Hp' : inForest parent forest) by (exists t; auto).
      destruct (forest_child _ _ _ _ W Hf _ _ _ Hp' Hk Hn) as (_ & E & Hne).
      rewrite E. auto.
  - intros items maxDepth Hsafe.
    destruct (selected_without_rules "tree" items) as [ts HT].
    destruct (selected_without_rules "blob" items) as [bs HB].
    destruct (buildHeap_total items [] maxDepth ts bs HT HB Hsafe) as [h Hh].
    exact (buildFileTree_returns _ _ _ _ Hh).
  - vm_compute. reflexivity.
Qed.

Lemma orphans_are_dropped_witness :
  attach false {| dirs := [("src", [])]; root := [RDir "src"] |}
         "lib/util.ts" (RFile "lib/util.ts")
  = Returns {| dirs := [("src", [])]; root := [RDir "src"] |}.
Proof.
  apply (proj1 (proj2 orphans_are_dropped)).
  - vm_compute. discriminate.
  - reflexivity.
  - reflexivity.
Defined.

(** *** The depth gate *)

Lemma depthOf_parent (p : string) :
  parentPath p <> "" -> (depthOf (parentPath p) < depthOf p)%Z.
Proof.
  unfold depthOf, parentPath, JS.popped. intros H.
  pose proof (split_segments_without_sep "/" p) as Hs.
  pose proof (split_not_nil "/" p) as Hn.
  assert (Hr : removelast (JS.split "/" p) <> [])
    by (intros E; rewrite E in H; apply H; reflexivity).
  assert (Hall : Forall (fun l => RegExp.mentions "/" l = false)
                        (removelast (JS.split "/" p))).
  { rewrite Forall_forall in *. intros x Hx. apply Hs.
    revert Hx. clear. induction (JS.split "/" p) as [|a l IH]; [intros []|].
    destruct l as [|b l]; [intros []|]. intros [<-|Hx]; [left; reflexivity|].
    right. apply IH, Hx. }
  rewrite (split_join "/" _ Hr Hall).
  assert (L : S (length (removelast (JS.split "/" p)))
              = length (JS.split "/" p)).
  { destruct (exists_last Hn) as (l & a & E). rewrite E.
    rewrite removelast_last, length_app. simpl. lia. }
  lia.
Qed.

Lemma tooDeep_parent (maxDepth : Z) (p : string) :
  parentPath p <> "" -> tooDeep maxDepth p = false ->
  tooDeep maxDepth (parentPath p) = false.
Proof.
  intros Hp. pose proof (depthOf_parent p Hp) as Hd. unfold tooDeep.
  destruct (maxDepth =? -1)%Z; [reflexivity|]. cbn [negb andb].
  rewrite !Z.gtb_ltb, !Z.ltb_ge. lia.
Qed.

(** In a complete listing without ignored entries, the directories above an
    entry within the bound survive. *)
Lemma complete_rooted (items : list TreeItem) (ignorePatterns : list string)
  (maxDepth : Z) :
  complete items ->
  Forall (fun i => shouldIgnore (path i) ignorePatterns = Returns false)
         items ->
  Forall (fun i => type i = "tree" -> path i <> "__proto__") items ->
  forall n i,
    String.length (path i) < n -> In i items ->
    tooDeep maxDepth (path i) = false ->
    rooted (fun k => surviving items ignorePatterns maxDepth k dir) (path i).
Proof.
  intros Hc Hs Hn. rewrite Forall_forall in Hs, Hn.
  induction n as [|n IH]; intros i Hlen Hi Hd; [lia|].
  destruct (Hc i Hi) as [Hp|(j & Hj & Ht & Ep)]; [apply rooted_top, Hp|].
  destruct (String.eqb (parentPath (path i)) "") eqn:E;
    [apply String.eqb_eq in E; apply rooted_top, E|].
  apply String.eqb_neq in E.
  pose proof (tooDeep_parent maxDepth _ E Hd) as Hd'.
  pose proof (parent_shorter _ E) as Hl.
  rewrite <- Ep in *.
  apply rooted_below; rewrite <- Ep.
  - exists j. repeat split; auto.
  - apply IH; [lia|exact Hj|exact Hd'].
Qed.

(** C6: the depth of an entry is the number of segments of its path, and the
    same gate guards both loops.  The nodes of a returned forest are the
    entries, directories and files alike, that are not ignored, not too
    deep, and lie below directories of which the same holds (a directory
    [__proto__] gets no key and no node).  So in a complete listing without
    ignored entries and without a directory [__proto__], an entry is left
    out exactly when it is too deep.  With the bound 1 only the directory
    [a] is left of [a], [a/b], [a/b/c.txt]. *)
Theorem depth_gate :
  buildFileTree
    [ {| path := "a"; type := "tree" |};
      {| path := "a/b"; type := "tree" |};
      {| path := "a/b/c.txt"; type := "blob" |} ] [] 1
  = Returns [Node "a" dir (Some [])]
  /\ (forall maxDepth p,
      tooDeep maxDepth p = true <->
      maxDepth <> (-1)%Z
      /\ (Z.of_nat (length (JS.split "/" p)) > maxDepth)%Z)
  /\ (forall items ignorePatterns maxDepth forest p ty,
      buildFileTree items ignorePatterns maxDepth = Returns forest ->
      (exists node, inForest node forest /\ shapeOf node = (p, ty)) <->
      surviving items ignorePatterns maxDepth p ty
      /\ rooted (fun k => surviving items ignorePatterns maxDepth k dir) p)
  /\ (forall items ignorePatterns maxDepth forest p ty,
      complete items ->
      Forall (fun i => shouldIgnore (path i) ignorePatterns = Returns false)
             items ->
      Forall (fun i => type i = "tree" -> path i <> "__proto__") items ->
      buildFileTree items ignorePatterns maxDepth = Returns forest ->
      (exists node, inForest node forest /\ shapeOf node = (p, ty)) <->
      (exists i, In i items /\ type i = kindOf ty /\ path i = p)
      /\ tooDeep maxDepth p = false).
Proof.
  split; [vm_compute; reflexivity|]. split; [|split].
  - intros maxDepth p. unfold tooDeep, depthOf.
    rewrite andb_true_iff, negb_true_iff, Z.eqb_neq, Z.gtb_gt. reflexivity.
  - intros items ignorePatterns maxDepth forest p ty. apply forest_nodes.
  - intros items ignorePatterns maxDepth forest p ty Hc Hs Hn H.
    rewrite (forest_nodes _ _ _ _ p ty H). split.
    + intros [(i & Hi & Ht & Ep & _ & Hd & _) _]. eauto.
    + intros [(i & Hi & Ht & Ep) Hd]. split.
      * exists i. rewrite Forall_forall in Hs, Hn.
        repeat split; auto.
        -- rewrite <- Ep. apply Hs, Hi.
        -- intros ->. rewrite <- Ep. apply Hn; assumption.
      * rewrite <- Ep in *.
        exact (complete_rooted items ignorePatterns maxDepth Hc Hs Hn
                 (S (String.length (path i))) i (Nat.lt_succ_diag_r _) Hi Hd).
Qed.

Lemma depth_gate_witness :
  (exists node,
      inForest node [Node "a" dir (Some [Node "a/b" dir (Some [])])]
      /\ shapeOf node = ("a/b", dir)) <->
  (exists i,
      In i [ {| path := "a"; type := "tree" |};
             {| path := "a/b"; type := "tree" |};
             {| path := "a/b/c.txt"; type := "blob" |} ]
      /\ type i = kindOf dir /\ path i = "a/b")
  /\ tooDeep 2 "a/b" = false.
Proof.
  apply (proj2 (proj2 (proj2 depth_gate))
           [ {| path := "a"; type := "tree" |};
             {| path := "a/b"; type := "tree" |};
             {| path := "a/b/c.txt"; type := "blob" |} ] [] 2%Z
           [Node "a" dir (Some [Node "a/b" dir (Some [])])] "a/b" dir).
  - intros i [<-|[<-|[<-|[]]]]; [left; reflexivity|right..].
    + exists {| path := "a"; type := "tree" |}.
      split; [left; reflexivity|]. split; reflexivity.
    + exists {| path := "a/b"; type := "tree" |}.
      split; [right; left; reflexivity|]. split; reflexivity.
  - repeat constructor.
  - repeat constructor; discriminate.
  - vm_compute. reflexivity.
Defined.

(** ** Line filtering *)

Lemma keepLine_holds (rules : list string) (line : string) :
  holds (keepLine rules) line = true <->
  shouldIgnore line rules = Returns false.
Proof.
  unfold holds, keepLine.
  destruct (shouldIgnore line rules) as [[|]| |]; simpl;
    intuition discriminate.
Qed.

(** C9, as the code has it: with at least one line rule and no exception,
    the lines kept are exactly the lines that are not ignored, in their
    original order, and filtering them again changes nothing; without line
    rules the content is not filtered at all. *)
Theorem line_filter_is_an_idempotent_subsequence :
  (forall rules lines kept,
      filteredLines rules lines = Returns kept ->
      kept = List.filter (holds (keepLine rules)) lines
      /\ subseq kept lines
      /\ (forall line, In line kept <->
                       In line lines /\ shouldIgnore line rules = Returns false)
      /\ filteredLines rules kept = Returns kept)
  /\ (forall content, filteredContent content [] = Returns content)
  /\ (forall rules content out,
      rules <> [] ->
      filteredContent content rules = Returns out ->
      exists kept,
        filteredLines rules (JS.split "010" content) = Returns kept
        /\ out = JS.join LF kept
        /\ (kept <> [] -> filteredContent out rules = Returns out)).
Proof.
  split; [|split].
  - intros rules lines kept H. pose proof (filter_returns _ _ _ H) as [E _].
    split; [exact E|]. split; [rewrite E; apply subseq_filter|]. split.
    + intros line. rewrite E, filter_In, keepLine_holds. reflexivity.
    + exact (filter_returns_again _ _ _ H).
  - reflexivity.
  - intros rules content out Hne H. unfold filteredContent in *.
    destruct rules as [|r rules]; [contradiction|]. cbn [length Nat.ltb Nat.leb] in *.
    destruct (filteredLines (r :: rules) (JS.split "010" content))
      as [kept| |] eqn:E; simpl in H; try discriminate.
    inversion H. subst out. exists kept. repeat split.
    intros Hkept. unfold LF. rewrite split_join.
    + unfold filteredLines in *.
      rewrite (filter_returns_again _ _ _ E). reflexivity.
    + exact Hkept.
    + apply filter_returns in E as [-> _].
      pose proof (split_segments_without_sep "010" content) as Hall.
      rewrite Forall_forall in *. intros l Hl.
      apply filter_In in Hl as [Hl _]. apply Hall, Hl.
Qed.

Lemma line_filter_witness :
  exists kept,
    filteredLines ["// TODO*"] (JS.split "010" ("a" ++ LF ++ "// TODO: x" ++ LF ++ "b"))
    = Returns kept
    /\ "a" ++ LF ++ "b" = JS.join LF kept
    /\ (kept <> [] ->
        filteredContent ("a" ++ LF ++ "b") ["// TODO*"]
        = Returns ("a" ++ LF ++ "b")).
Proof.
  apply (proj2 (proj2 line_filter_is_an_idempotent_subsequence)
           ["// TODO*"] ("a" ++ LF ++ "// TODO: x" ++ LF ++ "b")).
  - discriminate.
  - vm_compute. reflexivity.
Defined.

(** C9 as stated fails without line rules: the lock file's name is an
    ignored line, and the content keeps it. *)
Lemma empty_rules_filter_nothing :
  shouldIgnore "package-lock.json" [] = Returns true
  /\ filteredLines [] (JS.split "010" "package-lock.json") = Returns []
  /\ filteredContent "package-lock.json" [] = Returns "package-lock.json".
Proof. repeat split. Qed.

(** ** The assembler *)

Lemma append_nil_r (s : string) : s ++ "" = s.
Proof. induction s; simpl; congruence. Qed.

Lemma generateFileContentMarkdown_never_throws
  (fetch : string -> option string) (filePath : string)
  (ignorePatterns sourceIgnorePatterns : list string) (e : exn) :
  generateFileContentMarkdown fetch filePath ignorePatterns
    sourceIgnorePatterns <> Throws e.
Proof.
  unfold generateFileContentMarkdown, catch.
  destruct (bind _ _); discriminate.
Qed.

Lemma generateFileContentMarkdown_section
  (fetch : string -> option string) (ignorePatterns : list string)
  (sourceIgnorePatterns : list string) (f : FileTree) :
  renderable fetch ignorePatterns sourceIgnorePatterns f ->
  generateFileContentMarkdown fetch (pathOf f) ignorePatterns
    sourceIgnorePatterns
  = Returns (sectionOf fetch sourceIgnorePatterns (pathOf f)).
Proof.
  intros [Hi Hm]. unfold generateFileContentMarkdown, sectionOf, getFileContent.
  rewrite Hi. simpl.
  destruct (fetch (pathOf f)) as [content|]; simpl; [|reflexivity].
  specialize (Hm content eq_refl).
  destruct (filteredContent content sourceIgnorePatterns); simpl;
    [reflexivity|reflexivity|contradiction].
Qed.

Lemma fileSections_sections (fetch : string -> option string)
  (ignorePatterns sourceIgnorePatterns : list string)
  (flatFiles : list FileTree) :
  Forall (renderable fetch ignorePatterns sourceIgnorePatterns) flatFiles ->
  forall markdown,
    fileSections fetch ignorePatterns sourceIgnorePatterns flatFiles markdown
    = Returns
        (markdown
         ++ concatAll
              (map (fun f => sectionOf fetch sourceIgnorePatterns (pathOf f))
                   flatFiles)).
Proof.
  induction 1 as [|f rest Hf _ IH]; intros markdown; simpl.
  - rewrite append_nil_r. reflexivity.
  - rewrite (proj1 Hf). simpl.
    rewrite (generateFileContentMarkdown_section _ _ _ _ Hf). simpl.
    rewrite IH, append_assoc. reflexivity.
Qed.

(** C7: a failed download costs one section and nothing else.
    [generateFileContentMarkdown] never throws.  For a file that is not
    ignored it returns the heading followed by the fixed notice when the
    download fails, and the heading followed by a fenced code block when the
    content is fetched and filtered.  Over files that are not ignored, the
    document is the preamble followed by what it returns for each file, in
    pre-order, whatever the collaborator does.  With three files and one
    failed download there are two code blocks and one notice, in place. *)
Theorem fetch_failure_is_local :
  (forall fetch filePath ignorePatterns sourceIgnorePatterns e,
      generateFileContentMarkdown fetch filePath ignorePatterns
        sourceIgnorePatterns <> Throws e)
  /\ (forall fetch filePath ignorePatterns sourceIgnorePatterns,
      shouldIgnore filePath ignorePatterns = Returns false ->
      fetch filePath = None ->
      generateFileContentMarkdown fetch filePath ignorePatterns
        sourceIgnorePatterns
      = Returns ("### " ++ filePath ++ LF ++ LF
                 ++ "> ファイル内容の取得に失敗しました。" ++ LF ++ LF))
  /\ (forall fetch filePath ignorePatterns sourceIgnorePatterns content body,
      shouldIgnore filePath ignorePatterns = Returns false ->
      fetch filePath = Some content ->
      filteredContent content sourceIgnorePatterns = Returns body ->
      generateFileContentMarkdown fetch filePath ignorePatterns
        sourceIgnorePatterns
      = Returns ("### " ++ filePath ++ LF ++ LF
                 ++ "```" ++ languageOf (getFileType filePath) ++ LF
                 ++ body ++ LF ++ "```" ++ LF ++ LF))
  /\ (forall fetch repoInfoMarkdown contributorsMarkdown fileTree
             ignorePatterns sourceIgnorePatterns,
      Forall (renderable fetch ignorePatterns sourceIgnorePatterns)
             (filesOf fileTree) ->
      generateRepositoryMarkdown fetch repoInfoMarkdown contributorsMarkdown
        fileTree ignorePatterns sourceIgnorePatterns
      = Returns
          (preamble repoInfoMarkdown contributorsMarkdown fileTree
           ++ concatAll
                (map (fun f => sectionOf fetch sourceIgnorePatterns (pathOf f))
                     (filesOf fileTree)))
      /\ Forall
           (fun f =>
              generateFileContentMarkdown fetch (pathOf f) ignorePatterns
                sourceIgnorePatterns
              = Returns (sectionOf fetch sourceIgnorePatterns (pathOf f)))
           (filesOf fileTree))
  /\ generateRepositoryMarkdown sampleFetch ("# repo" ++ LF ++ LF) "" sample []
       ["*secret*"]
     = Returns
         ("# repo" ++ LF ++ LF
          ++ "## ファイル構造" ++ LF ++ LF
          ++ "📁 src" ++ LF
          ++ "  📄 a.ts" ++ LF
          ++ "  📄 b.ts" ++ LF
          ++ "📄 README.md" ++ LF
          ++ LF
          ++ "## ファイル内容" ++ LF ++ LF
          ++ "### src/a.ts" ++ LF ++ LF
          ++ "```typescript" ++ LF
          ++ "let x = 1;" ++ LF
          ++ "done" ++ LF
          ++ "```" ++ LF ++ LF
          ++ "### src/b.ts" ++ LF ++ LF
          ++ "> ファイル内容の取得に失敗しました。" ++ LF ++ LF
          ++ "### README.md" ++ LF ++ LF
          ++ "```" ++ LF
          ++ "let x = 1;" ++ LF
          ++ "done" ++ LF
          ++ "```" ++ LF ++ LF).
Proof.
  split; [exact generateFileContentMarkdown_never_throws|].
  split; [|split; [|split]].
  - intros fetch filePath ignorePatterns sourceIgnorePatterns Hi Hf.
    unfold generateFileContentMarkdown, getFileContent.
    rewrite Hi, Hf. cbn [bind catch]. unfold failureSection, heading.
    rewrite !append_assoc. reflexivity.
  - intros fetch filePath ignorePatterns sourceIgnorePatterns content body
      Hi Hf Hb.
    unfold generateFileContentMarkdown, getFileContent.
    rewrite Hi, Hf. cbn [bind]. rewrite Hb. cbn [bind catch].
    unfold codeSection, heading. rewrite !append_assoc. reflexivity.
  - intros fetch repoInfoMarkdown contributorsMarkdown fileTree
      ignorePatterns sourceIgnorePatterns H. split.
    + unfold generateRepositoryMarkdown. fold (filesOf fileTree).
      rewrite (fileSections_sections _ _ _ _ H).
      unfold preamble. rewrite !append_assoc. reflexivity.
    + rewrite Forall_forall in *. intros f Hf.
      apply generateFileContentMarkdown_section, H, Hf.
  - vm_compute. reflexivity.
Qed.

Lemma fetch_failure_witness :
  generateFileContentMarkdown sampleFetch "src/b.ts" ["*.md"] ["*secret*"]
  = Returns ("### " ++ "src/b.ts" ++ LF ++ LF
             ++ "> ファイル内容の取得に失敗しました。" ++ LF ++ LF).
Proof.
  apply (proj1 (proj2 fetch_failure_is_local)).
  - vm_compute. reflexivity.
  - reflexivity.
Defined.

(** * Further properties of the code *)

(** ** Wildcard rules are glob patterns *)

Lemma parseAlternative_term (n : nat) (c : ascii) (s : string) :
  isMeta c = false -> noQuantifierAhead s = true ->
  RegExp.parseAlternative (S (S n)) (translated c ++ s)
  = ('(a, s2) <- RegExp.parseAlternative (S n) s ;;
     Returns (RegExp.Cat (termOf c) a, s2)).
Proof.
  intros Hc Hs. each_ascii c; try discriminate Hc;
    simpl; try rewrite (quantified_plain _ _ Hs); reflexivity.
Qed.

Lemma parseAlternative_compiled (p : string) :
  metaFree p = true ->
  forall n,
    2 * String.length p + 2 <= n ->
    RegExp.parseAlternative n (regexPatternOf p ++ "$")
    = Returns (compiled p, "").
Proof.
  induction p as [|c p IH]; intros H n Hn.
  - destruct n as [|[|n]]; [lia|lia|]. reflexivity.
  - cbn [metaFree] in H. apply andb_true_iff in H as [Hc H].
    apply negb_true_iff in Hc.
    cbn [String.length] in Hn. destruct n as [|[|n]]; [lia|lia|].
    rewrite regexPatternOf_cons, append_assoc.
    rewrite (parseAlternative_term _ _ _ Hc
               (proj1 (parseAlternative_metaFree _ H))).
    rewrite (IH H (S n)) by lia. reflexivity.
Qed.

Lemma create_compiled (p : string) :
  metaFree p = true ->
  RegExp.create ("^" ++ regexPatternOf p ++ "$")
  = Returns (RegExp.Cat RegExp.Bol (compiled p)).
Proof.
  intros H. unfold RegExp.create.
  set (src := "^" ++ regexPatternOf p ++ "$").
  assert (Hlen : String.length p + 2 <= String.length src).
  { unfold src. cbn [append String.length]. rewrite append_length.
    pose proof (regexPatternOf_length p). simpl. lia. }
  set (m := 3 * String.length src).
  replace (m + 3) with (S (S (S m))) by lia.
  rewrite (parseDisjunction_whole (S (S m)) src
             (RegExp.Cat RegExp.Bol (compiled p))); [reflexivity|].
  unfold src. change ("^" ++ regexPatternOf p ++ "$")
    with (String "^" (regexPatternOf p ++ "$")).
  rewrite (parseAlternative_caret _ _ (proj1 (parseAlternative_metaFree _ H))).
  rewrite (parseAlternative_compiled _ H (S m)) by (unfold m; lia).
  reflexivity.
Qed.

Lemma run_star (r : RegExp.regex) (k : nat -> string -> bool) (i : nat)
  (s : string) :
  RegExp.run (RegExp.Star r) i s k = starRounds r k (S (String.length s)) i s.
Proof. reflexivity. Qed.

Lemma starRounds_dot (k : nat -> string -> bool) (n : nat) :
  forall j t,
    String.length t < n -> starRounds RegExp.Dot k n j t = anyRun k j t.
Proof.
  induction n as [|n IH]; intros j t Hn; [lia|].
  destruct t as [|x t]; cbn [anyRun starRounds RegExp.run].
  - destruct (k j ""); reflexivity.
  - assert (E : (S j =? j)%nat = false) by (apply Nat.eqb_neq; lia).
    rewrite E, IH by (simpl in Hn; lia).
    destruct (RegExp.isLineTerminator x), (k j (String x t)),
      (anyRun k (S j) t); reflexivity.
Qed.

Lemma run_star_dot (k : nat -> string -> bool) (i : nat) (s : string) :
  RegExp.run (RegExp.Star RegExp.Dot) i s k = anyRun k i s.
Proof. rewrite run_star. apply starRounds_dot. lia. Qed.

Lemma anyRun_ext (k k' : nat -> string -> bool) :
  (forall j t, k j t = k' j t) ->
  forall s i, anyRun k i s = anyRun k' i s.
Proof.
  intros H. induction s as [|x s IH]; intros i; cbn [anyRun]; rewrite H.
  - reflexivity.
  - rewrite IH. reflexivity.
Qed.

Lemma run_compiled (p : string) :
  forall i s, RegExp.run (compiled p) i s (fun _ _ => true) = glob p s.
Proof.
  induction p as [|c p IH]; intros i s.
  - destruct s; reflexivity.
  - cbn [compiled glob]. unfold termOf.
    destruct (Ascii.eqb c ".") eqn:E1.
    + apply Ascii.eqb_eq in E1. subst c. cbn [Ascii.eqb Bool.eqb RegExp.run].
      destruct s as [|x s]; [reflexivity|].
      destruct (Ascii.eqb x "."); [apply IH|reflexivity].
    + destruct (Ascii.eqb c "*") eqn:E2.
      * change (RegExp.run (RegExp.Cat (RegExp.Star RegExp.Dot) (compiled p))
                  i s (fun _ _ => true))
          with (RegExp.run (RegExp.Star RegExp.Dot) i s
                  (fun j t => RegExp.run (compiled p) j t (fun _ _ => true))).
        rewrite run_star_dot.
        rewrite (anyRun_ext _ (fun _ t => glob p t) IH).
        revert i. induction s as [|x s IHs]; intros i; cbn [anyRun].
        -- reflexivity.
        -- rewrite IHs. reflexivity.
      * destruct (Ascii.eqb c "?") eqn:E3; cbn [RegExp.run];
          destruct s as [|x s]; try reflexivity.
        -- destruct (RegExp.isLineTerminator x); [reflexivity|apply IH].
        -- destruct (Ascii.eqb x c); [apply IH|reflexivity].
Qed.

Lemma test_anchored (r : RegExp.regex) (s : string) :
  RegExp.test (RegExp.Cat RegExp.Bol r) s
  = RegExp.run r 0 s (fun _ _ => true).
Proof.
  unfold RegExp.test. destruct s as [|x s].
  - cbn [RegExp.testFrom RegExp.run Nat.eqb]. apply orb_false_r.
  - cbn [RegExp.testFrom]. rewrite testFrom_anchored.
    cbn [RegExp.run Nat.eqb]. apply orb_false_r.
Qed.

(** X1: for a rule without regex metacharacters the translation to a regular
    expression is faithful to the wildcards: the rule matches a candidate
    exactly when it equals the candidate or its last segment, or is a glob
    match of one of them. *)
Theorem matchPattern_is_glob (pattern filePath : string) :
  metaFree pattern = true -> pattern <> "" ->
  matchPattern pattern filePath
  = Returns (String.eqb pattern filePath
             || String.eqb pattern (fileNameOf filePath)
             || glob pattern filePath
             || glob pattern (fileNameOf filePath)).
Proof.
  intros H Hne. unfold matchPattern.
  apply String.eqb_neq in Hne. rewrite Hne.
  destruct (String.eqb pattern filePath); [reflexivity|].
  destruct (String.eqb pattern (fileNameOf filePath)); [reflexivity|].
  rewrite (create_compiled _ H). cbn [bind].
  rewrite !test_anchored, !run_compiled. reflexivity.
Qed.

Lemma matchPattern_is_glob_witness :
  matchPattern "src/*.t?" "src/lib/api.ts"
  = Returns (String.eqb "src/*.t?" "src/lib/api.ts"
             || String.eqb "src/*.t?" (fileNameOf "src/lib/api.ts")
             || glob "src/*.t?" "src/lib/api.ts"
             || glob "src/*.t?" (fileNameOf "src/lib/api.ts")).
Proof.
  apply matchPattern_is_glob; [reflexivity|discriminate].
Defined.

(** ** Rule lists *)

Lemma some_skips {A : Type} (f : A -> outcome bool) (keep : A -> bool)
  (l : list A) :
  (forall x, keep x = false -> f x = Returns false) ->
  JS.some f (List.filter keep l) = JS.some f l.
Proof.
  intros H. induction l as [|x l IH]; [reflexivity|].
  cbn [List.filter]. destruct (keep x) eqn:E; simpl; rewrite IH.
  - reflexivity.
  - rewrite (H x E). reflexivity.
Qed.

Lemma shouldIgnore_some (filePath : string) (rules : list string) :
  shouldIgnore filePath rules
  = if String.eqb (fileNameOf filePath) lockFile then Returns true
    else JS.some (ruleFires filePath) rules.
Proof.
  unfold shouldIgnore. rewrite lock_test_basename.
  destruct (String.eqb (fileNameOf filePath) lockFile); [reflexivity|].
  destruct rules; reflexivity.
Qed.

Lemma shouldIgnore_skips (filePath : string) (keep : string -> bool)
  (rules : list string) :
  (forall r, keep r = false ->
             JS.startsWith r "#" || JS.trimIsEmpty r = true) ->
  shouldIgnore filePath (List.filter keep rules) = shouldIgnore filePath rules.
Proof.
  intros H. rewrite !shouldIgnore_some.
  destruct (String.eqb (fileNameOf filePath) lockFile); [reflexivity|].
  apply some_skips. intros r Hr. unfold ruleFires. rewrite (H r Hr).
  reflexivity.
Qed.

(** X2: comment lines and blank lines carry no verdict, so the rule lists
    that the page and the editor keep decide every candidate as the raw
    lines of the text do. *)
Theorem comments_and_blanks_do_not_matter :
  forall filePath text,
    shouldIgnore filePath (loadPatterns text)
    = shouldIgnore filePath (JS.split "010" text)
    /\ shouldIgnore filePath (editedPatterns text)
       = shouldIgnore filePath (JS.split "010" text).
Proof.
  intros filePath text. split; apply shouldIgnore_skips; intros r Hr.
  - apply andb_false_iff in Hr as [Hr|Hr]; apply negb_false_iff in Hr;
      rewrite Hr; [apply orb_true_r|reflexivity].
  - apply negb_false_iff in Hr. rewrite Hr. apply orb_true_r.
Qed.

Lemma last_In {A : Type} (l : list A) (d : A) : l <> [] -> In (last l d) l.
Proof.
  induction l as [|a l IH]; [contradiction|]. intros _.
  destruct l as [|b l]; [left; reflexivity|].
  right. apply IH. discriminate.
Qed.

Lemma fileNameOf_without_slash (filePath : string) :
  RegExp.mentions "/" (fileNameOf filePath) = false.
Proof.
  pose proof (split_segments_without_sep "/" filePath) as H.
  rewrite Forall_forall in H. apply H.
  apply last_In, split_not_nil.
Qed.

(** X3: a rule of literal characters that contains a slash, such as the
    directory rule [node_modules/], matches the candidate with exactly that
    path and nothing below or beside it. *)
Theorem literal_rule_with_slash_matches_one_path (pattern filePath : string) :
  literal pattern = true -> RegExp.mentions "/" pattern = true ->
  matchPattern pattern filePath = Returns (String.eqb pattern filePath).
Proof.
  intros H Hs.
  assert (Hne : pattern <> "") by (intros ->; discriminate Hs).
  rewrite (matchPattern_literal _ _ H Hne).
  destruct (String.eqb pattern (fileNameOf filePath)) eqn:E;
    [|rewrite orb_false_r; reflexivity].
  apply String.eqb_eq in E. rewrite E, fileNameOf_without_slash in Hs.
  discriminate Hs.
Qed.

Lemma literal_rule_with_slash_witness :
  matchPattern "node_modules/" "node_modules/react/index.js"
  = Returns (String.eqb "node_modules/" "node_modules/react/index.js").
Proof.
  apply literal_rule_with_slash_matches_one_path; reflexivity.
Defined.

Lemma metaFree_tail (c : ascii) (s : string) :
  metaFree (String c s) = true -> metaFree s = true.
Proof. cbn [metaFree]. intros H. apply andb_true_iff in H as [_ H]. exact H. Qed.

Lemma ruleFires_returns (filePath rule : string) :
  metaFree rule = true -> exists b, ruleFires filePath rule = Returns b.
Proof.
  intros H. unfold ruleFires.
  destruct (JS.startsWith rule "#" || JS.trimIsEmpty rule); [eauto|].
  destruct (JS.startsWith rule "!").
  - destruct rule as [|c rule]; cbn [JS.substring1].
    + destruct (matchPattern_total_without_meta "" filePath H) as [b ->].
      simpl. eauto.
    + destruct (matchPattern_total_without_meta rule filePath
                  (metaFree_tail _ _ H)) as [b ->].
      simpl. eauto.
  - apply matchPattern_total_without_meta, H.
Qed.

Lemma some_returns {A : Type} (f : A -> outcome bool) (l : list A) :
  Forall (fun x => exists b, f x = Returns b) l ->
  exists b, JS.some f l = Returns b.
Proof.
  induction 1 as [|x l [b Hx] _ [b' IH]]; simpl; [eauto|].
  rewrite Hx. simpl. destruct b; eauto.
Qed.

Lemma shouldIgnore_returns (filePath : string) (rules : list string) :
  Forall (fun r => metaFree r = true) rules ->
  exists b, shouldIgnore filePath rules = Returns b.
Proof.
  intros H. rewrite shouldIgnore_some.
  destruct (String.eqb (fileNameOf filePath) lockFile); [eauto|].
  apply some_returns. rewrite Forall_forall in *.
  intros r Hr. apply ruleFires_returns, H, Hr.
Qed.

Lemma selected_returns (t : string) (items : list TreeItem)
  (rules : list string) :
  Forall (fun r => metaFree r = true) rules ->
  exists chosen, selected t items rules = Returns chosen.
Proof.
  intros H. unfold selected. apply js_filter_returns.
  rewrite Forall_forall. intros i _. unfold notIgnored.
  destruct (shouldIgnore_returns (path i) rules H) as [b ->]. simpl. eauto.
Qed.

(** X4: with rules free of regex metacharacters, and so with no rules at
    all, [shouldIgnore] answers every candidate, and [buildFileTree] returns
    a forest for every depth bound and every input in which no entry lies
    directly below a directory named like a member of [Object.prototype] or
    like a field of a node. *)
Theorem builder_is_total_on_wildcard_rules (items : list TreeItem)
  (rules : list string) (maxDepth : Z) :
  Forall (fun r => metaFree r = true) rules ->
  (forall filePath, exists b, shouldIgnore filePath rules = Returns b)
  /\ (Forall (fun i => reserved (parentPath (path i)) = false) items ->
      exists forest, buildFileTree items rules maxDepth = Returns forest).
Proof.
  intros H. split; [intros; apply shouldIgnore_returns, H|]. intros Hsafe.
  destruct (selected_returns "tree" items rules H) as [ts Ht].
  destruct (selected_returns "blob" items rules H) as [bs Hb].
  destruct (buildHeap_total items rules maxDepth ts bs Ht Hb Hsafe) as [h Hh].
  exact (buildFileTree_returns _ _ _ _ Hh).
Qed.

Lemma builder_is_total_witness :
  (forall filePath,
      exists b, shouldIgnore filePath ["*.log"; "!keep.log"; "# note"]
                = Returns b)
  /\ exists forest,
      buildFileTree interleaved ["*.log"; "!keep.log"; "# note"] 3
      = Returns forest.
Proof.
  destruct (builder_is_total_on_wildcard_rules
              interleaved ["*.log"; "!keep.log"; "# note"] 3
              ltac:(repeat constructor)) as [H1 H2].
  split; [exact H1|]. apply H2. repeat constructor.
Defined.

(** ** More on the forest *)

Lemma shouldIgnore_lock_file (filePath : string) (rules : list string) :
  shouldIgnore filePath rules = Returns false ->
  fileNameOf filePath <> lockFile.
Proof.
  rewrite shouldIgnore_some. intros H E.
  apply String.eqb_eq in E. rewrite E in H. discriminate.
Qed.

(** X5: every node of a returned forest is an entry of the input, a
    directory node a [tree] entry and a file node a [blob] entry, whose path
    the rules do not ignore; so no node is named [package-lock.json]. *)
Theorem forest_nodes_are_surviving_entries (items : list TreeItem)
  (ignorePatterns : list string) (maxDepth : Z) (forest : list FileTree)
  (node : FileTree) :
  buildFileTree items ignorePatterns maxDepth = Returns forest ->
  inForest node forest ->
  (exists i, In i items /\ path i = pathOf node
             /\ type i = match typeOf node with
                         | dir => "tree"
                         | file => "blob"
                         end)
  /\ shouldIgnore (pathOf node) ignorePatterns = Returns false
  /\ fileNameOf (pathOf node) <> lockFile.
Proof.
  intros H Hin.
  apply built_forest in H as (h & treeItems & blobItems & _ & HT & HB & W & Hf).
  destruct (forest_node_attached _ _ _ Hf Hin) as (r & Hr & E).
  assert (G : exists i, In i items /\ path i = pathOf node
                        /\ type i = match typeOf node with
                                    | dir => "tree"
                                    | file => "blob"
                                    end
                        /\ shouldIgnore (pathOf node) ignorePatterns
                           = Returns false).
  { destruct r as [p|p]; inversion E as [[Ep Et]]; rewrite Ep.
    - apply (attached_dir _ _ _ _ W) in Hr as [Hr _].
      apply index_In in Hr as (i & Hi & Hp & _).
      apply (selected_In _ _ _ _ i HT) in Hi as (Hi & Ht & Hs).
      exists i. rewrite <- Hp, Et. auto.
    - apply (attached_file _ _ _ _ W) in Hr as [Hr _].
      apply files_In in Hr as (i & Hi & Hp & _).
      apply (selected_In _ _ _ _ i HB) in Hi as (Hi & Ht & Hs).
      exists i. rewrite <- Hp, Et. auto. }
  destruct G as (i & Hi & Hp & Ht & Hs).
  split; [eauto|]. split; [exact Hs|].
  eapply shouldIgnore_lock_file, Hs.
Qed.

Lemma forest_nodes_witness :
  (exists i, In i interleaved /\ path i = pathOf (Node "src/lib" dir (Some []))
             /\ type i = match typeOf (Node "src/lib" dir (Some [])) with
                         | dir => "tree"
                         | file => "blob"
                         end)
  /\ shouldIgnore (pathOf (Node "src/lib" dir (Some []))) [] = Returns false
  /\ fileNameOf (pathOf (Node "src/lib" dir (Some []))) <> lockFile.
Proof.
  apply (forest_nodes_are_surviving_entries interleaved [] (-1)
           interleavedForest).
  - vm_compute. reflexivity.
  - eexists. split; [left; reflexivity|].
    eapply inTree_below; [left; reflexivity|apply inTree_here].
Defined.

(** X6: the shape of a returned forest.  A file node has no [children]
    property and a directory node has one; every member of a node's children
    array has that node's path as its parent path; every root has the empty
    parent path. *)
Theorem forest_follows_the_paths (items : list TreeItem)
  (ignorePatterns : list string) (maxDepth : Z) (forest : list FileTree) :
  buildFileTree items ignorePatterns maxDepth = Returns forest ->
  (forall t, In t forest -> parentPath (pathOf t) = "")
  /\ forall node,
      inForest node forest ->
      (typeOf node = file /\ childrenOf node = None)
      \/ (typeOf node = dir
          /\ exists kids,
              childrenOf node = Some kids
              /\ forall c, In c kids ->
                           parentPath (pathOf c) = pathOf node
                           /\ pathOf node <> "").
Proof.
  intros H.
  apply built_forest in H as (h & treeItems & blobItems & _ & _ & _ & W & Hf).
  split.
  - intros t Ht. pose proof (reified_shapes _ _ _ _ Hf) as E.
    destruct (In_shapes _ _ _ E Ht) as (r & Hr & Es).
    rewrite (wired_root _ _ _ W) in Hr.
    apply in_app_iff in Hr as [Hr|Hr];
      apply in_map_iff in Hr as (p & <- & Hp);
      apply rootsIn_spec in Hp as [_ Hp]; inversion Es as [[Ep Et]];
      rewrite Ep; exact Hp.
  - intros node Hin. pose proof Hin as (t & Ht & Hbelow).
    destruct (Forall2_In_r _ _ _ _ Hf Ht) as (r & _ & Hr).
    destruct (reify_wellformed _ _ _ _ _ Hr Hbelow) as [F|[D [kids Hk]]];
      [left; exact F|right].
    split; [exact D|]. exists kids. split; [exact Hk|].
    intros c Hc.
    destruct (built_children _ _ _ _ _ _ W Hf Hin Hk) as [_ Es].
    destruct (In_shapes _ _ _ Es Hc) as (r' & Hr' & Ec).
    apply in_app_iff in Hr' as [Hr'|Hr'];
      apply in_map_iff in Hr' as (p & <- & Hp);
      apply childrenIn_spec in Hp as (_ & Hp & Hne);
      inversion Ec as [[Ep Et]]; rewrite Ep; auto.
Qed.

Lemma forest_follows_the_paths_witness :
  (forall t, In t interleavedForest -> parentPath (pathOf t) = "")
  /\ forall node,
      inForest node interleavedForest ->
      (typeOf node = file /\ childrenOf node = None)
      \/ (typeOf node = dir
          /\ exists kids,
              childrenOf node = Some kids
              /\ forall c, In c kids ->
                           parentPath (pathOf c) = pathOf node
                           /\ pathOf node <> "").
Proof.
  apply (forest_follows_the_paths interleaved [] (-1)).
  vm_compute. reflexivity.
Defined.

(** The depth of a path is at least one. *)
Lemma tooDeep_zero (p : string) : tooDeep 0 p = true.
Proof.
  unfold tooDeep, depthOf. simpl.
  pose proof (split_not_nil "/" p) as H.
  destruct (JS.split "/" p); [contradiction|]. reflexivity.
Qed.

(** X7: with the depth bound 0 every entry is too deep, and the forest is
    empty whatever the input. *)
Theorem depth_zero_gives_the_empty_forest (items : list TreeItem)
  (ignorePatterns : list string) (forest : list FileTree) :
  buildFileTree items ignorePatterns 0 = Returns forest -> forest = [].
Proof.
  intros H. destruct forest as [|t forest]; [reflexivity|exfalso].
  apply built_forest in H as (h & treeItems & blobItems & _ & _ & _ & W & Hf).
  assert (Hin : inForest t (t :: forest)).
  { exists t. split; [left; reflexivity|apply inTree_here]. }
  destruct (forest_node_attached _ _ _ Hf Hin) as (r & Hr & _).
  destruct r as [p|p].
  - apply (attached_dir _ _ _ _ W) in Hr as [Hr _].
    apply index_In in Hr as (i & _ & _ & Hd & _).
    rewrite tooDeep_zero in Hd. discriminate.
  - apply (attached_file _ _ _ _ W) in Hr as [Hr _].
    apply files_In in Hr as (i & _ & _ & Hd).
    rewrite tooDeep_zero in Hd. discriminate.
Qed.

Lemma depth_zero_witness : @nil FileTree = [].
Proof.
  apply (depth_zero_gives_the_empty_forest interleaved ["*.md"]).
  vm_compute. reflexivity.
Defined.

(** X8: the roots of a returned forest are exactly the entries that are not
    ignored, not too deep, and have a single segment: directories and files
    alike, except that a directory [__proto__] never is a root. *)
Theorem roots_are_the_top_level_entries (items : list TreeItem)
  (ignorePatterns : list string) (maxDepth : Z) (forest : list FileTree)
  (p : string) (ty : NodeType) :
  buildFileTree items ignorePatterns maxDepth = Returns forest ->
  In (p, ty) (map shapeOf forest) <->
  exists i, In i items /\ path i = p
            /\ type i = match ty with dir => "tree" | file => "blob" end
            /\ shouldIgnore p ignorePatterns = Returns false
            /\ tooDeep maxDepth p = false
            /\ parentPath p = ""
            /\ (ty = dir -> p <> "__proto__").
Proof.
  intros H.
  apply built_forest in H as (h & treeItems & blobItems & _ & HT & HB & W & Hf).
  rewrite (reified_shapes _ _ _ _ Hf), (wired_root _ _ _ W), map_app, in_app_iff.
  rewrite !map_map. cbn [shapeOfRef]. rewrite !in_map_iff. split.
  - intros [(q & E & Hq)|(q & E & Hq)]; inversion E; subst q ty;
      apply rootsIn_spec in Hq as [Hq Hp].
    + apply In_keys, index_In in Hq as (i & Hi & Ep & Hd & Hn).
      apply (selected_In _ _ _ _ i HT) in Hi as (Hi & Ht & Hs).
      exists i. subst p. auto 8.
    + apply files_In in Hq as (i & Hi & Ep & Hd).
      apply (selected_In _ _ _ _ i HB) in Hi as (Hi & Ht & Hs).
      exists i. subst p. repeat split; auto. discriminate.
  - intros (i & Hi & Ep & Et & Hs & Hd & Hp & Hn). destruct ty; [right|left];
      exists p; (split; [reflexivity|]); apply rootsIn_spec;
      (split; [|exact Hp]).
    + apply files_In. exists i. split; [|auto].
      apply (selected_In _ _ _ _ i HB). subst p. auto.
    + apply In_keys, index_In. exists i. split; [|auto].
      apply (selected_In _ _ _ _ i HT). subst p. auto.
Qed.

Lemma roots_witness :
  In ("docs", dir) (map shapeOf interleavedForest) <->
  exists i, In i interleaved /\ path i = "docs"
            /\ type i = "tree"
            /\ shouldIgnore "docs" [] = Returns false
            /\ tooDeep (-1) "docs" = false
            /\ parentPath "docs" = ""
            /\ (dir = dir -> "docs" <> "__proto__").
Proof.
  apply (roots_are_the_top_level_entries interleaved [] (-1)
           interleavedForest "docs" dir).
  vm_compute. reflexivity.
Defined.

(** *** Distinct paths *)

Lemma insertByIndex_Permutation (x : N * string) (l : list (N * string)) :
  Permutation (Obj.insertByIndex x l) (x :: l).
Proof.
  induction l as [|y l IH]; simpl; [reflexivity|].
  destruct (fst x <=? fst y)%N; [reflexivity|].
  rewrite IH. apply perm_swap.
Qed.

Lemma sorted_Permutation (l : list (N * string)) :
  Permutation (fold_right Obj.insertByIndex [] l) l.
Proof.
  induction l as [|x l IH]; simpl; [reflexivity|].
  rewrite insertByIndex_Permutation, IH. reflexivity.
Qed.

Lemma indexKeys_Permutation {V : Type} (m : Obj.t V) :
  Permutation (Obj.indexKeys m) (List.filter Obj.isArrayIndex (map fst m)).
Proof.
  unfold Obj.indexKeys. rewrite sorted_Permutation.
  induction m as [|[k v] m IH]; simpl; [reflexivity|].
  unfold Obj.isArrayIndex at 1.
  destruct (Obj.arrayIndex k); simpl; [apply perm_skip|]; exact IH.
Qed.

Lemma keys_NoDup {V : Type} (m : Obj.t V) :
  NoDup (map fst m) -> NoDup (Obj.keys m).
Proof.
  intros H. unfold Obj.keys. apply NoDup_app.
  - eapply Permutation_NoDup; [symmetry; apply indexKeys_Permutation|].
    apply NoDup_filter, H.
  - apply NoDup_filter, H.
  - intros k Hi Hn. apply In_indexKeys in Hi as [_ Hi].
    apply filter_In in Hn as [_ Hn]. rewrite Hi in Hn. discriminate.
Qed.

Lemma set_NoDup {V : Type} (m : Obj.t V) (k : string) (v : V) :
  NoDup (map fst m) -> NoDup (map fst (Obj.set m k v)).
Proof.
  intros H. destruct (in_dec string_dec k (map fst m)) as [Hin|Hout].
  - rewrite (keys_set_present _ _ _ Hin). exact H.
  - rewrite (keys_set_absent _ _ _ Hout). apply NoDup_app.
    + exact H.
    + repeat constructor. intros [].
    + intros a Ha [<-|[]]. contradiction.
Qed.

(** The dictionary never holds a key twice. *)
Lemma index_NoDup (maxDepth : Z) (treeItems : list TreeItem) :
  forall m, NoDup (map fst m) ->
            NoDup (map fst (fold_left (declared maxDepth) treeItems m)).
Proof.
  induction treeItems as [|i treeItems IH]; intros m H; [exact H|].
  simpl. apply IH. unfold declared.
  destruct (tooDeep maxDepth (path i) || String.eqb (path i) "__proto__");
    [exact H|apply set_NoDup, H].
Qed.

Lemma subseq_NoDup {A : Type} (l1 l2 : list A) :
  subseq l1 l2 -> NoDup l2 -> NoDup l1.
Proof.
  induction 1 as [|x l1 l2 _ IH|x l1 l2 Hs IH]; intros H.
  - constructor.
  - inversion H. auto.
  - inversion H as [|? ? Hx Hl]. subst. constructor; [|auto].
    intros Hin. apply Hx. eapply subseq_In; eassumption.
Qed.

Lemma NoDup_map_In {A B : Type} (f : A -> B) (l : list A) (a b : A) :
  NoDup (map f l) -> In a l -> In b l -> f a = f b -> a = b.
Proof.
  induction l as [|x l IH]; simpl; [contradiction|].
  intros H Ha Hb E. inversion H as [|? ? Hx Hl]. subst.
  destruct Ha as [->|Ha], Hb as [->|Hb]; auto.
  - exfalso. apply Hx. rewrite E. apply in_map, Hb.
  - exfalso. apply Hx. rewrite <- E. apply in_map, Ha.
Qed.

Lemma paths_of_shapes (kids : list FileTree) (ds fs : list string) :
  map shapeOf kids = map shapeOfRef (map RDir ds ++ map RFile fs)%list ->
  map pathOf kids = (ds ++ fs)%list.
Proof.
  intros H. apply (f_equal (map fst)) in H.
  rewrite !map_map, map_app, !map_map in H. cbn [shapeOf shapeOfRef fst] in H.
  rewrite !map_id in H. exact H.
Qed.

(** X9: when no two entries of the input share a path, no two members of a
    children array share a path, and neither do two roots. *)
Theorem children_have_distinct_paths (items : list TreeItem)
  (ignorePatterns : list string) (maxDepth : Z) (forest : list FileTree) :
  NoDup (map path items) ->
  buildFileTree items ignorePatterns maxDepth = Returns forest ->
  NoDup (map pathOf forest)
  /\ forall node kids,
      inForest node forest -> childrenOf node = Some kids ->
      NoDup (map pathOf kids).
Proof.
  intros Hnd H.
  apply built_forest in H as (h & treeItems & blobItems & _ & HT & HB & W & Hf).
  set (index := fold_left (declared maxDepth) treeItems []) in *.
  set (files := map path (List.filter (withinDepth maxDepth) blobItems)) in *.
  assert (Hindex : NoDup (map fst index)).
  { apply index_NoDup. constructor. }
  assert (Hfiles : NoDup files).
  { apply (subseq_NoDup files (map path items)); [|exact Hnd].
    apply subseq_map. eapply subseq_trans; [apply subseq_filter|].
    eapply subseq_trans; [apply (selected_subseq _ _ _ _ HB)|].
    apply subseq_filter. }
  assert (Hdisjoint : forall p, In p (map fst index) -> ~ In p files).
  { intros p Hd Hfile.
    apply index_In in Hd as (i & Hi & Ei & _).
    apply files_In in Hfile as (j & Hj & Ej & _).
    apply (selected_In _ _ _ _ i HT) in Hi as (Hi & Ti & _).
    apply (selected_In _ _ _ _ j HB) in Hj as (Hj & Tj & _).
    assert (i = j) by (apply (NoDup_map_In path items); congruence).
    subst j. rewrite Ti in Tj. discriminate. }
  split.
  - rewrite (paths_of_shapes forest (rootsIn (Obj.keys index)) (rootsIn files)).
    + apply NoDup_app.
      * apply NoDup_filter, keys_NoDup, Hindex.
      * apply NoDup_filter, Hfiles.
      * intros p Hd Hfile. apply rootsIn_spec in Hd as [Hd _].
        apply rootsIn_spec in Hfile as [Hfile _].
        apply In_keys in Hd. exact (Hdisjoint p Hd Hfile).
    + rewrite <- (wired_root _ _ _ W). eapply reified_shapes, Hf.
  - intros node kids Hin Hkids.
    destruct (built_children _ _ _ _ _ _ W Hf Hin Hkids) as [_ Es].
    rewrite (paths_of_shapes _ _ _ Es). apply NoDup_app.
    + apply NoDup_filter, NoDup_filter, Hindex.
    + apply NoDup_filter, Hfiles.
    + intros p Hd Hfile. apply childrenIn_spec in Hd as [Hd _].
      apply childrenIn_spec in Hfile as [Hfile _].
      apply filter_In in Hd as [Hd _]. exact (Hdisjoint p Hd Hfile).
Qed.

Lemma children_have_distinct_paths_witness :
  NoDup (map pathOf interleavedForest)
  /\ forall node kids,
      inForest node interleavedForest -> childrenOf node = Some kids ->
      NoDup (map pathOf kids).
Proof.
  apply (children_have_distinct_paths interleaved [] (-1)).
  - repeat constructor; simpl; intuition discriminate.
  - vm_compute. reflexivity.
Defined.

(** ** Walking the forest *)

Lemma FileTree_nested_ind (P : FileTree -> Prop) :
  (forall p ty, P (Node p ty None)) ->
  (forall p ty kids, Forall P kids -> P (Node p ty (Some kids))) ->
  forall t, P t.
Proof.
  intros Hleaf Hnode. fix IH 1. intros [p ty [kids|]]; [|apply Hleaf].
  apply Hnode. induction kids as [|c kids IHkids]; constructor.
  - apply IH.
  - exact IHkids.
Qed.

Lemma flattenNode_eq (p : string) (ty : NodeType)
  (kids : option (list FileTree)) :
  flattenNode (Node p ty kids)
  = Node p ty kids
    :: match kids with
       | Some l => flat_map flattenNode l
       | None => []
       end.
Proof.
  destruct kids as [l|]; reflexivity.
Qed.

Lemma indented_eq (indent p : string) (ty : NodeType)
  (kids : option (list FileTree)) :
  indented indent (Node p ty kids)
  = (indent, Node p ty kids)
    :: match kids with
       | Some l => flat_map (indented (indent ++ "  ")) l
       | None => []
       end.
Proof.
  destruct kids as [l|]; reflexivity.
Qed.

Lemma generateFileTreeMarkdown_eq (indent p : string) (ty : NodeType)
  (kids : option (list FileTree)) :
  generateFileTreeMarkdown indent (Node p ty kids)
  = lineOf (indent, Node p ty kids)
    ++ match kids with
       | Some l => concatAll (map (generateFileTreeMarkdown (indent ++ "  ")) l)
       | None => ""
       end.
Proof.
  assert (K : forall l,
             (fix each (l : list FileTree) : string :=
                match l with
                | [] => ""
                | c :: l' =>
                    generateFileTreeMarkdown (indent ++ "  ") c ++ each l'
                end) l
             = concatAll (map (generateFileTreeMarkdown (indent ++ "  ")) l)).
  { induction l as [|c l IH]; [reflexivity|].
    cbn [map concatAll fold_right]. rewrite IH. reflexivity. }
  unfold lineOf. cbn [generateFileTreeMarkdown typeOf pathOf].
  destruct kids as [l|]; [rewrite K|]; rewrite !append_assoc; reflexivity.
Qed.

Lemma flattenNode_inTree (node t : FileTree) :
  In node (flattenNode t) <-> inTree node t.
Proof.
  induction t as [p ty|p ty kids IH] using FileTree_nested_ind;
    rewrite flattenNode_eq; cbn [In].
  - split.
    + intros [<-|[]]. apply inTree_here.
    + intros H. inversion H. left. reflexivity.
  - rewrite in_flat_map. rewrite Forall_forall in IH. split.
    + intros [<-|(c & Hc & Hin)]; [apply inTree_here|].
      eapply inTree_below; [exact Hc|]. apply (IH c Hc), Hin.
    + intros H. inversion H as [E|p' ty' kids' c Hc Hbelow E]; subst.
      * left. reflexivity.
      * right. exists c. split; [exact Hc|]. apply (IH c Hc), Hbelow.
Qed.

(** X10: the pre-order walk visits exactly the nodes of the forest, so the
    assembler's file list is exactly the file nodes of the forest. *)
Theorem flattenTree_visits_every_node :
  forall forest node,
    (In node (flattenTree forest) <-> inForest node forest)
    /\ (In node (filesOf forest) <->
        inForest node forest /\ typeOf node = file).
Proof.
  intros forest node.
  assert (H : In node (flattenTree forest) <-> inForest node forest).
  { unfold flattenTree, inForest. rewrite in_flat_map.
    split; intros (t & Ht & Hin); exists t; (split; [exact Ht|]);
      apply flattenNode_inTree, Hin. }
  split; [exact H|].
  unfold filesOf. rewrite filter_In, H. unfold isFile.
  destruct (typeOf node); intuition discriminate.
Qed.

Lemma concatAll_app (l1 l2 : list string) :
  concatAll (l1 ++ l2) = concatAll l1 ++ concatAll l2.
Proof.
  induction l1 as [|x l1 IH]; [reflexivity|].
  cbn [app concatAll fold_right]. fold (concatAll (l1 ++ l2)).
  fold (concatAll l1). rewrite IH, append_assoc. reflexivity.
Qed.

Lemma generateFileTreeMarkdown_lines (t : FileTree) :
  forall indent,
    generateFileTreeMarkdown indent t
    = concatAll (map lineOf (indented indent t))
    /\ map snd (indented indent t) = flattenNode t.
Proof.
  induction t as [p ty|p ty kids IH] using FileTree_nested_ind; intros indent;
    rewrite generateFileTreeMarkdown_eq, indented_eq, flattenNode_eq.
  - split; reflexivity.
  - cbn [map concatAll fold_right snd]. fold (concatAll
      (map lineOf (flat_map (indented (indent ++ "  ")) kids))).
    assert (G : concatAll (map (generateFileTreeMarkdown (indent ++ "  ")) kids)
                = concatAll (map lineOf
                     (flat_map (indented (indent ++ "  ")) kids))
                /\ map snd (flat_map (indented (indent ++ "  ")) kids)
                   = flat_map flattenNode kids).
    { induction IH as [|c kids Hc _ IHkids]; [split; reflexivity|].
      destruct IHkids as [G1 G2]. destruct (Hc (indent ++ "  ")) as [C1 C2].
      cbn [map flat_map concatAll fold_right].
      fold (concatAll (map (generateFileTreeMarkdown (indent ++ "  ")) kids)).
      rewrite !map_app, concatAll_app, C1, C2, G1, G2. split; reflexivity. }
    destruct G as [G1 G2]. rewrite G1, G2. split; reflexivity.
Qed.

(** X11: the structure section has one line per node of the forest, in the
    pre-order in which the file sections follow; a line is the indentation,
    two spaces per level, the icon of the node's type, and the last segment
    of its path. *)
Theorem structure_section_lists_the_walk :
  forall forest,
    generateForestMarkdown forest
    = concatAll (map lineOf (flat_map (indented "") forest))
    /\ map snd (flat_map (indented "") forest) = flattenTree forest.
Proof.
  intros forest. unfold generateForestMarkdown, flattenTree.
  induction forest as [|t forest [IH1 IH2]]; [split; reflexivity|].
  destruct (generateFileTreeMarkdown_lines t "") as [H1 H2].
  cbn [map flat_map concatAll fold_right].
  fold (concatAll (map (generateFileTreeMarkdown "") forest)).
  rewrite !map_app, concatAll_app, H1, H2, IH1, IH2. split; reflexivity.
Qed.

(** ** More on the assembler *)

Lemma fileSections_app (fetch : string -> option string)
  (ignorePatterns sourceIgnorePatterns : list string)
  (l1 l2 : list FileTree) :
  forall markdown,
    fileSections fetch ignorePatterns sourceIgnorePatterns (l1 ++ l2) markdown
    = (m <- fileSections fetch ignorePatterns sourceIgnorePatterns l1 markdown ;;
       fileSections fetch ignorePatterns sourceIgnorePatterns l2 m).
Proof.
  induction l1 as [|f l1 IH]; intros markdown; [reflexivity|].
  cbn [app fileSections].
  destruct (shouldIgnore (pathOf f) ignorePatterns) as [[|]| |];
    cbn [bind]; try reflexivity; [apply IH|].
  destruct (catch _ _) as [s| |]; cbn [bind]; try reflexivity. apply IH.
Qed.

Lemma fileSections_skipping (fetch : string -> option string)
  (ignorePatterns sourceIgnorePatterns : list string)
  (flatFiles : list FileTree) :
  Forall (fun f => shouldIgnore (pathOf f) ignorePatterns = Returns true
                   \/ renderable fetch ignorePatterns sourceIgnorePatterns f)
         flatFiles ->
  forall markdown,
    fileSections fetch ignorePatterns sourceIgnorePatterns flatFiles markdown
    = Returns
        (markdown
         ++ concatAll
              (map (fun f => sectionOf fetch sourceIgnorePatterns (pathOf f))
                   (List.filter
                      (fun f => holds (notIgnored ignorePatterns)
                                  {| path := pathOf f; type := "blob" |})
                      flatFiles))).
Proof.
  induction 1 as [|f rest Hf _ IH]; intros markdown.
  - simpl. rewrite append_nil_r. reflexivity.
  - cbn [fileSections List.filter]. unfold holds, notIgnored. cbn [path].
    destruct Hf as [Hf|Hf].
    + rewrite Hf. cbn [bind negb]. apply IH.
    + rewrite (proj1 Hf). cbn [bind negb map concatAll fold_right].
      rewrite (generateFileContentMarkdown_section _ _ _ _ Hf). cbn [catch bind].
      rewrite IH, append_assoc. reflexivity.
Qed.

(** X12: a file whose path the rules ignore gets no section: over files on
    which the rules answer, the document is the preamble followed by the
    sections of the files that are not ignored, in pre-order. *)
Theorem ignored_files_get_no_section (fetch : string -> option string)
  (repoInfoMarkdown contributorsMarkdown : string) (fileTree : list FileTree)
  (ignorePatterns sourceIgnorePatterns : list string) :
  Forall (fun f => shouldIgnore (pathOf f) ignorePatterns = Returns true
                   \/ renderable fetch ignorePatterns sourceIgnorePatterns f)
         (filesOf fileTree) ->
  generateRepositoryMarkdown fetch repoInfoMarkdown contributorsMarkdown
    fileTree ignorePatterns sourceIgnorePatterns
  = Returns
      (preamble repoInfoMarkdown contributorsMarkdown fileTree
       ++ concatAll
            (map (fun f => sectionOf fetch sourceIgnorePatterns (pathOf f))
                 (List.filter
                    (fun f => holds (notIgnored ignorePatterns)
                                {| path := pathOf f; type := "blob" |})
                    (filesOf fileTree)))).
Proof.
  intros H. unfold generateRepositoryMarkdown. fold (filesOf fileTree).
  rewrite (fileSections_skipping _ _ _ _ H).
  unfold preamble. rewrite !append_assoc. reflexivity.
Qed.

Lemma ignored_files_witness :
  generateRepositoryMarkdown sampleFetch "# repo" "" sample ["*.md"] []
  = Returns
      (preamble "# repo" "" sample
       ++ concatAll
            (map (fun f => sectionOf sampleFetch [] (pathOf f))
                 (List.filter
                    (fun f => holds (notIgnored ["*.md"])
                                {| path := pathOf f; type := "blob" |})
                    (filesOf sample)))).
Proof.
  apply ignored_files_get_no_section.
  change (filesOf sample)
    with [Node "src/a.ts" file None; Node "src/b.ts" file None;
          Node "README.md" file None].
  repeat apply Forall_cons; try apply Forall_nil.
  - right. split; [vm_compute; reflexivity|intros c _; discriminate].
  - right. split; [vm_compute; reflexivity|intros c _; discriminate].
  - left. vm_compute. reflexivity.
Defined.

(** X13: a line rule that makes the filter throw costs every fetched file
    its code block: each section is the failure notice, and the document is
    still returned. *)
Theorem throwing_line_rule_blanks_the_sections
  (fetch : string -> option string)
  (repoInfoMarkdown contributorsMarkdown : string) (fileTree : list FileTree)
  (ignorePatterns sourceIgnorePatterns : list string) :
  Forall (fun f =>
            shouldIgnore (pathOf f) ignorePatterns = Returns false
            /\ forall content,
                fetch (pathOf f) = Some content ->
                exists e, filteredContent content sourceIgnorePatterns
                          = Throws e)
         (filesOf fileTree) ->
  generateRepositoryMarkdown fetch repoInfoMarkdown contributorsMarkdown
    fileTree ignorePatterns sourceIgnorePatterns
  = Returns
      (preamble repoInfoMarkdown contributorsMarkdown fileTree
       ++ concatAll (map (fun f => failureSection (pathOf f))
                         (filesOf fileTree))).
Proof.
  intros H. unfold generateRepositoryMarkdown. fold (filesOf fileTree).
  rewrite fileSections_sections.
  - assert (E : map (fun f => sectionOf fetch sourceIgnorePatterns (pathOf f))
                    (filesOf fileTree)
                = map (fun f => failureSection (pathOf f)) (filesOf fileTree)).
    { apply map_ext_in. intros f Hf. rewrite Forall_forall in H.
      destruct (H f Hf) as [_ Hc]. unfold sectionOf.
      destruct (fetch (pathOf f)) as [content|]; [|reflexivity].
      destruct (Hc content eq_refl) as [e ->]. reflexivity. }
    rewrite E. unfold preamble. rewrite !append_assoc. reflexivity.
  - rewrite Forall_forall in *. intros f Hf. destruct (H f Hf) as [Hi Hc].
    split; [exact Hi|]. intros content Hfetch.
    destruct (Hc content Hfetch) as [e ->]. discriminate.
Qed.

Lemma throwing_line_rule_witness :
  generateRepositoryMarkdown (fun _ => Some "let x = 1;") "# repo" "" sample
    [] ["["]
  = Returns
      (preamble "# repo" "" sample
       ++ concatAll (map (fun f => failureSection (pathOf f))
                         (filesOf sample))).
Proof.
  apply throwing_line_rule_blanks_the_sections.
  change (filesOf sample)
    with [Node "src/a.ts" file None; Node "src/b.ts" file None;
          Node "README.md" file None].
  repeat apply Forall_cons; try apply Forall_nil;
    (split; [vm_compute; reflexivity|]);
    intros content E; inversion E; subst;
    exists SyntaxError; vm_compute; reflexivity.
Defined.

(** X14: a path rule that throws on a file's path ends the assembly: after
    files that were rendered, the exception leaves
    [generateRepositoryMarkdown] and no document is returned. *)
Theorem throwing_path_rule_aborts_the_document
  (fetch : string -> option string)
  (repoInfoMarkdown contributorsMarkdown : string) (fileTree : list FileTree)
  (ignorePatterns sourceIgnorePatterns : list string)
  (before after : list FileTree) (f : FileTree) (e : exn) :
  filesOf fileTree = (before ++ f :: after)%list ->
  Forall (renderable fetch ignorePatterns sourceIgnorePatterns) before ->
  shouldIgnore (pathOf f) ignorePatterns = Throws e ->
  generateRepositoryMarkdown fetch repoInfoMarkdown contributorsMarkdown
    fileTree ignorePatterns sourceIgnorePatterns
  = Throws e.
Proof.
  intros Hfiles Hbefore Hf. unfold generateRepositoryMarkdown.
  fold (filesOf fileTree). rewrite Hfiles, fileSections_app.
  rewrite (fileSections_sections _ _ _ _ Hbefore). cbn [bind fileSections].
  rewrite Hf. reflexivity.
Qed.

Lemma throwing_path_rule_witness :
  generateRepositoryMarkdown sampleFetch "# repo" "" sample ["*.md"; "("] []
  = Throws SyntaxError.
Proof.
  apply (throwing_path_rule_aborts_the_document sampleFetch "# repo" "" sample
           ["*.md"; "("] [] []
           [Node "src/b.ts" file None; Node "README.md" file None]
           (Node "src/a.ts" file None)).
  - vm_compute. reflexivity.
  - constructor.
  - vm_compute. reflexivity.
Defined.

(** ** Repository URLs *)

Lemma stripPrefix_spec (p s rest : string) :
  stripPrefix p s = Some rest <-> s = p ++ rest.
Proof.
  revert s. induction p as [|c p IH]; intros s; simpl.
  - split; [intros H; inversion H; reflexivity|intros ->; reflexivity].
  - destruct s as [|x s]; [split; discriminate|].
    destruct (Ascii.eqb_spec x c) as [->|Hne].
    + rewrite IH. split; [intros ->; reflexivity|intros H; inversion H; reflexivity].
    + split; [discriminate|]. intros H. inversion H. contradiction.
Qed.

Lemma untilSlash_spec (s run rest : string) :
  untilSlash s = (run, rest) ->
  s = run ++ rest /\ RegExp.mentions "/" run = false
  /\ (rest = "" \/ exists rest', rest = String "/" rest').
Proof.
  revert run rest. induction s as [|c s IH]; intros run rest; simpl.
  - intros H. inversion H. auto.
  - destruct (Ascii.eqb c "/") eqn:E.
    + intros H. inversion H. apply Ascii.eqb_eq in E. subst c.
      repeat split. right. eauto.
    + destruct (untilSlash s) as [run' rest'].
      intros H. inversion H. subst.
      destruct (IH run' rest eq_refl) as (-> & Hrun & Hrest).
      repeat split; [|exact Hrest]. simpl. rewrite E. exact Hrun.
Qed.

Lemma untilSlash_run (run rest : string) :
  RegExp.mentions "/" run = false ->
  (rest = "" \/ exists rest', rest = String "/" rest') ->
  untilSlash (run ++ rest) = (run, rest).
Proof.
  intros Hrun Hrest. induction run as [|c run IH]; simpl.
  - destruct Hrest as [->|[rest' ->]]; reflexivity.
  - simpl in Hrun. apply orb_false_iff in Hrun as [Hc Hrun].
    rewrite Hc, (IH Hrun). reflexivity.
Qed.

Lemma repoAt_spec (s o r : string) :
  repoAt s = Some (o, r) ->
  exists post,
    s = "github.com/" ++ o ++ "/" ++ r ++ post
    /\ o <> "" /\ RegExp.mentions "/" o = false
    /\ r <> "" /\ RegExp.mentions "/" r = false
    /\ (post = "" \/ exists post', post = String "/" post').
Proof.
  unfold repoAt. destruct (stripPrefix "github.com/" s) as [rest|] eqn:E;
    [|discriminate].
  apply stripPrefix_spec in E. subst s.
  destruct (untilSlash rest) as [o' rest1] eqn:E1.
  destruct o' as [|c o']; [discriminate|].
  destruct rest1 as [|x rest2]; [discriminate|].
  destruct (untilSlash rest2) as [r' post] eqn:E2.
  destruct r' as [|d r']; [discriminate|].
  intros H. inversion H. subst o r. clear H.
  apply untilSlash_spec in E1 as (-> & Ho & [Hx|[rest' Hx]]); [discriminate|].
  inversion Hx. subst x rest'.
  apply untilSlash_spec in E2 as (-> & Hr & Hpost).
  exists post. repeat split; try discriminate; assumption.
Qed.

Lemma matchRepo_spec (url o r : string) :
  matchRepo url = Some (o, r) ->
  exists pre post,
    url = pre ++ "github.com/" ++ o ++ "/" ++ r ++ post
    /\ o <> "" /\ RegExp.mentions "/" o = false
    /\ r <> "" /\ RegExp.mentions "/" r = false
    /\ (post = "" \/ exists post', post = String "/" post').
Proof.
  induction url as [|c url IH]; cbn [matchRepo].
  - destruct (repoAt "") as [g|] eqn:E; [|discriminate].
    intros H. inversion H. subst g.
    destruct (repoAt_spec _ _ _ E) as (post & H1 & H2). exists "", post. auto.
  - destruct (repoAt (String c url)) as [g|] eqn:E.
    + intros H. inversion H. subst g.
      destruct (repoAt_spec _ _ _ E) as (post & H1 & H2). exists "", post. auto.
    + intros H. destruct (IH H) as (pre & post & -> & H2).
      exists (String c pre), post. auto.
Qed.

(** X15: what [parseRepoUrl] answers is read off an occurrence of
    [github.com/owner/name] in the URL: the owner is a non-empty run without
    slash, the name is such a run with its first [.git] removed, the run
    ends at a slash or at the end of the URL, and a URL without
    [github.com/] gets no answer. *)
Theorem parseRepoUrl_reads_owner_and_name (url : string) :
  (forall info,
      parseRepoUrl url = Some info ->
      exists pre name post,
        url = pre ++ "github.com/" ++ owner info ++ "/" ++ name ++ post
        /\ repo info = replaceFirst ".git" "" name
        /\ owner info <> "" /\ RegExp.mentions "/" (owner info) = false
        /\ name <> "" /\ RegExp.mentions "/" name = false
        /\ (post = "" \/ exists post', post = String "/" post'))
  /\ ((forall pre post, url <> pre ++ "github.com/" ++ post) ->
      parseRepoUrl url = None).
Proof.
  split.
  - intros info. unfold parseRepoUrl.
    destruct (matchRepo url) as [[o r]|] eqn:E; [|discriminate].
    intros H. inversion H. subst info. cbn [owner repo].
    destruct (matchRepo_spec _ _ _ E) as (pre & post & H1 & H2).
    exists pre, r, post. auto.
  - intros Hno. unfold parseRepoUrl.
    destruct (matchRepo url) as [[o r]|] eqn:E; [|reflexivity].
    destruct (matchRepo_spec _ _ _ E) as (pre & post & H1 & _).
    exfalso. exact (Hno pre _ H1).
Qed.

Lemma parseRepoUrl_witness :
  exists pre name post,
    "https://github.com/tacyan/github-docs.git/tree/main"
    = pre ++ "github.com/" ++ "tacyan" ++ "/" ++ name ++ post
    /\ "github-docs" = replaceFirst ".git" "" name
    /\ "tacyan" <> "" /\ RegExp.mentions "/" "tacyan" = false
    /\ name <> "" /\ RegExp.mentions "/" name = false
    /\ (post = "" \/ exists post', post = String "/" post').
Proof.
  exact (proj1 (parseRepoUrl_reads_owner_and_name
                  "https://github.com/tacyan/github-docs.git/tree/main")
               {| owner := "tacyan"; repo := "github-docs" |} eq_refl).
Defined.

Lemma repoAt_here (o name post : string) :
  o <> "" -> RegExp.mentions "/" o = false ->
  name <> "" -> RegExp.mentions "/" name = false ->
  (post = "" \/ exists post', post = String "/" post') ->
  repoAt ("github.com/" ++ o ++ "/" ++ name ++ post) = Some (o, name).
Proof.
  intros Ho Hso Hn Hsn Hpost. unfold repoAt.
  assert (E : stripPrefix "github.com/" ("github.com/" ++ o ++ "/" ++ name ++ post)
              = Some (o ++ "/" ++ name ++ post))
    by (apply stripPrefix_spec; reflexivity).
  rewrite E.
  rewrite (untilSlash_run o ("/" ++ name ++ post) Hso)
    by (right; exists (name ++ post); reflexivity).
  destruct o as [|c o]; [contradiction|]. cbn [append].
  rewrite (untilSlash_run name post Hsn Hpost).
  destruct name as [|d name]; [contradiction|]. reflexivity.
Qed.

Lemma matchRepo_leftmost (pre o name post : string) :
  RegExp.mentions "g" pre = false ->
  o <> "" -> RegExp.mentions "/" o = false ->
  name <> "" -> RegExp.mentions "/" name = false ->
  (post = "" \/ exists post', post = String "/" post') ->
  matchRepo (pre ++ "github.com/" ++ o ++ "/" ++ name ++ post) = Some (o, name).
Proof.
  intros Hpre Ho Hso Hn Hsn Hpost. induction pre as [|c pre IH].
  - change ("" ++ "github.com/" ++ o ++ "/" ++ name ++ post)
      with ("github.com/" ++ o ++ "/" ++ name ++ post).
    pose proof (repoAt_here o name post Ho Hso Hn Hsn Hpost) as E.
    cbn [append] in E |- *. cbn [matchRepo]. rewrite E. reflexivity.
  - simpl in Hpre. apply orb_false_iff in Hpre as [Hc Hpre].
    specialize (IH Hpre). revert IH.
    generalize ("github.com/" ++ o ++ "/" ++ name ++ post). intros rest IH.
    change (String c pre ++ rest) with (String c (pre ++ rest)).
    assert (E : repoAt (String c (pre ++ rest)) = None).
    { unfold repoAt. cbn [stripPrefix]. rewrite Hc. reflexivity. }
    cbn [matchRepo]. rewrite E. exact IH.
Qed.

Lemma replaceFirst_skips (pat by_ a s : string) (c : ascii) :
  RegExp.mentions c a = false ->
  replaceFirst (String c pat) by_ (a ++ s)
  = a ++ replaceFirst (String c pat) by_ s.
Proof.
  intros Ha. induction a as [|x a IH]; [reflexivity|].
  simpl in Ha. apply orb_false_iff in Ha as [Hx Ha].
  cbn [append replaceFirst stripPrefix]. rewrite Hx, (IH Ha). reflexivity.
Qed.

Lemma replaceFirst_here (pat by_ s : string) :
  replaceFirst pat by_ (pat ++ s) = by_ ++ s.
Proof.
  assert (E : stripPrefix pat (pat ++ s) = Some s)
    by (apply stripPrefix_spec; reflexivity).
  destruct pat as [|c pat]; [destruct s; reflexivity|].
  cbn [append replaceFirst] in E |- *. rewrite E. reflexivity.
Qed.

Lemma replaceFirst_absent (pat by_ a : string) (c : ascii) :
  RegExp.mentions c a = false ->
  replaceFirst (String c pat) by_ a = a.
Proof.
  intros Ha. induction a as [|x a IH]; [reflexivity|].
  simpl in Ha. apply orb_false_iff in Ha as [Hx Ha].
  cbn [replaceFirst stripPrefix]. rewrite Hx, (IH Ha). reflexivity.
Qed.

(** X16: an address that reaches [github.com/] without a letter g before it
    ([https://], [http://www.], nothing at all) and goes on with an owner
    and a name, up to a slash or the end, is read as that owner and that
    name; a name without a dot comes back unchanged. *)
Theorem parseRepoUrl_of_a_web_address (pre o name post : string) :
  RegExp.mentions "g" pre = false ->
  o <> "" -> RegExp.mentions "/" o = false ->
  name <> "" -> RegExp.mentions "/" name = false ->
  (post = "" \/ exists post', post = String "/" post') ->
  parseRepoUrl (pre ++ "github.com/" ++ o ++ "/" ++ name ++ post)
  = Some {| owner := o; repo := replaceFirst ".git" "" name |}
  /\ (RegExp.mentions "." name = false ->
      parseRepoUrl (pre ++ "github.com/" ++ o ++ "/" ++ name ++ post)
      = Some {| owner := o; repo := name |}).
Proof.
  intros Hpre Ho Hso Hn Hsn Hpost.
  unfold parseRepoUrl.
  rewrite (matchRepo_leftmost pre o name post Hpre Ho Hso Hn Hsn Hpost).
  split; [reflexivity|].
  intros Hdot. rewrite (replaceFirst_absent "git" "" name "." Hdot).
  reflexivity.
Qed.

Lemma parseRepoUrl_of_a_web_address_witness :
  parseRepoUrl "https://github.com/tacyan/docs/blob/main/README.md"
  = Some {| owner := "tacyan"; repo := "docs" |}.
Proof.
  refine (proj2 (parseRepoUrl_of_a_web_address
                   "https://" "tacyan" "docs" "/blob/main/README.md"
                   eq_refl _ eq_refl _ eq_refl _) eq_refl);
    try discriminate.
  right. exists "blob/main/README.md". reflexivity.
Defined.

(** X17: the first [.git] of the name is cut out wherever it stands: the
    suffix of a clone address goes, and so does the [.git] inside a name
    such as [user.github.io], which is read as [userhub.io]. *)
Theorem parseRepoUrl_cuts_the_first_dot_git (pre o a b post : string) :
  RegExp.mentions "g" pre = false ->
  o <> "" -> RegExp.mentions "/" o = false ->
  RegExp.mentions "/" a = false -> RegExp.mentions "." a = false ->
  RegExp.mentions "/" b = false ->
  (post = "" \/ exists post', post = String "/" post') ->
  parseRepoUrl (pre ++ "github.com/" ++ o ++ "/" ++ (a ++ ".git" ++ b) ++ post)
  = Some {| owner := o; repo := a ++ b |}.
Proof.
  intros Hpre Ho Hso Hsa Hda Hsb Hpost.
  unfold parseRepoUrl.
  assert (Hn : a ++ ".git" ++ b <> "") by (destruct a; discriminate).
  assert (Hsn : RegExp.mentions "/" (a ++ ".git" ++ b) = false).
  { clear - Hsa Hsb. induction a as [|x a IH]; [exact Hsb|].
    simpl in Hsa |- *. apply orb_false_iff in Hsa as [Hx Ha].
    rewrite Hx. exact (IH Ha). }
  rewrite (matchRepo_leftmost pre o _ post Hpre Ho Hso Hn Hsn Hpost).
  rewrite (replaceFirst_skips "git" "" a (".git" ++ b) "." Hda).
  rewrite (replaceFirst_here ".git" "" b). reflexivity.
Qed.

Lemma parseRepoUrl_cuts_the_first_dot_git_witness :
  parseRepoUrl "https://github.com/tacyan/tacyan.github.io"
  = Some {| owner := "tacyan"; repo := "tacyanhub.io" |}.
Proof.
  refine (parseRepoUrl_cuts_the_first_dot_git
            "https://" "tacyan" "tacyan" "hub.io" ""
            eq_refl _ eq_refl eq_refl eq_refl eq_refl _);
    [discriminate|left; reflexivity].
Defined.

(** ** The search of the file tree view *)

Lemma keepSome_In {A B : Type} (f : A -> option B) (l : list A) (y : B) :
  In y (keepSome f l) <-> exists x, In x l /\ f x = Some y.
Proof.
  induction l as [|x l IH]; cbn [keepSome In].
  - split; [intros []|intros (x & [] & _)].
  - fold (keepSome f l). destruct (f x) as [z|] eqn:E; cbn [In]; rewrite IH.
    + split.
      * intros [<-|(x' & Hin & Hx')]; eauto.
      * intros (x' & [<-|Hin] & Hx'); [left; congruence|eauto].
    + split.
      * intros (x' & Hin & Hx'); eauto.
      * intros (x' & [<-|Hin] & Hx'); [congruence|eauto].
Qed.

Lemma keepSome_fixed {A : Type} (f : A -> option A) (l : list A) :
  Forall (fun y => f y = Some y) l -> keepSome f l = l.
Proof.
  induction 1 as [|y l Hy _ IH]; cbn [keepSome]; [reflexivity|].
  fold (keepSome f l). rewrite Hy, IH. reflexivity.
Qed.

Lemma keepSome_idempotent {A : Type} (f : A -> option A) (l : list A) :
  (forall x y, In x l -> f x = Some y -> f y = Some y) ->
  keepSome f (keepSome f l) = keepSome f l.
Proof.
  intros H. apply keepSome_fixed. apply Forall_forall. intros y Hy.
  apply keepSome_In in Hy as (x & Hin & Hx). exact (H x y Hin Hx).
Qed.

Lemma keepSome_subseq {A B : Type} (f : A -> option A) (g : A -> B)
      (l : list A) :
  (forall x y, In x l -> f x = Some y -> g y = g x) ->
  subseq (map g (keepSome f l)) (map g l).
Proof.
  induction l as [|x l IH]; intros H; cbn [keepSome map]; [auto|].
  fold (keepSome f l).
  assert (IH' : subseq (map g (keepSome f l)) (map g l))
    by (apply IH; intros x' y Hin; apply H; right; exact Hin).
  destruct (f x) as [y|] eqn:E; cbn [map]; [|auto].
  rewrite (H x y (or_introl eq_refl) E). auto.
Qed.

Lemma filterNode_eq (term p : string) (ty : NodeType)
      (kids : option (list FileTree)) :
  filterNode term (Node p ty kids)
  = if found term (Node p ty kids) then Some (Node p ty kids)
    else match kids with
         | Some ((_ :: _) as children) =>
             match keepSome (filterNode term) children with
             | [] => None
             | filteredChildren => Some (Node p ty (Some filteredChildren))
             end
         | _ => None
         end.
Proof. reflexivity. Qed.

Lemma filterNode_found (term p : string) (ty : NodeType)
      (kids : option (list FileTree)) :
  found term (Node p ty kids) = true ->
  filterNode term (Node p ty kids) = Some (Node p ty kids).
Proof. intros H. rewrite filterNode_eq, H. reflexivity. Qed.

Lemma filterNode_below (term p : string) (ty : NodeType)
      (kids : option (list FileTree)) (t' : FileTree) :
  found term (Node p ty kids) = false ->
  filterNode term (Node p ty kids) = Some t' ->
  exists children,
    kids = Some children
    /\ keepSome (filterNode term) children <> []
    /\ t' = Node p ty (Some (keepSome (filterNode term) children)).
Proof.
  intros H. rewrite filterNode_eq, H.
  destruct kids as [[|c cs]|]; try discriminate. cbv beta iota.
  destruct (keepSome (filterNode term) (c :: cs)) as [|y ys] eqn:E;
    [discriminate|].
  intros H'. inversion H'. exists (c :: cs). rewrite E.
  repeat split. discriminate.
Qed.

Lemma filterNode_descends (term p : string) (ty : NodeType)
      (children : list FileTree) :
  found term (Node p ty (Some children)) = false ->
  keepSome (filterNode term) children <> [] ->
  filterNode term (Node p ty (Some children))
  = Some (Node p ty (Some (keepSome (filterNode term) children))).
Proof.
  intros H Hne. rewrite filterNode_eq, H.
  destruct children as [|c cs]; [contradiction|]. cbv beta iota.
  destruct (keepSome (filterNode term) (c :: cs)) as [|y ys] eqn:E;
    [contradiction|reflexivity].
Qed.

Lemma filterNode_keeps (term : string) (node t : FileTree) :
  inTree node t -> found term node = true ->
  exists t', filterNode term t = Some t' /\ inTree node t'.
Proof.
  intros Hin Hf. induction Hin as [|p ty kids c Hc Hin IH].
  - exists node. split; [|apply inTree_here].
    destruct node as [p ty kids]. exact (filterNode_found term p ty kids Hf).
  - destruct IH as (c' & Hc' & Hin').
    destruct (found term (Node p ty (Some kids))) eqn:E.
    + exists (Node p ty (Some kids)). split.
      * exact (filterNode_found term p ty (Some kids) E).
      * exact (inTree_below node p ty kids c Hc Hin).
    + assert (Hk : In c' (keepSome (filterNode term) kids))
        by (apply keepSome_In; eauto).
      exists (Node p ty (Some (keepSome (filterNode term) kids))). split.
      * apply (filterNode_descends term p ty kids E).
        intros Hnil. rewrite Hnil in Hk. exact Hk.
      * exact (inTree_below node p ty _ c' Hk Hin').
Qed.

Lemma filterNode_shape (term : string) (t t' : FileTree) :
  filterNode term t = Some t' -> shapeOf t' = shapeOf t.
Proof.
  destruct t as [p ty kids]. intros H.
  destruct (found term (Node p ty kids)) eqn:E.
  - rewrite (filterNode_found term p ty kids E) in H. inversion H. reflexivity.
  - destruct (filterNode_below term p ty kids t' E H) as (ch & _ & _ & ->).
    reflexivity.
Qed.

Lemma filterNode_fixed (term : string) (t : FileTree) :
  forall t', filterNode term t = Some t' -> filterNode term t' = Some t'.
Proof.
  induction t as [p ty|p ty kids IH] using FileTree_nested_ind; intros t' H.
  - destruct (found term (Node p ty None)) eqn:E.
    + rewrite (filterNode_found term p ty None E) in H. inversion H. subst t'.
      exact (filterNode_found term p ty None E).
    + destruct (filterNode_below term p ty None t' E H) as (ch & Hk & _).
      discriminate.
  - destruct (found term (Node p ty (Some kids))) eqn:E.
    + rewrite (filterNode_found term p ty (Some kids) E) in H. inversion H.
      subst t'. exact (filterNode_found term p ty (Some kids) E).
    + destruct (filterNode_below term p ty (Some kids) t' E H)
        as (ch & Hk & Hne & ->).
      inversion Hk. subst ch. rewrite Forall_forall in IH.
      assert (Hid : keepSome (filterNode term) (keepSome (filterNode term) kids)
                    = keepSome (filterNode term) kids).
      { apply keepSome_idempotent. intros x y Hx. exact (IH x Hx y). }
      rewrite (filterNode_descends term p ty
                 (keepSome (filterNode term) kids) E); rewrite Hid;
        [reflexivity|exact Hne].
Qed.

Lemma inTree_inv (n t : FileTree) :
  inTree n t ->
  n = t \/ exists c, (exists kids, childrenOf t = Some kids /\ In c kids)
                     /\ inTree n c.
Proof.
  intros [|p ty kids c Hc Hin]; [left; reflexivity|].
  right. exists c. split; [exists kids; auto|exact Hin].
Qed.

Lemma filterNode_shows (term : string) (t : FileTree) :
  forall t', filterNode term t = Some t' ->
  forall n, inTree n t' ->
  exists m, found term m = true /\ inTree m t' /\ (inTree n m \/ inTree m n).
Proof.
  induction t as [p ty|p ty kids IH] using FileTree_nested_ind; intros t' H n Hn.
  - destruct (found term (Node p ty None)) eqn:E.
    + rewrite (filterNode_found term p ty None E) in H. inversion H. subst t'.
      exists (Node p ty None). repeat split; [exact E|apply inTree_here|].
      left. exact Hn.
    + destruct (filterNode_below term p ty None t' E H) as (ch & Hk & _).
      discriminate.
  - destruct (found term (Node p ty (Some kids))) eqn:E.
    + rewrite (filterNode_found term p ty (Some kids) E) in H. inversion H.
      subst t'. exists (Node p ty (Some kids)).
      repeat split; [exact E|apply inTree_here|]. left. exact Hn.
    + destruct (filterNode_below term p ty (Some kids) t' E H)
        as (ch & Hk & Hne & ->).
      inversion Hk. subst ch. clear Hk H. rewrite Forall_forall in IH.
      assert (Hchild : forall c' n',
                In c' (keepSome (filterNode term) kids) -> inTree n' c' ->
                exists m, found term m = true /\ inTree m c'
                          /\ (inTree n' m \/ inTree m n')).
      { intros c' n' Hc' Hn'. apply keepSome_In in Hc' as (x & Hx & Hfx).
        exact (IH x Hx c' Hfx n' Hn'). }
      revert Hne Hchild Hn. generalize (keepSome (filterNode term) kids).
      intros shown Hne Hchild Hn.
      apply inTree_inv in Hn as [->|(c' & (kids' & Hk' & Hc') & Hin')].
      * destruct shown as [|c' rest]; [contradiction|].
        destruct (Hchild c' c' (or_introl eq_refl) (inTree_here c'))
          as (m & Hm & Hmc & _).
        assert (Hmt : inTree m (Node p ty (Some (c' :: rest))))
          by exact (inTree_below m p ty (c' :: rest) c' (or_introl eq_refl) Hmc).
        exists m. auto.
      * cbn [childrenOf] in Hk'. inversion Hk'. subst kids'.
        destruct (Hchild c' n Hc' Hin') as (m & Hm & Hmc & Hrel).
        exists m. split; [exact Hm|]. split; [|exact Hrel].
        exact (inTree_below m p ty _ c' Hc' Hmc).
Qed.

(** X18: the search never hides a match: a node of the tree whose path
    contains the term, letter case apart, is in the filtered tree, as it
    was, with everything below it. *)
Theorem filterTree_keeps_every_match (items : list FileTree) (term : string)
        (node : FileTree) :
  inForest node items -> found term node = true ->
  inForest node (filterTree items term).
Proof.
  intros (t & Ht & Hin) Hf. unfold filterTree.
  destruct (String.eqb term ""); [exists t; auto|].
  destruct (filterNode_keeps term node t Hin Hf) as (t' & Ht' & Hin').
  exists t'. split; [|exact Hin']. apply keepSome_In. eauto.
Qed.

Lemma filterTree_keeps_witness :
  inForest (Node "docs/Guide.md" file None)
           (filterTree [Node "src" dir (Some [Node "src/a.ts" file None]);
                        Node "docs" dir (Some [Node "docs/Guide.md" file None;
                                               Node "docs/api.md" file None])]
                       "GUIDE").
Proof.
  apply filterTree_keeps_every_match; [|reflexivity].
  exists (Node "docs" dir (Some [Node "docs/Guide.md" file None;
                                 Node "docs/api.md" file None])).
  split; [right; left; reflexivity|].
  apply (inTree_below _ "docs" dir _ (Node "docs/Guide.md" file None));
    [left; reflexivity|apply inTree_here].
Defined.

(** X19: the search shows nothing without a reason: every node of the
    filtered tree is a match, lies below a match, or has a match below it. *)
Theorem filterTree_shows_only_branches_with_a_match
        (items : list FileTree) (term : string) (n : FileTree) :
  inForest n (filterTree items term) ->
  exists m,
    found term m = true /\ inForest m (filterTree items term)
    /\ (inTree n m \/ inTree m n).
Proof.
  intros (t' & Ht' & Hn). unfold filterTree in *.
  destruct (String.eqb_spec term "") as [->|Hterm].
  - exists n. repeat split.
    + unfold found. destruct (JS.toLowerCase (pathOf n)); reflexivity.
    + exists t'. auto.
    + left. apply inTree_here.
  - apply keepSome_In in Ht' as (t & Ht & Hft).
    destruct (filterNode_shows term t t' Hft n Hn) as (m & Hm & Hmt & Hrel).
    exists m. repeat split; [exact Hm| |exact Hrel].
    exists t'. split; [|exact Hmt]. apply keepSome_In. eauto.
Qed.

Lemma filterTree_shows_witness :
  exists m,
    found "api" m = true
    /\ inForest m (filterTree
                     [Node "docs" dir (Some [Node "docs/api.md" file None])]
                     "api")
    /\ (inTree (Node "docs" dir (Some [Node "docs/api.md" file None])) m
        \/ inTree m (Node "docs" dir (Some [Node "docs/api.md" file None]))).
Proof.
  apply filterTree_shows_only_branches_with_a_match.
  exists (Node "docs" dir (Some [Node "docs/api.md" file None])).
  split; [left; reflexivity|apply inTree_here].
Defined.

(** X20: searching the result again with the same term changes nothing, and
    the roots of the result are roots of the tree, with their paths and
    types, in the order they had. *)
Theorem filterTree_is_an_idempotent_selection (items : list FileTree)
        (term : string) :
  filterTree (filterTree items term) term = filterTree items term
  /\ subseq (map shapeOf (filterTree items term)) (map shapeOf items).
Proof.
  unfold filterTree. destruct (String.eqb term "").
  - split; [reflexivity|apply subseq_refl].
  - split.
    + apply keepSome_idempotent. intros x y _. apply filterNode_fixed.
    + apply keepSome_subseq. intros x y _. apply filterNode_shape.
Qed.

(** ** File types and code fences *)

Lemma bySuffix_hit (names : list (string * string)) (filePath : string) :
  (exists name ty, In (name, ty) names /\ JS.endsWith filePath name = true) ->
  exists ty', bySuffix names filePath = Some ty' /\ In ty' (map snd names).
Proof.
  induction names as [|[suffix ty0] names IH]; intros (name & ty & Hin & He).
  - destruct Hin.
  - cbn [bySuffix map snd In].
    destruct (JS.endsWith filePath suffix) eqn:E; [eauto|].
    destruct Hin as [Heq|Hin]; [inversion Heq; congruence|].
    destruct IH as (ty' & H1 & H2); eauto.
Qed.

(** X21: a special file name decides by the end of the path, before the
    extension is looked at: whatever precedes [package.json], [README.md],
    [docker-compose.yml] and the other special names, the file gets one of
    the special types, and its code fence carries no language, although the
    extensions [json], [md] and [yml] alone would give it one. *)
Theorem special_names_get_a_plain_fence (before name ty : string) :
  In (name, ty) specialNames ->
  In (getFileType (before ++ name)) (map TypeName (map snd specialNames))
  /\ languageOf (getFileType (before ++ name)) = "".
Proof.
  intros Hin.
  destruct (bySuffix_hit specialNames (before ++ name)) as (ty' & Hby & Hty).
  { exists name, ty. split; [exact Hin|]. apply endsWith_spec. eauto. }
  unfold getFileType. rewrite Hby. split; [apply in_map, Hty|].
  cbn [specialNames map snd In] in Hty.
  repeat (destruct Hty as [<-|Hty]; [reflexivity|]). destruct Hty.
Qed.

Lemma special_names_witness :
  In (getFileType "docs/my-package.json")
     (map TypeName (map snd specialNames))
  /\ languageOf (getFileType "docs/my-package.json") = "".
Proof.
  apply (special_names_get_a_plain_fence "docs/my-" "package.json" "package-json").
  left. reflexivity.
Defined.

(** ** Line rules *)

Lemma js_filter_pure {A : Type} (f : A -> outcome bool) (g : A -> bool)
      (l : list A) :
  (forall x, f x = Returns (g x)) ->
  JS.filter f l = Returns (List.filter g l).
Proof.
  intros H. induction l as [|x l IH]; [reflexivity|].
  cbn [JS.filter List.filter]. rewrite H, IH. cbn [bind].
  destruct (g x); reflexivity.
Qed.

(** X22: a line rule is applied to a line as a path rule is to a path.  A
    rule made of plain characters removes the lines that are the rule, the
    lines whose text after the last slash is the rule, and the lines that
    end in the lock file's name; a line that merely contains the rule
    stays. *)
Theorem word_rule_removes_whole_lines (rule content : string) :
  literal rule = true ->
  JS.startsWith rule "#" = false -> JS.startsWith rule "!" = false ->
  JS.trimIsEmpty rule = false ->
  filteredContent content [rule]
  = Returns
      (JS.join LF
         (List.filter
            (fun line =>
               negb (String.eqb (fileNameOf line) lockFile
                     || String.eqb rule line
                     || String.eqb rule (fileNameOf line)))
            (JS.split "010" content))).
Proof.
  intros Hlit Hhash Hbang Htrim.
  assert (Hne : rule <> "") by (intros ->; discriminate).
  unfold filteredContent, filteredLines. cbn [length Nat.ltb Nat.leb].
  rewrite (js_filter_pure (keepLine [rule])
             (fun line =>
                negb (String.eqb (fileNameOf line) lockFile
                      || String.eqb rule line
                      || String.eqb rule (fileNameOf line)))).
  - reflexivity.
  - intros line. unfold keepLine. rewrite shouldIgnore_some.
    destruct (String.eqb (fileNameOf line) lockFile); [reflexivity|].
    cbn [JS.some]. unfold ruleFires. rewrite Hhash, Htrim, Hbang.
    cbn [orb]. rewrite (matchPattern_literal rule line Hlit Hne). cbn [bind].
    destruct (String.eqb rule line || String.eqb rule (fileNameOf line));
      reflexivity.
Qed.

Lemma word_rule_witness :
  filteredContent
    ("TODO" ++ LF ++ "// TODO: tidy up" ++ LF ++ "see notes/TODO" ++ LF ++ "done")
    ["TODO"]
  = Returns ("// TODO: tidy up" ++ LF ++ "done").
Proof.
  exact (word_rule_removes_whole_lines "TODO"
           ("TODO" ++ LF ++ "// TODO: tidy up" ++ LF ++ "see notes/TODO" ++ LF
            ++ "done")
           eq_refl eq_refl eq_refl eq_refl).
Defined.

(** ** The rules in the editor *)

Lemma filter_all {A : Type} (f : A -> bool) (l : list A) :
  Forall (fun x => f x = true) l -> List.filter f l = l.
Proof.
  induction 1 as [|x l Hx _ IH]; cbn [List.filter]; [reflexivity|].
  rewrite Hx, IH. reflexivity.
Qed.

Lemma editedPatterns_join (patterns : list string) :
  Forall (fun p => RegExp.mentions "010" p = false) patterns ->
  Forall (fun p => JS.trimIsEmpty p = false) patterns ->
  editedPatterns (JS.join LF patterns) = patterns.
Proof.
  intros Hlf Htrim. unfold editedPatterns.
  destruct patterns as [|p patterns]; [reflexivity|].
  unfold LF. rewrite split_join; [|discriminate|exact Hlf].
  apply filter_all. rewrite Forall_forall in *.
  intros x Hx. rewrite (Htrim x Hx). reflexivity.
Qed.

(** X23: the editor shows the rules joined by line feeds and reads its text
    back by splitting at line feeds and dropping the blank lines.  Rules
    without a line feed that are not blank come back as they were, and so do
    the rules loaded from an ignore file, whatever the file holds. *)
Theorem rules_survive_the_editor :
  (forall patterns,
      Forall (fun p => RegExp.mentions "010" p = false
                       /\ JS.trimIsEmpty p = false) patterns ->
      editedPatterns (JS.join LF patterns) = patterns)
  /\ (forall text,
         editedPatterns (JS.join LF (loadPatterns text)) = loadPatterns text).
Proof.
  split.
  - intros patterns H. rewrite Forall_forall in H.
    apply editedPatterns_join; apply Forall_forall; intros p Hp;
      apply (H p Hp).
  - intros text. apply editedPatterns_join; apply Forall_forall;
      intros p Hp; unfold loadPatterns in Hp; apply filter_In in Hp as [Hin Hk].
    + pose proof (split_segments_without_sep "010" text) as Hs.
      rewrite Forall_forall in Hs. exact (Hs p Hin).
    + apply andb_true_iff in Hk as [Hk _].
      destruct (JS.trimIsEmpty p); [discriminate|reflexivity].
Qed.

(** ** Rules that end in a slash *)

Lemma matchPattern_tests (pattern filePath : string) :
  metaFree pattern = true -> pattern <> "" ->
  String.eqb pattern filePath = false ->
  String.eqb pattern (fileNameOf filePath) = false ->
  matchPattern pattern filePath
  = Returns (glob pattern filePath || glob pattern (fileNameOf filePath)).
Proof.
  intros H Hne E1 E2. unfold matchPattern.
  apply String.eqb_neq in Hne. rewrite Hne, E1, E2.
  rewrite (create_compiled _ H). cbn [bind].
  rewrite !test_anchored, !run_compiled. reflexivity.
Qed.

Lemma glob_last (c : ascii) (p : string) :
  Ascii.eqb c "*" = false -> Ascii.eqb c "?" = false ->
  forall q s, p = q ++ String c "" -> glob p s = true ->
              exists s', s = s' ++ String c "".
Proof.
  intros Hstar Hask. induction p as [|a p IH]; intros q s Hp H.
  - destruct q; discriminate.
  - destruct q as [|b q]; cbn [append] in Hp; inversion Hp; subst.
    + cbn [glob] in H. rewrite Hstar, Hask in H.
      destruct s as [|x s]; [discriminate|].
      apply andb_true_iff in H as [Hx Hs]. apply Ascii.eqb_eq in Hx. subst x.
      destruct s; [exists ""; reflexivity|discriminate].
    + cbn [glob] in H. destruct (Ascii.eqb b "*").
      * induction s as [|x s IHs].
        -- rewrite orb_false_r in H. exact (IH q "" eq_refl H).
        -- apply orb_true_iff in H as [H|H]; [exact (IH q _ eq_refl H)|].
           apply andb_true_iff in H as [_ H].
           destruct (IHs H) as (s' & ->). exists (String x s'). reflexivity.
      * destruct s as [|x s]; [discriminate|].
        apply andb_true_iff in H as [_ H].
        destruct (IH q s eq_refl H) as (s' & ->).
        exists (String x s'). reflexivity.
Qed.

Lemma mentions_last (c : ascii) (s : string) :
  RegExp.mentions c (s ++ String c "") = true.
Proof.
  induction s as [|x s IH]; cbn [append RegExp.mentions].
  - rewrite Ascii.eqb_refl. reflexivity.
  - rewrite IH. apply orb_true_r.
Qed.

Lemma directoryRule_silent (r filePath : string) :
  directoryRule r = true -> JS.endsWith filePath "/" = false ->
  ruleFires filePath r = Returns false.
Proof.
  unfold directoryRule. intros H Hpath.
  apply andb_true_iff in H as [H Hbang]. apply andb_true_iff in H as [Hmeta Hend].
  apply negb_true_iff in Hbang.
  apply endsWith_spec in Hend as (q & ->).
  assert (Hslash : forall s, s = q ++ "/" -> JS.endsWith s "/" = true)
    by (intros s ->; apply endsWith_spec; eauto).
  assert (Hname : forall s,
             RegExp.mentions "/" s = false -> s <> q ++ "/").
  { intros s Hs ->. rewrite mentions_last in Hs. discriminate. }
  unfold ruleFires.
  destruct (JS.startsWith (q ++ "/") "#" || JS.trimIsEmpty (q ++ "/"));
    [reflexivity|].
  rewrite Hbang.
  rewrite matchPattern_tests.
  - destruct (glob (q ++ "/") filePath) eqn:G1.
    + destruct (glob_last "/" (q ++ "/") eq_refl eq_refl q filePath eq_refl G1)
        as (s' & E).
      rewrite (proj2 (endsWith_spec filePath "/")) in Hpath by eauto.
      discriminate.
    + destruct (glob (q ++ "/") (fileNameOf filePath)) eqn:G2; [|reflexivity].
      destruct (glob_last "/" (q ++ "/") eq_refl eq_refl q _ eq_refl G2)
        as (s' & E).
      pose proof (fileNameOf_without_slash filePath) as Hn.
      rewrite E, mentions_last in Hn. discriminate.
  - exact Hmeta.
  - destruct q; discriminate.
  - apply String.eqb_neq. intros E. rewrite (Hslash filePath) in Hpath by auto.
    discriminate.
  - apply String.eqb_neq. intros E.
    exact (Hname _ (fileNameOf_without_slash filePath) (eq_sym E)).
Qed.

Lemma directoryRules_silent (rules : list string) (filePath : string) :
  Forall (fun r => directoryRule r = true) rules ->
  JS.endsWith filePath "/" = false ->
  shouldIgnore filePath rules = shouldIgnore filePath [].
Proof.
  intros Hrules Hpath. rewrite !shouldIgnore_some.
  destruct (String.eqb (fileNameOf filePath) lockFile); [reflexivity|].
  induction Hrules as [|r rules Hr _ IH]; [reflexivity|].
  cbn [JS.some]. rewrite (directoryRule_silent r filePath Hr Hpath).
  cbn [bind]. exact IH.
Qed.

Lemma js_filter_ext {A : Type} (f g : A -> outcome bool) (l : list A) :
  (forall x, In x l -> f x = g x) -> JS.filter f l = JS.filter g l.
Proof.
  induction l as [|x l IH]; intros H; [reflexivity|].
  cbn [JS.filter]. rewrite (H x (or_introl eq_refl)), IH; [reflexivity|].
  intros y Hy. apply H. right. exact Hy.
Qed.

(** X24: a rule that ends in a slash, such as [node_modules/], matches no
    path that does not end in a slash.  The paths of a tree listing do not,
    so with such rules alone the verdict on a path is the one without any
    rule, and the builder returns the forest it returns without rules. *)
Theorem directory_rules_prune_nothing (rules : list string) :
  Forall (fun r => directoryRule r = true) rules ->
  (forall filePath,
      JS.endsWith filePath "/" = false ->
      shouldIgnore filePath rules
      = Returns (String.eqb (fileNameOf filePath) lockFile))
  /\ (forall items maxDepth,
         Forall (fun item => JS.endsWith (path item) "/" = false) items ->
         buildFileTree items rules maxDepth = buildFileTree items [] maxDepth).
Proof.
  intros Hrules. split.
  - intros filePath Hpath.
    rewrite (directoryRules_silent rules filePath Hrules Hpath).
    rewrite shouldIgnore_some.
    destruct (String.eqb (fileNameOf filePath) lockFile); reflexivity.
  - intros items maxDepth Hitems. rewrite Forall_forall in Hitems.
    assert (E : forall t, selected t items rules = selected t items []).
    { intros t. unfold selected. apply js_filter_ext. intros item Hin.
      apply filter_In in Hin as [Hin _]. unfold notIgnored.
      rewrite (directoryRules_silent rules (path item) Hrules (Hitems item Hin)).
      reflexivity. }
    unfold buildFileTree, buildHeap. rewrite !E. reflexivity.
Qed.

Lemma directory_rules_witness :
  buildFileTree
    [ {| path := "node_modules"; type := "tree" |};
      {| path := "node_modules/left-pad.js"; type := "blob" |};
      {| path := "src"; type := "tree" |} ]
    ["node_modules/"; "dist/"] 5
  = buildFileTree
      [ {| path := "node_modules"; type := "tree" |};
        {| path := "node_modules/left-pad.js"; type := "blob" |};
        {| path := "src"; type := "tree" |} ]
      [] 5.
Proof.
  apply (proj2 (directory_rules_prune_nothing ["node_modules/"; "dist/"]
                  ltac:(repeat constructor))).
  repeat constructor.
Defined.

(** ** Negated rules *)

Lemma some_reaches {A : Type} (f : A -> outcome bool) (l1 l2 : list A) (x : A) :
  Forall (fun y => exists b, f y = Returns b) l1 ->
  f x = Returns true ->
  JS.some f (l1 ++ x :: l2) = Returns true.
Proof.
  induction 1 as [|y l1 [b Hy] _ IH]; intros Hx; cbn [app JS.some].
  - rewrite Hx. reflexivity.
  - rewrite Hy. cbn [bind]. destruct b; [reflexivity|exact (IH Hx)].
Qed.

(** X25: a negated rule is a rule that fires on what its pattern does not
    match.  With [!pattern] anywhere among rules of literal characters and
    wildcards, every path that the pattern does not match is ignored. *)
Theorem negated_rule_ignores_the_rest (rules : list string)
        (pattern filePath : string) :
  In (String "!" pattern) rules ->
  Forall (fun r => metaFree r = true) rules ->
  matchPattern pattern filePath = Returns false ->
  shouldIgnore filePath rules = Returns true.
Proof.
  intros Hin Hrules Hm. rewrite shouldIgnore_some.
  destruct (String.eqb (fileNameOf filePath) lockFile); [reflexivity|].
  apply in_split in Hin as (before & after & ->).
  apply some_reaches.
  - apply Forall_app in Hrules as [Hb _]. rewrite Forall_forall in *.
    intros r Hr. apply ruleFires_returns, Hb, Hr.
  - rewrite ruleFires_negated, Hm. reflexivity.
Qed.

Lemma negated_rule_witness :
  shouldIgnore "src/index.ts" ["*.log"; "!README.md"] = Returns true.
Proof.
  apply (negated_rule_ignores_the_rest ["*.log"; "!README.md"] "README.md");
    [right; left; reflexivity|repeat constructor|reflexivity].
Defined.
